(** * doco: the Markdown/notebook to DOCX converter (document_converter.py)

    A shallow embedding of [DocumentConverter] and the properties of its
    Markdown normaliser, HTML-table transcoder, styling passes and
    conversion driver.

    Conventions of the embedding.
    - A Python [str] is a [string]; a character is its code point, and the
      model covers the code points 0..255 ([ascii]).  On that range the
      Python predicates used by the source are exactly the ones below
      ([str.isspace], the regex classes [\s] and [\d], [str.lower]).
    - Python [int] is [Z]; list indices and lengths are [nat].
    - A python-docx [Length] is its number of English Metric Units, so
      [Pt n] is [n * 12700]. *)

From Stdlib Require Import List String Ascii ZArith Bool Arith Lia DecimalString.
From Equations Require Import Equations.
Import ListNotations.

Local Open Scope string_scope.
Local Open Scope list_scope.

(* ===================================================================== *)
(** * Python string primitives *)
(* ===================================================================== *)

Module PyStr.

Definition code (c : ascii) : nat := nat_of_ascii c.

(** [c.isspace()], also the regex class [\s], for a code point below 256:
    TAB..CR, FS..US, space, NEL and NBSP. *)
Definition between (lo hi n : nat) : bool := Nat.leb lo n && Nat.leb n hi.

Definition isspace (c : ascii) : bool :=
  let n := code c in
  between 9 13 n || between 28 32 n || Nat.eqb n 133 || Nat.eqb n 160.

(** The regex class [\d] for a code point below 256: the ten ASCII digits. *)
Definition isdigit (c : ascii) : bool :=
  between 48 57 (code c).

(** [c.lower()] for a code point below 256. *)
Definition lower_char (c : ascii) : ascii :=
  let n := code c in
  if between 65 90 n || (between 192 222 n && negb (Nat.eqb n 215))
  then ascii_of_nat (n + 32) else c.

Fixpoint lower (s : string) : string :=
  match s with
  | EmptyString => EmptyString
  | String c s' => String (lower_char c) (lower s')
  end.

Definition newline : ascii := "010"%char.

Fixpoint lstrip (s : string) : string :=
  match s with
  | EmptyString => EmptyString
  | String c s' => if isspace c then lstrip s' else s
  end.

Fixpoint rstrip (s : string) : string :=
  match s with
  | EmptyString => EmptyString
  | String c s' =>
      match rstrip s' with
      | EmptyString => if isspace c then EmptyString else String c EmptyString
      | r => String c r
      end
  end.

(** [s.strip()] *)
Definition strip (s : string) : string := rstrip (lstrip s).

(** [s.startswith(p)] *)
Fixpoint startswith (p s : string) : bool :=
  match p, s with
  | EmptyString, _ => true
  | String a p', String b s' => Ascii.eqb b a && startswith p' s'
  | String _ _, EmptyString => false
  end.

(** [sub in s] *)
Fixpoint contains (sub s : string) : bool :=
  startswith sub s
  || match s with
     | EmptyString => false
     | String _ s' => contains sub s'
     end.

(** [set(s) == {c}]: [s] is not empty and every character of it is [c]. *)
Fixpoint all_char (c : ascii) (s : string) : bool :=
  match s with
  | EmptyString => true
  | String d s' => Ascii.eqb d c && all_char c s'
  end.

Definition set_is (c : ascii) (s : string) : bool :=
  match s with
  | EmptyString => false
  | _ => all_char c s
  end.

(** [s in l] for a list of strings. *)
Definition mem (s : string) (l : list string) : bool :=
  existsb (String.eqb s) l.

(** [s.split('\n')]: never empty, one more piece than there are newlines. *)
Fixpoint split_lines (s : string) : list string :=
  match s with
  | EmptyString => [EmptyString]
  | String c s' =>
      if Ascii.eqb c newline then EmptyString :: split_lines s'
      else match split_lines s' with
           | [] => [String c EmptyString]
           | l :: ls => String c l :: ls
           end
  end.

(** [sep.join(l)] *)
Fixpoint join (sep : string) (l : list string) : string :=
  match l with
  | [] => EmptyString
  | [x] => x
  | x :: xs => x ++ sep ++ join sep xs
  end.

Definition nl : string := String newline EmptyString.

(** [l[i]] for an index known to be in range. *)
Definition item (l : list string) (i : nat) : string := nth i l EmptyString.

Fixpoint last_char (s : string) : option ascii :=
  match s with
  | EmptyString => None
  | String c EmptyString => Some c
  | String _ s' => last_char s'
  end.

End PyStr.

(* ===================================================================== *)
(** * Markdown normaliser *)
(* ===================================================================== *)

Module Markdown.
Import PyStr.

(** ** [_strip_captions]: [re.sub(r'!\[.*?\]\((.*?)\)', r'![](\1)', md)]

    The pattern is matched by backtracking.  [.] is any character but a
    newline, [.*?] is lazy: the continuation is tried first and a further
    character is consumed only when the continuation fails. *)

(** [(.*?)\)] : the group and the text after the closing parenthesis. *)
Fixpoint match_path (s : string) : option (string * string) :=
  match s with
  | EmptyString => None
  | String c s' =>
      if Ascii.eqb c ")"%char then Some (EmptyString, s')
      else if Ascii.eqb c newline then None
      else match match_path s' with
           | Some (g, rest) => Some (String c g, rest)
           | None => None
           end
  end.

(** [\]\((.*?)\)] tried at the head of [s]. *)
Definition match_close (s : string) : option (string * string) :=
  match s with
  | String a (String b s') =>
      if Ascii.eqb a "]"%char && Ascii.eqb b "("%char then match_path s'
      else None
  | _ => None
  end.

(** [.*?\]\((.*?)\)] : what follows the opening [![]. *)
Fixpoint match_caption (s : string) : option (string * string) :=
  match match_close s with
  | Some r => Some r
  | None =>
      match s with
      | EmptyString => None
      | String c s' => if Ascii.eqb c newline then None else match_caption s'
      end
  end.

(** The whole pattern tried at the head of [s]: the group and the rest. *)
Definition match_image (s : string) : option (string * string) :=
  match s with
  | String a (String b s') =>
      if Ascii.eqb a "!"%char && Ascii.eqb b "["%char then match_caption s'
      else None
  | _ => None
  end.

(** Remembers the equation of a scrutinee, for the termination proof. *)
Definition inspect {A} (a : A) : {b : A | a = b} := exist _ a eq_refl.

(** [re.sub]: scan from the left; where the pattern matches, emit the
    replacement and go on after the match; elsewhere copy the character. *)
Equations? _strip_captions (md_content : string) : string
  by wf (String.length md_content) lt :=
  _strip_captions EmptyString := EmptyString;
  _strip_captions (String c s') with inspect (match_image (String c s')) := {
    | exist _ (Some (g, rest)) _ := "![](" ++ g ++ ")" ++ _strip_captions rest;
    | exist _ None _ := String c (_strip_captions s') }.
Proof.
  (* every matcher returns a proper suffix of its input *)
  assert (P : forall s g r,
             match_path s = Some (g, r) -> String.length r < String.length s).
  { induction s as [|a s IH]; intros g0 r; simpl; [discriminate|].
    destruct (Ascii.eqb a ")"%char); [intros [= <- <-]; lia|].
    destruct (Ascii.eqb a newline); [discriminate|].
    destruct (match_path s) as [[g1 r1]|] eqn:E; [|discriminate].
    intros [= <- <-]. specialize (IH _ _ eq_refl). lia. }
  assert (C : forall s g r,
             match_caption s = Some (g, r) -> String.length r < String.length s).
  { induction s as [|a s IH]; intros g0 r; [simpl; discriminate|].
    cbn [match_caption]. unfold match_close at 1.
    destruct s as [|b s2].
    - destruct (Ascii.eqb a newline); simpl; discriminate.
    - destruct (Ascii.eqb a "]"%char && Ascii.eqb b "("%char).
      + destruct (match_path s2) as [[g1 r1]|] eqn:E.
        * intros [= <- <-]. apply P in E. simpl. lia.
        * destruct (Ascii.eqb a newline); [discriminate|].
          intros H. apply IH in H. simpl in *. lia.
      + destruct (Ascii.eqb a newline); [discriminate|].
        intros H. apply IH in H. simpl in *. lia. }
  unfold match_image in e. destruct s' as [|b s2]; [discriminate|].
  destruct (Ascii.eqb c "!"%char && Ascii.eqb b "["%char); [|discriminate].
  apply C in e. simpl. lia.
Qed.

(** ** [_strip_hrs_after_headers] *)

(** The nested [is_hr]. *)
Definition is_hr (text : string) : bool :=
  let t := strip text in
  if mem t ["---"; "***"; "___"] then true
  else if Nat.ltb 5 (String.length t)
       then set_is "_"%char t || set_is "-"%char t || set_is "*"%char t
       else false.

(** The [for char in t] loop of [is_header_1]: the leading [#]s. *)
Fixpoint count_hashes (t : string) : nat :=
  match t with
  | EmptyString => 0
  | String c t' => if Ascii.eqb c "#"%char then S (count_hashes t') else 0
  end.

(** The nested [is_header_1]. *)
Definition is_header_1 (text : string) : bool :=
  let t := strip text in
  if negb (startswith "#" t) then false
  else
    let count := count_hashes t in
    if Nat.eqb count 1 && Nat.ltb 1 (String.length t)
       && match String.get 1 t with
          | Some c => Ascii.eqb c " "%char
          | None => false
          end
    then true else false.

Definition is_blank (line : string) : bool := String.eqb (strip line) "".

(** The inner [while prev_idx >= 0 and lines[prev_idx].strip() == ""],
    entered with [prev_idx = n - 1].  The result is the final [prev_idx];
    [None] stands for a negative one. *)
Fixpoint look_back (lines : list string) (n : nat) : option nat :=
  match n with
  | 0 => None
  | S k => if is_blank (item lines k) then look_back lines k else Some k
  end.

(** [is_after_h1] as computed for the rule line at index [i]. *)
Definition is_after_h1 (lines : list string) (i : nat) : bool :=
  match look_back lines i with
  | Some prev_idx => is_header_1 (strip (item lines prev_idx))
  | None => false
  end.

(** One turn of the outer [while i < len(lines)]: the new [new_lines]. *)
Definition hr_step (lines : list string) (i : nat) (new_lines : list string)
  : list string :=
  let line := item lines i in
  if is_hr line then
    if negb (is_after_h1 lines i) then new_lines ++ [line] else new_lines
  else new_lines ++ [line].

(** The outer loop, with [todo = len(lines) - i] turns left. *)
Fixpoint hr_loop (lines : list string) (i todo : nat) (new_lines : list string)
  : list string :=
  match todo with
  | 0 => new_lines
  | S k => hr_loop lines (S i) k (hr_step lines i new_lines)
  end.

Definition strip_hr_lines (lines : list string) : list string :=
  hr_loop lines 0 (List.length lines) [].

Definition _strip_hrs_after_headers (md_content : string) : string :=
  join nl (strip_hr_lines (split_lines md_content)).

(** ** [_style_captions_in_markdown] *)

(** A literal matched under [re.IGNORECASE]; the text after it. *)
Fixpoint iprefix (p s : string) : option string :=
  match p, s with
  | EmptyString, _ => Some s
  | String a p', String b s' =>
      if Ascii.eqb (lower_char a) (lower_char b) then iprefix p' s' else None
  | String _ _, EmptyString => None
  end.

Fixpoint skip_digits (s : string) : string :=
  match s with
  | EmptyString => EmptyString
  | String c s' => if isdigit c then skip_digits s' else s
  end.

(** [re.match(r'^Figure\s+\d+', t, re.IGNORECASE)]: the text after the
    match.  Both [+] are greedy and their classes are disjoint, so giving
    characters back never turns a failure into a match. *)
Definition match_figure (t : string) : option string :=
  match iprefix "Figure" t with
  | Some (String c r) =>
      if isspace c then
        match lstrip r with
        | String d r' => if isdigit d then Some (skip_digits r') else None
        | EmptyString => None
        end
      else None
  | _ => None
  end.

Definition is_figure (t : string) : bool :=
  match match_figure t with Some _ => true | None => false end.

(** [.*$] : no newline is left, or only the last character is one. *)
Fixpoint dot_star_end (s : string) : bool :=
  match s with
  | EmptyString => true
  | String c s' =>
      if Ascii.eqb c newline
      then match s' with EmptyString => true | _ => false end
      else dot_star_end s'
  end.

(** [fig_pattern.match(t)]: the pattern of [match_figure] followed by
    [.*] and [$], all of it in one group. *)
Definition fig_pattern_match (t : string) : bool :=
  match match_figure t with
  | Some rest => dot_star_end rest
  | None => false
  end.

Definition dquote : string := String "034"%char EmptyString.

Definition span_open : string :=
  "<span style=" ++ dquote ++ "font-size:10pt" ++ dquote ++ ">".

Definition style_caption_line (line : string) : string :=
  if fig_pattern_match (strip line)
  then span_open ++ line ++ "</span>"
  else line.

Definition _style_captions_in_markdown (md_content : string) : string :=
  join nl (map style_caption_line (split_lines md_content)).

(** The three passes in the order both callers apply them. *)
Definition normalize (md_content : string) : string :=
  _style_captions_in_markdown
    (_strip_hrs_after_headers (_strip_captions md_content)).

(** ** Vocabulary of the properties *)

(** Every character of [t] is [c]. *)
Definition made_of (c : ascii) (t : string) : Prop :=
  forall k a, String.get k t = Some a -> a = c.

(** The decision of one turn of the loop, as a flag on the index. *)
Definition kept (lines : list string) (i : nat) : bool :=
  negb (is_hr (item lines i) && is_after_h1 lines i).

(** [j] is the nearest non-blank line above line [i]. *)
Definition nearest_nonblank_above (lines : list string) (i j : nat) : Prop :=
  j < i /\ is_blank (item lines j) = false
  /\ forall k, j < k < i -> is_blank (item lines k) = true.

(** The line at index [i] has a level-1 heading as its nearest non-blank
    predecessor. *)
Definition follows_level1_heading (lines : list string) (i : nat) : Prop :=
  exists j, nearest_nonblank_above lines i j
            /\ is_header_1 (item lines j) = true.

(** The text has a closing parenthesis before any line break. *)
Definition closes (s : string) : Prop := match_path s <> None.

(** The tail of the pattern, [.*?\]\((.*?)\)], matches at the head. *)
Definition captioned (s : string) : Prop := match_caption s <> None.

End Markdown.

(* ===================================================================== *)
(** * HTML table to Markdown pipe table *)
(* ===================================================================== *)

Module HtmlTable.
Import PyStr.

(** An lxml element as [fromstring] returns it: tag, text before the first
    child, children, and the tail text that follows the element.  A comment
    or processing instruction has no string tag ([None]); its own text is
    not part of [text_content()], its tail is. *)
#[warnings="-register-all"]
Inductive element : Type :=
  Element (tag : option string) (text : string)
          (children : list element) (tail : string).

Definition tag (e : element) : option string :=
  let 'Element t _ _ _ := e in t.
Definition text (e : element) : string :=
  let 'Element _ x _ _ := e in x.
Definition children (e : element) : list element :=
  let 'Element _ _ cs _ := e in cs.
Definition tail (e : element) : string :=
  let 'Element _ _ _ tl := e in tl.

Definition has_tag (name : string) (e : element) : bool :=
  match tag e with Some t => String.eqb t name | None => false end.

(** [e.text_content()] *)
Fixpoint text_content (e : element) : string :=
  let 'Element t x cs _ := e in
  ((match t with Some _ => x | None => EmptyString end)
   ++ (fix inner (l : list element) : string :=
         match l with
         | [] => EmptyString
         | c :: l' => text_content c ++ tail c ++ inner l'
         end) cs)%string.

(** The proper descendants of [e] in document order. *)
Fixpoint descendants (e : element) : list element :=
  let 'Element _ _ cs _ := e in
  (fix inner (l : list element) : list element :=
     match l with
     | [] => []
     | c :: l' => c :: descendants c ++ inner l'
     end) cs.

(** [doc if doc.tag == 'table' else doc.find('.//table')] *)
Definition find_table (doc : element) : option element :=
  if has_tag "table" doc then Some doc
  else List.find (has_tag "table") (descendants doc).

(** [table.iter('tr')]: the element itself and its descendants. *)
Definition iter_tr (table : element) : list element :=
  List.filter (has_tag "tr") (table :: descendants table).

(** [[c.text_content().strip() for c in tr if c.tag in ('td', 'th')]] *)
Definition cells_of (tr : element) : list string :=
  map (fun c => strip (text_content c))
      (List.filter (fun c => has_tag "td" c || has_tag "th" c) (children tr)).

(** The first loop: the rows that have a cell. *)
Definition collect_rows (table : element) : list (list string) :=
  List.filter (fun cells => match cells with [] => false | _ => true end)
              (map cells_of (iter_tr table)).

(** [max(len(r) for r in rows)] *)
Definition max_len (rows : list (list string)) : nat :=
  list_max (map (@List.length string) rows).

(** [while len(r) < num_cols: r.append('')] *)
Definition pad (num_cols : nat) (r : list string) : list string :=
  r ++ repeat EmptyString (num_cols - List.length r).

(** ['| ' + ' | '.join(row) + ' |'] *)
Definition row_line (row : list string) : string :=
  ("| " ++ join " | " row ++ " |")%string.

(** The rows of the emitted table as cell lists: header, separator, body. *)
Definition table_rows (rows : list (list string)) : list (list string) :=
  match rows with
  | [] => []
  | _ :: _ =>
      let num_cols := max_len rows in
      match map (pad num_cols) rows with
      | [] => []
      | r0 :: rest => r0 :: repeat "---" num_cols :: rest
      end
  end.

(** The function after [doc = fromstring(html)]. *)
Definition _html_table_to_markdown (doc : element) : string :=
  match find_table doc with
  | None => EmptyString
  | Some table =>
      let rows := collect_rows table in
      match rows with
      | [] => EmptyString
      | _ :: _ => join nl (map row_line (table_rows rows))
      end
  end.

(** ** Vocabulary of the properties and sample fragments *)












End HtmlTable.

(* ===================================================================== *)
(** * The document tree and the styling engine ([_apply_styling]) *)
(* ===================================================================== *)

Module Docx.
Import PyStr.

Local Open Scope Z_scope.

(** python-docx lengths, in English Metric Units. *)
Definition Pt (n : Z) : Z := n * 12700.
Definition Twips (n : Z) : Z := n * 635.

(** ** XML attributes and leaf elements *)

Definition attrs : Type := list (string * string).

(** [el.set(k, v)] *)
Fixpoint set_attr (k v : string) (a : attrs) : attrs :=
  match a with
  | [] => [(k, v)]
  | (k', v') :: a' =>
      if String.eqb k k' then (k, v) :: a' else (k', v') :: set_attr k v a'
  end.

(** [el.get(k)] *)
Fixpoint get_attr (k : string) (a : attrs) : option string :=
  match a with
  | [] => None
  | (k', v') :: a' => if String.eqb k k' then Some v' else get_attr k a'
  end.

Record leaf : Type := Leaf { leaf_tag : string; leaf_attrs : attrs }.

(** [OxmlElement(tag)] followed by [set] calls in the order given. *)
Definition new_leaf (tag : string) (kvs : attrs) : leaf :=
  Leaf tag (fold_left (fun a kv => set_attr (fst kv) (snd kv) a) kvs []).

(** ** Runs and paragraphs *)

Inductive RGBColor : Type := RGB (r g b : Z).

Definition accent_blue : RGBColor := RGB 79 129 189.
Definition white : RGBColor := RGB 255 255 255.
Definition black : RGBColor := RGB 0 0 0.

Inductive WD_LINE_SPACING : Type :=
  SINGLE | ONE_POINT_FIVE | DOUBLE | AT_LEAST | EXACTLY | MULTIPLE.

Inductive WD_PARAGRAPH_ALIGNMENT : Type :=
  LEFT | CENTER | RIGHT | JUSTIFY | DISTRIBUTE.

(** The [w:line] attribute: a length, or the product python-docx stores
    for a float factor, [Emu(f * Twips(240))], kept symbolic with [f] in
    hundredths. *)
Inductive line_value : Type :=
| LineLength (emu : Z)
| LineFactor (hundredths : Z).

(** [run.font]: size, name, bold, colour; [None] is an unset property. *)
Record Run : Type := mkRun {
  r_text : string;
  font_size : option Z;
  font_name : option string;
  font_bold : option bool;
  font_color : option RGBColor }.

Definition set_font_size (v : Z) (r : Run) : Run :=
  mkRun (r_text r) (Some v) (font_name r) (font_bold r) (font_color r).
Definition set_font_name (v : string) (r : Run) : Run :=
  mkRun (r_text r) (font_size r) (Some v) (font_bold r) (font_color r).
Definition set_font_bold (v : bool) (r : Run) : Run :=
  mkRun (r_text r) (font_size r) (font_name r) (Some v) (font_color r).
Definition set_font_color (v : RGBColor) (r : Run) : Run :=
  mkRun (r_text r) (font_size r) (font_name r) (font_bold r) (Some v).

(** What the paragraph holds besides text: the numbers of [w:drawing],
    [w:pict], [m:oMath] and [m:oMathPara] descendants. *)
Record Inlines : Type := mkInlines {
  drawings : nat; picts : nat; oMaths : nat; oMathParas : nat }.

(** The children of [w:pPr] the source looks for by tag. *)
Record PPr : Type := mkPPr {
  numPr : bool;
  pBdr : list (list leaf);
  shd : list attrs;
  ind : list attrs;
  tabs : list (list leaf) }.

(** [paragraph.paragraph_format] and [paragraph.alignment]. *)
Record ParagraphFormat : Type := mkFormat {
  space_before : option Z;
  space_after : option Z;
  spacing_line : option line_value;
  spacing_lineRule : option WD_LINE_SPACING;
  page_break_before : option bool;
  alignment : option WD_PARAGRAPH_ALIGNMENT }.

Record Paragraph : Type := mkParagraph {
  style_name : string;          (* [paragraph.style.name], [""] if none *)
  runs : list Run;
  inlines : Inlines;
  pPr : PPr;
  format : ParagraphFormat }.

(** [paragraph.text] *)
Definition text (p : Paragraph) : string :=
  fold_right String.append EmptyString (map r_text (runs p)).

Definition with_runs (f : list Run -> list Run) (p : Paragraph) : Paragraph :=
  mkParagraph (style_name p) (f (runs p)) (inlines p) (pPr p) (format p).
Definition with_pPr (f : PPr -> PPr) (p : Paragraph) : Paragraph :=
  mkParagraph (style_name p) (runs p) (inlines p) (f (pPr p)) (format p).
Definition with_format (f : ParagraphFormat -> ParagraphFormat)
           (p : Paragraph) : Paragraph :=
  mkParagraph (style_name p) (runs p) (inlines p) (pPr p) (f (format p)).

Definition set_space_before (v : Z) : Paragraph -> Paragraph :=
  with_format (fun f =>
    mkFormat (Some v) (space_after f) (spacing_line f) (spacing_lineRule f)
             (page_break_before f) (alignment f)).
Definition set_space_after (v : Z) : Paragraph -> Paragraph :=
  with_format (fun f =>
    mkFormat (space_before f) (Some v) (spacing_line f) (spacing_lineRule f)
             (page_break_before f) (alignment f)).
Definition set_page_break_before (v : bool) : Paragraph -> Paragraph :=
  with_format (fun f =>
    mkFormat (space_before f) (space_after f) (spacing_line f)
             (spacing_lineRule f) (Some v) (alignment f)).
Definition set_alignment (v : WD_PARAGRAPH_ALIGNMENT)
  : Paragraph -> Paragraph :=
  with_format (fun f =>
    mkFormat (space_before f) (space_after f) (spacing_line f)
             (spacing_lineRule f) (page_break_before f) (Some v)).

Definition set_line (l : option line_value) (r : option WD_LINE_SPACING)
  : Paragraph -> Paragraph :=
  with_format (fun f =>
    mkFormat (space_before f) (space_after f) l r
             (page_break_before f) (alignment f)).

(** The setter of [paragraph_format.line_spacing_rule] (python-docx):
    the three named spacings are stored as a multiple of 240 twips. *)
Definition set_line_spacing_rule (v : WD_LINE_SPACING) (p : Paragraph)
  : Paragraph :=
  match v with
  | SINGLE => set_line (Some (LineLength (Twips 240))) (Some MULTIPLE) p
  | ONE_POINT_FIVE => set_line (Some (LineLength (Twips 360))) (Some MULTIPLE) p
  | DOUBLE => set_line (Some (LineLength (Twips 480))) (Some MULTIPLE) p
  | _ => set_line (spacing_line (format p)) (Some v) p
  end.

(** The setter of [paragraph_format.line_spacing] for a [Length]. *)
Definition set_line_spacing_length (v : Z) (p : Paragraph) : Paragraph :=
  match spacing_lineRule (format p) with
  | Some AT_LEAST => set_line (Some (LineLength v)) (Some AT_LEAST) p
  | _ => set_line (Some (LineLength v)) (Some EXACTLY) p
  end.

(** The setter of [paragraph_format.line_spacing] for a float factor. *)
Definition set_line_spacing_factor (hundredths : Z) (p : Paragraph)
  : Paragraph :=
  set_line (Some (LineFactor hundredths)) (Some MULTIPLE) p.

(** The getter of [paragraph_format.line_spacing_rule]. *)
Definition line_spacing_rule (p : Paragraph) : option WD_LINE_SPACING :=
  match spacing_lineRule (format p), spacing_line (format p) with
  | Some MULTIPLE, Some (LineLength l) =>
      if l =? Twips 240 then Some SINGLE
      else if l =? Twips 360 then Some ONE_POINT_FIVE
      else if l =? Twips 480 then Some DOUBLE
      else Some MULTIPLE
  | r, _ => r
  end.

(** [len(xpath('.//w:drawing')) > 0 or len(xpath('.//w:pict')) > 0] *)
Definition has_image (p : Paragraph) : bool :=
  Nat.ltb 0 (drawings (inlines p)) || Nat.ltb 0 (picts (inlines p)).

Definition has_math (p : Paragraph) : bool :=
  Nat.ltb 0 (oMaths (inlines p)) || Nat.ltb 0 (oMathParas (inlines p)).

(** ** Tables and structured-content blocks *)

(** A table as [table.rows] and [row.cells] give it when no cell is
    merged: every [w:tc] of a row is one cell of that row and is met once.
    With [w:gridSpan] or [w:vMerge] python-docx lists a cell more than
    once, also in the rows below its own; such tables are outside the
    model, and what is proved of the cells is proved for tables without
    merged cells. *)
Record Cell : Type := mkCell {
  tc_shd : list attrs;
  tcBorders : list (list leaf);
  tcMar : list (list leaf);
  vAlign : list attrs;
  cell_paragraphs : list Paragraph }.

Record Table : Type := mkTable {
  table_style : option string;
  tblBorders : list (list leaf);
  tblCellMar : list (list leaf);
  tblLook : list attrs;
  jc : list attrs;
  rows : list (list Cell);
  autofit : bool }.

(** A [w:p] inside [w:sdtContent], as the raw-XML loop sees it. *)
Record xml_rPr : Type := mkRPr {
  sz : option attrs; color : option attrs; rPr_rest : list leaf }.
Record xml_r : Type := mkR { rPr : option xml_rPr }.
Record xml_pPr : Type := mkXPPr {
  pStyle : option attrs; spacing : option attrs; pPr_rest : list leaf }.
Record xml_p : Type := mkXP {
  xp_pPr : option xml_pPr;
  xp_runs : list xml_r           (* [p.iter('w:r')], document order *) }.

Inductive sdt_child : Type :=
| SdtP (p : xml_p)
| SdtOther (tag : string).

Record Sdt : Type := mkSdt { sdtContent : option (list sdt_child) }.

(** A child of [w:body]. *)
Inductive Block : Type :=
| BPara (p : Paragraph)
| BTable (t : Table)
| BSdt (s : Sdt)
| BOther (tag : string).

Definition Body : Type := list Block.

(** [list(doc.paragraphs)]: the [w:p] children of the body. *)
Fixpoint paragraphs (body : Body) : list Paragraph :=
  match body with
  | [] => []
  | BPara p :: rest => p :: paragraphs rest
  | _ :: rest => paragraphs rest
  end.

(** [doc.tables]: the [w:tbl] children of the body. *)
Fixpoint tables (body : Body) : list Table :=
  match body with
  | [] => []
  | BTable t :: rest => t :: tables rest
  | _ :: rest => tables rest
  end.

(** The configuration fields of [DocumentConverter] the styling reads. *)
Record Config : Type := mkConfig {
  text_align : string;
  font_family : string;
  font_size_body : Z;
  font_size_table : Z;
  font_size_code : Z;
  resize_tables : bool }.

(** ** Pass 1: cleanup *)

(** The [is_hr] flag of the cleanup loop. *)
Definition is_rule (paragraph : Paragraph) : bool :=
  let text := strip (text paragraph) in
  let is_hr := match pBdr (pPr paragraph) with [] => false | _ :: _ => true end in
  if mem text ["---"; "***"; "___"]
     || (Nat.ltb 5 (String.length text) && set_is "_"%char text)
  then true else is_hr.

Definition is_blank (paragraph : Paragraph) : bool :=
  String.eqb (strip (text paragraph)) "".

(** The inner [while prev_idx >= 0 and paragraphs[prev_idx].text.strip()
    == ""], entered with [prev_idx = n - 1]; [None] is a negative index. *)
Fixpoint prev_nonblank (paragraphs : list Paragraph) (n : nat) : option nat :=
  match n with
  | O => None
  | S k =>
      match nth_error paragraphs k with
      | Some p => if is_blank p then prev_nonblank paragraphs k else Some k
      | None => None
      end
  end.

(** Whether the loop removes [paragraphs[i]]. *)
Definition removes (paragraphs : list Paragraph) (i : nat) : bool :=
  match nth_error paragraphs i with
  | None => false
  | Some paragraph =>
      if is_rule paragraph then
        match prev_nonblank paragraphs i with
        | Some prev_idx =>
            match nth_error paragraphs prev_idx with
            | Some prev => String.eqb (style_name prev) "Heading 1"
            | None => false
            end
        | None => false
        end
      else false
  end.

(** The elements of the body with their identity: [getparent().remove(el)]
    removes the element itself, and an element is identified here with its
    position in the body when the pass starts. *)
Definition Node : Type := (nat * Block)%type.

Definition number (body : Body) : list Node :=
  combine (seq 0 (List.length body)) body.

(** The Python list [paragraphs]: proxies that point into the body. *)
Fixpoint node_paragraphs (nodes : list Node) : list (nat * Paragraph) :=
  match nodes with
  | [] => []
  | (h, BPara p) :: rest => (h, p) :: node_paragraphs rest
  | _ :: rest => node_paragraphs rest
  end.

Definition remove_node (h : nat) (nodes : list Node) : list Node :=
  List.filter (fun n => negb (Nat.eqb (fst n) h)) nodes.

Definition cleanup_step (proxies : list (nat * Paragraph)) (i : nat)
           (nodes : list Node) : list Node :=
  match nth_error proxies i with
  | None => nodes
  | Some (h, _) =>
      if removes (map snd proxies) i then remove_node h nodes else nodes
  end.

(** [for i in range(len(paragraphs) - 1, -1, -1)], [n] turns left. *)
Fixpoint cleanup_loop (proxies : list (nat * Paragraph)) (n : nat)
         (nodes : list Node) : list Node :=
  match n with
  | O => nodes
  | S i => cleanup_loop proxies i (cleanup_step proxies i nodes)
  end.

Definition cleanup (body : Body) : Body :=
  let nodes := number body in
  let proxies := node_paragraphs nodes in
  map snd (cleanup_loop proxies (List.length proxies) nodes).

(** ** Pass 2: styling, one paragraph *)

Definition is_code_style (style_name : string) : bool :=
  contains "Source Code" style_name.
Definition is_heading_style (style_name : string) : bool :=
  startswith "Heading" style_name.
Definition is_list_paragraph (p : Paragraph) : bool :=
  contains "List" (style_name p) || contains "Compact" (style_name p)
  || numPr (pPr p).

(** A. Body text spacing. *)
Definition base_spacing (paragraph : Paragraph) : Paragraph :=
  let has_image := has_image paragraph in
  let has_math := has_math paragraph in
  let p := set_space_after (Pt 9) (set_space_before (Pt 9) paragraph) in
  if negb has_image && negb has_math
  then set_line_spacing_length (Pt 16) (set_line_spacing_rule EXACTLY p)
  else p.

(** [paragraphs[i-1] if i > 0 else None] *)
Definition prev_para (paragraphs : list Paragraph) (i : nat)
  : option Paragraph :=
  match i with
  | O => None
  | S k => nth_error paragraphs k
  end.

Definition caption_style (cfg : Config) (paragraph : Paragraph) : Paragraph :=
  let p :=
    with_runs (map (fun run =>
      set_font_name (font_family cfg) (set_font_size (Pt 10) run))) paragraph in
  set_line_spacing_rule SINGLE
    (set_space_after (Pt 9) (set_space_before (Pt 9) p)).

(** B. Caption styling: the paragraph and the flag [is_caption]. *)
Definition caption_step (cfg : Config) (paragraphs : list Paragraph)
           (i : nat) (text : string) (paragraph : Paragraph)
  : Paragraph * bool :=
  if Markdown.is_figure text then
    match prev_para paragraphs i with
    | Some prev =>
        if has_image prev then (caption_style cfg paragraph, true)
        else (paragraph, false)
    | None => (paragraph, false)
    end
  else (paragraph, false).

(** C. Heading spacing. *)
Definition heading_step (style_name : string) (paragraph : Paragraph)
  : Paragraph :=
  if is_heading_style style_name then
    set_page_break_before (String.eqb style_name "Heading 1")
      (set_space_after (Pt 6) (set_space_before (Pt 12) paragraph))
  else paragraph.

(** The nested [_adj_is_code]. *)
Definition _adj_is_code (paragraphs : list Paragraph) (idx : Z) : bool :=
  if (idx <? 0) || (idx >=? Z.of_nat (List.length paragraphs)) then false
  else match nth_error paragraphs (Z.to_nat idx) with
       | Some q => is_code_style (style_name q)
       | None => false
       end.

Definition invisible_border (side space : string) : leaf :=
  new_leaf side [("w:val", "none"); ("w:sz", "0"); ("w:space", space);
                 ("w:color", "auto")].

Definition code_step (paragraphs : list Paragraph) (i : nat)
           (paragraph : Paragraph) : Paragraph :=
  let is_first_code := negb (_adj_is_code paragraphs (Z.of_nat i - 1)) in
  let is_last_code := negb (_adj_is_code paragraphs (Z.of_nat i + 1)) in
  let p := set_space_before (if is_first_code then Pt 12 else Pt 0) paragraph in
  let p := set_space_after (if is_last_code then Pt 9 else Pt 0) p in
  let new_shd :=
    leaf_attrs (new_leaf "w:shd" [("w:val", "clear"); ("w:color", "auto");
                                  ("w:fill", "F2F2F2")]) in
  let new_pBdr :=
    [invisible_border "w:left" "9"; invisible_border "w:right" "9"]
    ++ (if is_first_code then [invisible_border "w:top" "5"] else [])
    ++ (if is_last_code then [invisible_border "w:bottom" "9"] else []) in
  let new_ind :=
    leaf_attrs (new_leaf "w:ind" [("w:left", "180"); ("w:right", "180")]) in
  with_pPr (fun x => mkPPr (numPr x) [new_pBdr] [new_shd] [new_ind] (tabs x)) p.

Definition list_step (paragraph : Paragraph) : Paragraph :=
  let p := set_space_after (Pt 6) (set_space_before (Pt 0) paragraph) in
  let p := set_line_spacing_factor 116 (set_line_spacing_rule MULTIPLE p) in
  with_pPr (fun x => mkPPr (numPr x) (pBdr x) (shd x) [] []) p.

(** D. Alignment. *)
Definition alignment_step (cfg : Config) (is_code has_image : bool)
           (paragraph : Paragraph) : Paragraph :=
  if is_code then set_alignment LEFT paragraph
  else if has_image then set_alignment CENTER paragraph
  else if String.eqb (text_align cfg) "justify"
       then set_alignment JUSTIFY paragraph
       else set_alignment LEFT paragraph.

(** D. Font: the body of [for run in paragraph.runs]. *)
Definition font_run (cfg : Config) (style_name : string)
           (is_code is_heading is_caption : bool) (run : Run) : Run :=
  let run := if negb is_code then set_font_name (font_family cfg) run else run in
  let run :=
    if is_code then set_font_size (Pt (font_size_code cfg)) run
    else if is_heading then
           if String.eqb style_name "Heading 1"
           then set_font_size (Pt 18) run else run
    else if negb is_caption then set_font_size (Pt (font_size_body cfg)) run
    else run in
  if is_heading then set_font_color accent_blue run else run.

(** The locals computed at the top of each turn of the loop. *)
Record Flags : Type := mkFlags {
  f_style_name : string;
  f_text : string;
  is_code : bool;
  is_heading : bool;
  is_list : bool;
  f_has_image : bool;
  f_has_math : bool }.

Definition classify (paragraph : Paragraph) : Flags :=
  let style_name := style_name paragraph in
  mkFlags style_name (strip (text paragraph))
          (is_code_style style_name) (is_heading_style style_name)
          (is_list_paragraph paragraph)
          (has_image paragraph) (has_math paragraph).

(** The loop body up to the table-of-contents block: steps A to C. *)
Definition style_head (cfg : Config) (paragraphs : list Paragraph) (i : nat)
           (fl : Flags) (paragraph : Paragraph) : Paragraph * bool :=
  let p := base_spacing paragraph in
  let '(p, is_caption) := caption_step cfg paragraphs i (f_text fl) p in
  (heading_step (f_style_name fl) p, is_caption).

(** The loop body after the table-of-contents block. *)
Definition style_tail (cfg : Config) (paragraphs : list Paragraph) (i : nat)
           (fl : Flags) (is_caption : bool) (paragraph : Paragraph)
  : Paragraph :=
  let p := if is_code fl then code_step paragraphs i paragraph else paragraph in
  let p := if is_list fl then list_step p else p in
  let p := alignment_step cfg (is_code fl) (f_has_image fl) p in
  with_runs (map (font_run cfg (f_style_name fl) (is_code fl) (is_heading fl)
                           is_caption)) p.

(** What one turn of the loop does to its own paragraph. *)
Definition style_paragraph (cfg : Config) (paragraphs : list Paragraph)
           (i : nat) (paragraph : Paragraph) : Paragraph :=
  let fl := classify paragraph in
  let '(p, is_caption) := style_head cfg paragraphs i fl paragraph in
  style_tail cfg paragraphs i fl is_caption p.

(** ** The table-of-contents heading block of the loop body *)

Definition or_empty (o : option attrs) : attrs :=
  match o with Some a => a | None => [] end.

(** The body of [for r in p.iter(qn('w:r'))]. *)
Definition toc_run (r : xml_r) : xml_r :=
  let x := match rPr r with Some x => x | None => mkRPr None None [] end in
  mkR (Some (mkRPr (Some (set_attr "w:val" "36" (or_empty (sz x))))
                   (Some (set_attr "w:val" "4F81BD" (or_empty (color x))))
                   (rPr_rest x))).

(** The body of [for p in sdtContent.iterchildren(qn('w:p'))]. *)
Definition toc_paragraph (p : xml_p) : xml_p :=
  match xp_pPr p with
  | None => p
  | Some ppr =>
      match pStyle ppr with
      | None => p
      | Some st =>
          match get_attr "w:val" st with
          | Some v =>
              if String.eqb v "TOCHeading" then
                mkXP (Some (mkXPPr (pStyle ppr)
                                   (Some (set_attr "w:after" "120"
                                                   (or_empty (spacing ppr))))
                                   (pPr_rest ppr)))
                     (map toc_run (xp_runs p))
              else p
          | None => p
          end
      end
  end.

Definition toc_sdt (s : Sdt) : Sdt :=
  match sdtContent s with
  | None => s
  | Some cs =>
      mkSdt (Some (map (fun c => match c with
                                 | SdtP p => SdtP (toc_paragraph p)
                                 | SdtOther t => SdtOther t
                                 end) cs))
  end.

(** [for sdt in doc.element.body.iterchildren(qn('w:sdt')): ...] *)
Definition toc_heading_style (body : Body) : Body :=
  map (fun b => match b with BSdt s => BSdt (toc_sdt s) | _ => b end) body.

(** ** Pass 2: the loop over the document *)

(** A change made through the proxy [paragraphs[i]]: it lands on the
    [i]-th [w:p] child of the body. *)
Fixpoint update_paragraph (i : nat) (f : Paragraph -> Paragraph)
         (body : Body) : Body :=
  match body with
  | [] => []
  | BPara p :: rest =>
      match i with
      | O => BPara (f p) :: rest
      | S k => BPara p :: update_paragraph k f rest
      end
  | b :: rest => b :: update_paragraph i f rest
  end.

(** One turn of [for i, paragraph in enumerate(paragraphs)]. *)
Definition styling_turn (cfg : Config) (body : Body) (i : nat) : Body :=
  let paragraphs := paragraphs body in
  match nth_error paragraphs i with
  | None => body
  | Some paragraph =>
      let fl := classify paragraph in
      let '(p, is_caption) := style_head cfg paragraphs i fl paragraph in
      let body := update_paragraph i (fun _ => p) body in
      let body := toc_heading_style body in
      update_paragraph i (style_tail cfg paragraphs i fl is_caption) body
  end.

Definition styling (cfg : Config) (body : Body) : Body :=
  fold_left (styling_turn cfg) (seq 0 (List.length (paragraphs body))) body.

(** The styling pass as the specification words it: the per-paragraph
    rules in the loop, the table-of-contents heading styled once for the
    document, outside the loop. *)
Definition paragraph_turn (cfg : Config) (body : Body) (i : nat) : Body :=
  let paragraphs := paragraphs body in
  update_paragraph i (style_paragraph cfg paragraphs i) body.

Definition styling_spec (cfg : Config) (body : Body) : Body :=
  toc_heading_style
    (fold_left (paragraph_turn cfg)
               (seq 0 (List.length (paragraphs body))) body).

(** ** Tables *)

Definition table_border (side : string) : leaf :=
  new_leaf side [("w:val", "single"); ("w:sz", "4"); ("w:space", "0");
                 ("w:color", "4F81BD")].

Definition cell_margin (side val : string) : leaf :=
  new_leaf side [("w:w", val); ("w:type", "dxa")].

Definition new_tblLook : attrs :=
  leaf_attrs (new_leaf "w:tblLook"
    [("w:val", "04A0"); ("w:firstRow", "1"); ("w:lastRow", "0");
     ("w:firstColumn", "1"); ("w:lastColumn", "0"); ("w:noHBand", "0");
     ("w:noVBand", "1")]).

(** The body of [for run in paragraph.runs] in a cell of row [i]. *)
Definition cell_run (cfg : Config) (i : nat) (run : Run) : Run :=
  let run := set_font_name (font_family cfg)
               (set_font_size (Pt (font_size_table cfg)) run) in
  if Nat.eqb i 0 then set_font_color white (set_font_bold true run)
  else set_font_color black run.

(** The body of [for paragraph in cell.paragraphs]. *)
Definition cell_paragraph (cfg : Config) (i : nat) (paragraph : Paragraph)
  : Paragraph :=
  let p := set_space_after (Pt 0) (set_space_before (Pt 0) paragraph) in
  let p := with_pPr (fun x => mkPPr (numPr x) (pBdr x) [] (ind x) (tabs x)) p in
  with_runs (map (cell_run cfg i)) p.

(** The body of [for cell in row.cells], in row [i]. *)
Definition format_cell (cfg : Config) (i : nat) (cell : Cell) : Cell :=
  let new_vAlign := leaf_attrs (new_leaf "w:vAlign" [("w:val", "center")]) in
  let header_shd :=
    leaf_attrs (new_leaf "w:shd" [("w:val", "clear"); ("w:color", "auto");
                                  ("w:fill", "4F81BD")]) in
  mkCell (if Nat.eqb i 0 then [header_shd] else [])
         [] []
         (vAlign cell ++ [new_vAlign])
         (map (cell_paragraph cfg i) (cell_paragraphs cell)).

(** [for i, row in enumerate(table.rows)], from index [i] on, for a table
    without merged cells: [row.cells] is the list of the cells of the
    row, each once. *)
Fixpoint format_rows (cfg : Config) (i : nat) (rows : list (list Cell))
  : list (list Cell) :=
  match rows with
  | [] => []
  | row :: rest => map (format_cell cfg i) row :: format_rows cfg (S i) rest
  end.

(** The body of [for table in doc.tables]; [has_grid] is
    ['Table Grid' in doc.styles]. *)
Definition format_table (cfg : Config) (has_grid : bool) (table : Table)
  : Table :=
  mkTable (if has_grid then Some "Table Grid" else table_style table)
          [map table_border ["w:top"; "w:left"; "w:bottom"; "w:right";
                             "w:insideH"; "w:insideV"]]
          [[cell_margin "w:top" "58"; cell_margin "w:bottom" "58";
            cell_margin "w:left" "115"; cell_margin "w:right" "115"]]
          [new_tblLook]
          [leaf_attrs (new_leaf "w:jc" [("w:val", "center")])]
          (format_rows cfg 0 (rows table))
          (if resize_tables cfg then false else autofit table).

Definition format_tables (cfg : Config) (has_grid : bool) (body : Body)
  : Body :=
  map (fun b => match b with
                | BTable t => BTable (format_table cfg has_grid t)
                | _ => b
                end) body.

(** ** Vocabulary of the properties and sample documents *)

Local Close Scope Z_scope.

(** The body without the paragraphs whose index (counted from [k]) is
    marked by [drop]; every other block stays, in order. *)
Fixpoint drop_paragraphs (drop : nat -> bool) (k : nat) (body : Body) : Body :=
  match body with
  | [] => []
  | BPara p :: rest =>
      (if drop k then [] else [BPara p]) ++ drop_paragraphs drop (S k) rest
  | b :: rest => b :: drop_paragraphs drop k rest
  end.

Definition number_from (a : nat) (body : Body) : list Node :=
  combine (seq a (List.length body)) body.

(** [j] is the index of the nearest non-blank paragraph before [i]. *)
Definition nearest_nonblank_before (ps : list Paragraph) (i j : nat) : Prop :=
  j < i
  /\ (exists q, nth_error ps j = Some q /\ is_blank q = false)
  /\ forall k, j < k < i ->
               exists r, nth_error ps k = Some r /\ is_blank r = true.

(** [l] with [f] applied to its element of index [i]. *)
Fixpoint alter_nth {A : Type} (i : nat) (f : A -> A) (l : list A) : list A :=
  match l, i with
  | [], _ => []
  | x :: l', O => f x :: l'
  | x :: l', S k => x :: alter_nth k f l'
  end.

(** What a turn of the loop reads of the other paragraphs, and what no
    turn changes: style name, embedded objects, numbering property. *)
Definition key (p : Paragraph) : string * Inlines * bool :=
  (style_name p, inlines p, numPr (pPr p)).

(** The paragraph is a caption: its text starts with [Figure <digits>]
    and the paragraph before it holds an image. *)
Definition caption_of (ps : list Paragraph) (i : nat) (p : Paragraph) : bool :=
  Markdown.is_figure (strip (text p))
  && match prev_para ps i with
     | Some prev => has_image prev
     | None => false
     end.

(** The size a run of a caption ends with. *)
Definition caption_size (cfg : Config) (style_name : string) : Z :=
  if is_code_style style_name then Pt (font_size_code cfg)
  else if String.eqb style_name "Heading 1" then Pt 18
  else Pt 10.

(** ** The cell loop with the cells python-docx hands out

    [row.cells] is python-docx's: for a table without merged cells it is
    the cells of the row, each once; a merged cell is handed out more
    than once, and for a vertical merge also in the rows below its own
    (the cell that continues a merge is replaced by the cell above it).
    A [listing] holds, row by row, the places (row, place in the row) of
    the cells handed out; the loop changes the cells in place. *)
Definition CellRef : Type := (nat * nat)%type.

(** The body of [for cell in row.cells] on the cell at [ref]. *)
Definition format_at (cfg : Config) (i : nat) (ref : CellRef)
           (rows : list (list Cell)) : list (list Cell) :=
  alter_nth (fst ref) (alter_nth (snd ref) (format_cell cfg i)) rows.

(** [for i, row in enumerate(table.rows): for cell in row.cells: ...],
    from index [i] on. *)
Fixpoint format_listing (cfg : Config) (i : nat) (listing : list (list CellRef))
         (rows : list (list Cell)) : list (list Cell) :=
  match listing with
  | [] => rows
  | refs :: rest =>
      format_listing cfg (S i) rest
        (fold_left (fun acc ref => format_at cfg i ref acc) refs rows)
  end.

(** The listing of a table without merged cells, for the rows from index
    [a] on: every cell once, in its own row. *)
Definition own_cells_from (a : nat) (rows : list (list Cell))
  : list (list CellRef) :=
  map (fun ir => map (fun k => (fst ir, k)) (seq 0 (List.length (snd ir))))
      (combine (seq a (List.length rows)) rows).

Definition own_cells (rows : list (list Cell)) : list (list CellRef) :=
  own_cells_from 0 rows.

(** The look flags of a table: the six switches of [w:tblLook]. *)
Definition look_flags (t : Table) : list (list (option string)) :=
  map (fun a => map (fun k => get_attr k a)
                    ["w:firstRow"; "w:firstColumn"; "w:lastRow";
                     "w:lastColumn"; "w:noHBand"; "w:noVBand"]%string)
      (tblLook t).

Definition default_config : Config :=
  mkConfig "justify" "Aptos" 12 11 10 true.

Definition plain_paragraph (style : string) (content : string) : Paragraph :=
  mkParagraph style [mkRun content None None None None]
              (mkInlines 0 0 0 0) (mkPPr false [] [] [] [])
              (mkFormat None None None None None None).

Definition picture_paragraph : Paragraph :=
  mkParagraph "Normal" [mkRun "" None None None None]
              (mkInlines 1 0 0 0) (mkPPr false [] [] [] [])
              (mkFormat None None None None None None).

Definition toc_only_body : Body :=
  [BSdt (mkSdt (Some [SdtP (mkXP (Some (mkXPPr (Some [("w:val", "TOCHeading")])
                                               None []))
                                 [mkR None])]))]%string.

Definition empty_table : Table := mkTable None [] [] [] [] [] true.

Definition one_cell (content : string) : Cell :=
  mkCell [] [] [] [] [plain_paragraph "Normal" content].

Definition small_table : Table :=
  mkTable None [] [] [] [] [[one_cell "a"]; [one_cell "1"]] true.

(** A header cell merged with the cell below it: the rows as they are in
    the file, and the cells python-docx hands out for them (for the
    second row the cell above, since its own cell continues the merge). *)
Definition merged_rows : list (list Cell) :=
  [[one_cell "a"]; [one_cell ""]].

Definition merged_listing : list (list CellRef) := [[(0, 0)]; [(0, 0)]].

End Docx.

(* ===================================================================== *)
(** * The conversion driver ([convert], [_markdown_to_docx], ...) *)
(* ===================================================================== *)

Module Driver.
Import PyStr.

(** [Path]: directory, stem and suffix of a resolved path. *)
Record Path : Type := mkPath { parent : string; stem : string; suffix : string }.

(** [str(path)] *)
Definition str (p : Path) : string := parent p ++ "/" ++ stem p ++ suffix p.

(** [dir / name] *)
Definition in_dir (dir name ext : string) : Path := mkPath dir name ext.

(** The options of [DocumentConverter] the driver reads. *)
Record Options : Type := mkOptions {
  template : option string;
  export_html : bool;
  export_markdown : bool;
  include_toc : bool;
  doc_title : option string }.

Record ConversionResult : Type := mkResult {
  docx : option Path; html : option Path; markdown : option Path }.

Inductive exn : Type := ConversionError (msg : string).

(** [f"{n}"] for an [int]. *)
Definition str_of_int (n : Z) : string :=
  DecimalString.NilZero.string_of_int (Z.to_int n).

Definition out_dir (inp : Path) (od : option string) : string :=
  match od with None => parent inp | Some d => d end.

Definition out_base (inp : Path) (bn : option string) : string :=
  match bn with None => stem inp | Some b => b end.

Section World.

(** The content of a compiled document. *)
Variable Document : Type.

Inductive file : Type :=
| Text (content : string)
| Docx (d : Document).

Definition Files : Type := string -> option file.

Definition write (path : string) (f : file) (fs : Files) : Files :=
  fun q => if String.eqb q path then Some f else fs q.

Definition unlink (path : string) (fs : Files) : Files :=
  fun q => if String.eqb q path then None else fs q.

(** What is observable of a run: the files, every command line handed
    to [subprocess.run], and the warnings printed. *)
Record World : Type := mkWorld {
  files : Files;
  invocations : list (list string);
  printed : list string }.

(** The result of [subprocess.run(cmd, capture_output=True, text=True)]
    together with the document pandoc writes when it succeeds. *)
Record Completed : Type := mkCompleted {
  returncode : Z; stderr : string; output : Document }.

(** The environment the converter runs in. *)
Variable pandoc_on_path : bool.   (* [shutil.which("pandoc") is not None] *)
Variable _HAS_NB : bool.
(** pandoc, a function of its command line and of the files it reads. *)
Variable pandoc : list string -> Files -> Completed.
(** The post-processing steps on a loaded document; [None]: the step
    raises before [doc.save]. *)
Variable add_header_footer : string -> Document -> option Document.
Variable apply_styling : Document -> option Document.
(** nbformat/nbconvert on the notebook text: the Markdown body, the HTML
    body and the extracted output files. *)
Variable nb_markdown : string -> string.
Variable nb_html : string -> string.
Variable nb_outputs : string -> list (string * string).

Variable opts : Options.

(** Computations that change the world and return or raise. *)
Inductive outcome (A : Type) : Type :=
| Returned (a : A)
| Raised (e : exn).
Arguments Returned {A} a.
Arguments Raised {A} e.

Definition M (A : Type) : Type := World -> outcome A * World.

Definition ret {A} (a : A) : M A := fun w => (Returned a, w).
Definition raise {A} (e : exn) : M A := fun w => (Raised e, w).
Definition bind {A B} (m : M A) (k : A -> M B) : M B :=
  fun w => match m w with
           | (Returned a, w') => k a w'
           | (Raised e, w') => (Raised e, w')
           end.

Notation "x <- m ;; k" := (bind m (fun x => k))
  (at level 61, m at next level, right associativity).
Notation "m ;;; k" := (bind m (fun _ => k))
  (at level 61, right associativity).

Definition get_files : M Files := fun w => (Returned (files w), w).
Definition modify_files (f : Files -> Files) : M unit :=
  fun w => (Returned tt, mkWorld (f (files w)) (invocations w) (printed w)).
Definition print (msg : string) : M unit :=
  fun w => (Returned tt, mkWorld (files w) (invocations w) (printed w ++ [msg])).

(** [subprocess.run(cmd, ...)]: the call is recorded, and a successful
    pandoc leaves its document at [docx_path]. *)
Definition run_pandoc (cmd : list string) (docx_path : string) : M Completed :=
  fun w =>
    let result := pandoc cmd (files w) in
    let fs := if Z.eqb (returncode result) 0
              then write docx_path (Docx (output result)) (files w)
              else files w in
    (Returned result, mkWorld fs (invocations w ++ [cmd]) (printed w)).

Definition _require_nb : M unit :=
  if negb _HAS_NB then raise (ConversionError "nbformat/nbconvert not available.")
  else ret tt.

Definition _require_pandoc : M unit :=
  if negb pandoc_on_path then raise (ConversionError "pandoc not found on PATH.")
  else ret tt.

(** [try: step(docx_path) except Exception as e: print(warning)]:
    load the document, change it, save it; a failure only prints. *)
Definition try_step (step : Document -> option Document)
           (docx_path warning : string) : M unit :=
  fs <- get_files ;;
  match fs docx_path with
  | Some (Docx d) =>
      match step d with
      | Some d' => modify_files (write docx_path (Docx d'))
      | None => print warning
      end
  | _ => print warning
  end.

Definition pandoc_cmd (md_path docx_path : Path) (source_dir : option string)
  : list string :=
  let resource_paths :=
    [parent md_path] ++ match source_dir with Some d => [d] | None => [] end in
  let resource_path_arg := join ":" resource_paths in
  ["pandoc"; str md_path; "-o"; str docx_path; "--standalone";
   ("--resource-path=" ++ resource_path_arg)%string;
   "-f"; "markdown+autolink_bare_uris"]
  ++ (if include_toc opts then ["--toc"; "--toc-depth=3"] else [])
  ++ match template opts with
     | Some t => [("--reference-doc=" ++ t)%string]
     | None => []
     end.

Definition pandoc_failed (result : Completed) : exn :=
  ConversionError ("pandoc failed (exit " ++ str_of_int (returncode result)
                   ++ "): " ++ strip (stderr result)).

Definition _markdown_to_docx (md_path docx_path : Path) (title : string)
           (source_dir : option string) : M unit :=
  _require_pandoc ;;;
  let cmd := pandoc_cmd md_path docx_path source_dir in
  result <- run_pandoc cmd (str docx_path) ;;
  if negb (Z.eqb (returncode result) 0) then raise (pandoc_failed result)
  else
    try_step (add_header_footer title) (str docx_path)
             "Warning: Failed to add layout/header" ;;;
    try_step apply_styling (str docx_path)
             "Warning: Failed to apply styling".

Definition read_text (path : string) : M string :=
  fs <- get_files ;;
  ret match fs path with Some (Text s) => s | _ => EmptyString end.

Definition _process_markdown (markdown_path : Path) (base_name output_dir : string)
  : M ConversionResult :=
  let title := match doc_title opts with Some t => t | None => base_name end in
  let out_docx := in_dir output_dir base_name ".docx" in
  _markdown_to_docx markdown_path out_docx title (Some (parent markdown_path)) ;;;
  md_content <- read_text (str markdown_path) ;;
  let md_content := Markdown._strip_captions md_content in
  let md_content := Markdown._strip_hrs_after_headers md_content in
  let md_content := Markdown._style_captions_in_markdown md_content in
  let temp_md := in_dir output_dir (base_name ++ "_temp") ".md" in
  modify_files (write (str temp_md) (Text md_content)) ;;;
  _markdown_to_docx temp_md out_docx title (Some (parent markdown_path)) ;;;
  modify_files (unlink (str temp_md)) ;;;
  ret (mkResult (Some out_docx) None None).

Definition write_outputs (dir : string) (outs : list (string * string))
  : Files -> Files :=
  fun fs => fold_left (fun acc o => write (dir ++ "/" ++ fst o)%string
                                           (Text (snd o)) acc)
                      outs fs.

Definition unlink_outputs (dir : string) (outs : list (string * string))
  : Files -> Files :=
  fun fs => fold_left (fun acc o => unlink (dir ++ "/" ++ fst o)%string acc)
                      outs fs.

Definition _process_notebook (notebook_path : Path) (base_name output_dir : string)
  : M ConversionResult :=
  _require_nb ;;;
  let title := match doc_title opts with Some t => t | None => base_name end in
  let out_html := in_dir output_dir (base_name ++ "_report") ".html" in
  let out_md := in_dir output_dir (base_name ++ "_report") ".md" in
  let out_docx := in_dir output_dir (base_name ++ "_report") ".docx" in
  nb <- read_text (str notebook_path) ;;
  (if export_html opts
   then modify_files (write (str out_html) (Text (nb_html nb)))
   else ret tt) ;;;
  let md_body := Markdown.normalize (nb_markdown nb) in
  modify_files (write (str out_md) (Text md_body)) ;;;
  modify_files (write_outputs output_dir (nb_outputs nb)) ;;;
  _markdown_to_docx out_md out_docx title (Some (parent notebook_path)) ;;;
  (if negb (export_markdown opts)
   then modify_files (fun fs => unlink_outputs output_dir (nb_outputs nb)
                                  (unlink (str out_md) fs))
   else ret tt) ;;;
  ret (mkResult (Some out_docx)
                (if export_html opts then Some out_html else None)
                (if export_markdown opts then Some out_md else None)).

Definition path_exists (p : Path) : M bool :=
  fs <- get_files ;;
  ret match fs (str p) with Some _ => true | None => false end.

Definition convert (input_path : Path) (output_dir base_name : option string)
  : M ConversionResult :=
  present <- path_exists input_path ;;
  if negb present
  then raise (ConversionError ("Input file not found: " ++ str input_path))
  else
    let suffix := lower (suffix input_path) in
    if negb (mem suffix [".ipynb"; ".md"])
    then raise (ConversionError ("Unsupported file type: " ++ suffix))
    else
      let output_dir := match output_dir with
                        | None => parent input_path
                        | Some d => d
                        end in
      let base_name := match base_name with
                       | None => stem input_path
                       | Some b => b
                       end in
      if String.eqb suffix ".ipynb"
      then _process_notebook input_path base_name output_dir
      else _process_markdown input_path base_name output_dir.

(** The two cosmetic steps on a compiled document, a failing step
    leaving the document as it found it. *)
Definition finish (title : string) (d : Document) : Document :=
  let d1 := match add_header_footer title d with
            | Some d' => d'
            | None => d
            end in
  match apply_styling d1 with
  | Some d2 => d2
  | None => d1
  end.

(** The warnings the two cosmetic steps print on a compiled document
    (the text of the exception left out). *)
Definition warnings (title : string) (d : Document) : list string :=
  (match add_header_footer title d with
   | Some _ => []
   | None => ["Warning: Failed to add layout/header"]
   end
   ++ match apply_styling (match add_header_footer title d with
                           | Some d' => d'
                           | None => d
                           end) with
      | Some _ => []
      | None => ["Warning: Failed to apply styling"]
      end)%list.

Definition title_of (base_name : string) : string :=
  match doc_title opts with Some t => t | None => base_name end.

End World.

Arguments Returned {A} a.
Arguments Raised {A} e.
Arguments Text {Document} content.
Arguments Docx {Document} d.
Arguments write {Document} path f fs _.
Arguments unlink {Document} path fs _.
Arguments mkWorld {Document} files invocations printed.
Arguments files {Document} w _.
Arguments invocations {Document} w.
Arguments printed {Document} w.
Arguments mkCompleted {Document} returncode stderr output.
Arguments returncode {Document} c.
Arguments stderr {Document} c.
Arguments output {Document} c.
Arguments pandoc_failed {Document} result.
Arguments ret {Document A} a _.
Arguments raise {Document A} e _.
Arguments bind {Document A B} m k _.
Arguments get_files {Document} _.
Arguments modify_files {Document} f _.
Arguments print {Document} msg _.

(** A world of one Markdown file, a pandoc that always succeeds and
    echoes its source. *)
(** A world of one Markdown file, a pandoc that always succeeds, and
    cosmetic steps that always fail. *)
Definition sample_input : Path := mkPath "/work" "report" ".md".

Definition sample_world : World string :=
  mkWorld (fun q => if String.eqb q "/work/report.md"
                    then Some (Text "# Report")
                    else None)
          [] [].

Definition sample_pandoc (cmd : list string) (fs : Files string)
  : Completed string :=
  mkCompleted 0%Z "" (match nth_error cmd 1 with
                      | Some path =>
                          match fs path with
                          | Some (Text s) => s
                          | _ => ""
                          end
                      | None => ""
                      end).

Definition sample_options : Options := mkOptions None false false false None.

End Driver.
(* ===================================================================== *)
(** * Further vocabulary for the styling engine *)
(* ===================================================================== *)

Module DocxMore.
Import PyStr Docx.

(** The paragraph before index [i] is code-styled; the first paragraph
    has none before it. *)
Definition code_before (ps : list Paragraph) (i : nat) : bool :=
  match i with
  | O => false
  | S k => match nth_error ps k with
           | Some q => is_code_style (style_name q)
           | None => false
           end
  end.

(** The paragraph after index [i] is code-styled; the last paragraph has
    none after it. *)
Definition code_after (ps : list Paragraph) (i : nat) : bool :=
  match nth_error ps (S i) with
  | Some q => is_code_style (style_name q)
  | None => false
  end.

(** What the styling pass must not change of a paragraph. *)
Definition content (p : Paragraph) : string * list string * Inlines :=
  (style_name p, map r_text (runs p), inlines p).

(** The alignment the pass gives a paragraph. *)
Definition alignment_of (cfg : Config) (p : Paragraph) : WD_PARAGRAPH_ALIGNMENT :=
  if is_code_style (style_name p) then LEFT
  else if has_image p then CENTER
  else if String.eqb (text_align cfg) "justify" then JUSTIFY
  else LEFT.

Definition code_paragraph (content : string) : Paragraph :=
  plain_paragraph "Source Code" content.

(** ** The cover page and the whole of [_apply_styling] on the body *)

(** [doc.add_paragraph("INSERT YOUR COVER PAGE HERE")] with the style
    [Normal] and a second, empty run that holds the page break (a page
    break contributes no text). *)
Definition cover_para : Paragraph :=
  mkParagraph "Normal"
              [mkRun "INSERT YOUR COVER PAGE HERE" None None None None;
               mkRun "" None None None None]
              (mkInlines 0 0 0 0) (mkPPr false [] [] [] [])
              (mkFormat None None None None None None).

(** Step 2 of [_apply_styling]: the cover paragraph becomes the first
    child of the body when a table of contents is asked for and the
    document has a paragraph. *)
Definition cover_page (include_toc : bool) (body : Body) : Body :=
  if include_toc && Nat.ltb 0 (List.length (paragraphs body))
  then BPara cover_para :: body
  else body.

(** What [_apply_styling] does to the body of the document when no step
    raises: cover page, cleanup, styling, tables.  (The numbering
    definitions and the [Normal] style live in other parts of the
    package.) *)
Definition _apply_styling (cfg : Config) (include_toc has_grid : bool)
           (body : Body) : Body :=
  format_tables cfg has_grid (styling cfg (cleanup (cover_page include_toc body))).

(** The paragraphs a paragraph index of the body is shifted by. *)
Definition shift (d : nat -> bool) (i : nat) : bool := d (S i).

(** The texts of a table, row by row, cell by cell, paragraph by
    paragraph, run by run. *)
Definition cell_texts (c : Cell) : list (list string) :=
  map (fun p => map r_text (runs p)) (cell_paragraphs c).

Definition table_texts (t : Table) : list (list (list (list string))) :=
  map (map cell_texts) (rows t).

(** Every cell of the table. *)
Definition cells (t : Table) : list Cell := List.concat (rows t).

Definition shaded_cell : Cell :=
  mkCell [[("w:fill", "FFFF00")]] [] [] [[("w:val", "top")]]
         [plain_paragraph "Normal" "7"].

Definition shaded_table : Table :=
  mkTable None [] [] [] [] [[one_cell "n"]; [shaded_cell]] true.

End DocxMore.

(* ===================================================================== *)
(** * Notebook preparation ([_clean_outputs], the table loop of
      [_process_notebook]) *)
(* ===================================================================== *)

Module Notebook.
Import PyStr.

(** A dict with string keys, as far as [get] and [in] can tell. *)
Definition has_key {A} (k : string) (d : list (string * A)) : bool :=
  existsb (fun kv => String.eqb (fst kv) k) d.

Fixpoint lookup {A} (k : string) (d : list (string * A)) : option A :=
  match d with
  | [] => None
  | (k', v) :: d' => if String.eqb k' k then Some v else lookup k d'
  end.

(** An output of a code cell: the two keys the converter reads and the
    other entries of the dict. *)
Record Output : Type := mkOutput {
  output_type : option string;
  data : option (list (string * string));
  output_rest : list (string * string) }.

(** A cell: [None] is a missing key; [execution_count] can be present
    and [None]. *)
Record Cell : Type := mkCell {
  cell_type : option string;
  source : string;
  outputs : option (list Output);
  execution_count : option (option Z) }.

(** [out.get("data", {})] *)
Definition data_of (out : Output) : list (string * string) :=
  match data out with Some d => d | None => [] end.

(** [cell.get("outputs", [])] *)
Definition outputs_of (cell : Cell) : list Output :=
  match outputs cell with Some l => l | None => [] end.

(** [cell.get("cell_type") == "code"] *)
Definition is_code_cell (cell : Cell) : bool :=
  match cell_type cell with Some t => String.eqb t "code" | None => false end.

(** The test of [_clean_outputs] on one output. *)
Definition is_rich (out : Output) : bool :=
  let otype := output_type out in
  let data := data_of out in
  let has_img := existsb (fun k => has_key k data)
                         ["image/png"; "image/svg+xml"]%string in
  let has_html := has_key "text/html" data in
  match otype with
  | Some t => mem t ["display_data"; "execute_result"]%string
  | None => false
  end && (has_img || has_html).

(** The body of [for cell in nb.cells] in [_clean_outputs]. *)
Definition clean_cell (keep_text : bool) (cell : Cell) : Cell :=
  if negb (is_code_cell cell) then cell
  else
    let cell :=
      if negb keep_text
      then mkCell (cell_type cell) (source cell)
                  (Some (filter is_rich (outputs_of cell)))
                  (execution_count cell)
      else cell in
    mkCell (cell_type cell) (source cell) (outputs cell) (Some None).

Definition _clean_outputs (cells : list Cell) (keep_text : bool) : list Cell :=
  map (clean_cell keep_text) cells.

(** ["text/html" in data and "<table" in data["text/html"]] *)
Definition is_table_output (out : Output) : bool :=
  let data := data_of out in
  has_key "text/html" data
  && match lookup "text/html" data with
     | Some html => contains "<table" html
     | None => false
     end.

Definition table_html (out : Output) : string :=
  match lookup "text/html" (data_of out) with
  | Some html => html
  | None => EmptyString
  end.

(** [nbf.v4.new_markdown_cell(source=md_table)] *)
Definition new_markdown_cell (source : string) : Cell :=
  mkCell (Some "markdown"%string) source None None.

Section Tables.

(** [lxml.html.fromstring] *)
Variable fromstring : string -> HtmlTable.element.

Definition md_table (html : string) : string :=
  HtmlTable._html_table_to_markdown (fromstring html).

(** The cell as the loop leaves it: the outputs that hold a table
    are taken out of a code cell. *)
Definition without_tables (cell : Cell) : Cell :=
  if is_code_cell cell
  then mkCell (cell_type cell) (source cell)
              (Some (filter (fun out => negb (is_table_output out))
                            (outputs_of cell)))
              (execution_count cell)
  else cell.

Definition table_htmls (cell : Cell) : list string :=
  if is_code_cell cell
  then map table_html (filter is_table_output (outputs_of cell))
  else [].

(** The cells one turn of the loop appends to [new_cells]. *)
Definition extract_cell (cell : Cell) : list Cell :=
  without_tables cell
  :: map new_markdown_cell
         (filter (fun md => negb (String.eqb md EmptyString))
                 (map md_table (table_htmls cell))).

(** [nb_clean.cells] after the loop. *)
Definition extract_tables (cells : list Cell) : list Cell :=
  flat_map extract_cell cells.

End Tables.

(** ** Vocabulary of the properties and sample cells *)

(** Every output of every cell satisfies [P]. *)
Definition every_output (P : Output -> bool) (cells : list Cell) : Prop :=
  Forall (fun cell => Forall (fun out => P out = true) (outputs_of cell)) cells.

Definition stream_output : Output :=
  mkOutput (Some "stream"%string) None [("text", "42")]%string.

Definition frame_output : Output :=
  mkOutput (Some "execute_result"%string)
           (Some [("text/html", "<table><tr><td>1</td></tr></table>");
                  ("text/plain", "1")]%string) [].

Definition code_cell (outs : list Output) : Cell :=
  mkCell (Some "code"%string) "df"%string (Some outs) (Some (Some 3%Z)).

(** A parser that finds a table of one row and one cell. *)
Definition sample_fromstring (html : string) : HtmlTable.element :=
  HtmlTable.Element (Some "table"%string) EmptyString
    [HtmlTable.Element (Some "tr"%string) EmptyString
       [HtmlTable.Element (Some "td"%string) "1"%string [] EmptyString]
       EmptyString]
    EmptyString.

End Notebook.

(* ===================================================================== *)
(** * Further sample worlds for the conversion driver *)
(* ===================================================================== *)

Module DriverMore.
Import PyStr Driver.

(** An input whose path is the path of the temporary file of a
    conversion with the base name [report]. *)
Definition sample_temp_input : Path := mkPath "/work" "report_temp" ".md".

Definition sample_temp_world : World string :=
  mkWorld (fun q => if String.eqb q "/work/report_temp.md"
                    then Some (Text "# Report")
                    else None)
          [] [].

Definition sample_notebook : Path := mkPath "/work" "nb" ".ipynb".

Definition sample_notebook_world : World string :=
  mkWorld (fun q => if String.eqb q "/work/nb.ipynb"
                    then Some (Text "{}")
                    else None)
          [] [].

(** A pandoc that fails on the temporary file. *)
Definition fussy_pandoc (cmd : list string) (fs : Files string)
  : Completed string :=
  match nth_error cmd 1 with
  | Some path =>
      if String.eqb path "/work/report_temp.md"
      then mkCompleted 1%Z "boom" ""
      else mkCompleted 0%Z "" ""
  | None => mkCompleted 0%Z "" ""
  end.

End DriverMore.

(* ===================================================================== *)
(** * The upload handler of the server ([upload_file], plain files) *)
(* ===================================================================== *)

Module Upload.
Import PyStr.

(** [s.endswith(suffix)] *)
Definition endswith (suffix s : string) : bool :=
  let n := String.length suffix in
  let m := String.length s in
  Nat.leb n m && String.eqb (String.substring (m - n) n s) suffix.

(** An uploaded file: its name, if it has one, and its bytes. *)
Record UploadFile : Type := mkUpload {
  filename : option string;
  file_content : string }.






(** [len(files) == 1 and first_filename.endswith('.zip')]: the upload
    is handled as an archive and not by the loop. *)
Definition is_zip_upload (files : list UploadFile) : bool :=
  match files with
  | [file] =>
      endswith ".zip" match filename file with
                      | Some n => n
                      | None => EmptyString
                      end
  | _ => false
  end.

(** ** Vocabulary of the properties *)



End Upload.

(* ===================================================================== *)
(** * The Markdown table of contents ([_generate_toc_markdown]) *)
(* ===================================================================== *)

Module Toc.
Import PyStr.


(** The text after the leading [#]s. *)
Fixpoint after_hashes (line : string) : string :=
  match line with
  | EmptyString => EmptyString
  | String c line' => if Ascii.eqb c "#"%char then after_hashes line' else line
  end.









(** ** Vocabulary of the properties *)




End Toc.

(* ===================================================================== *)
(** * Properties of the Markdown normaliser *)
(* ===================================================================== *)

Section StripFacts.
Import PyStr.

Lemma rstrip_idempotent s : rstrip (rstrip s) = rstrip s.
Proof.
  induction s as [|c s IH]; [reflexivity|].
  cbn [rstrip]. destruct (rstrip s) as [|d r] eqn:E.
  - destruct (isspace c) eqn:Hc; [reflexivity|].
    cbn [rstrip]. now rewrite Hc.
  - change (rstrip (String c (String d r)))
      with (match rstrip (String d r) with
            | EmptyString => if isspace c then EmptyString else String c EmptyString
            | String a r0 => String c (String a r0)
            end).
    rewrite IH. reflexivity.
Qed.

Lemma rstrip_head c s :
  isspace c = false -> exists r, rstrip (String c s) = String c r.
Proof.
  intros Hc. cbn [rstrip]. destruct (rstrip s) as [|d r].
  - rewrite Hc. eauto.
  - eauto.
Qed.

Lemma lstrip_head s :
  lstrip s = EmptyString \/
  exists c r, lstrip s = String c r /\ isspace c = false.
Proof.
  induction s as [|c s IH]; [now left|].
  simpl. destruct (isspace c) eqn:Hc; [exact IH|].
  right. eauto.
Qed.

Lemma strip_idempotent s : strip (strip s) = strip s.
Proof.
  unfold strip. destruct (lstrip_head s) as [->|(c & r & -> & Hc)].
  - reflexivity.
  - destruct (rstrip_head c r Hc) as [r' E]. rewrite E.
    cbn [lstrip]. rewrite Hc, <- E. apply rstrip_idempotent.
Qed.

(** A stripped text is empty or starts with a character that is no
    white space. *)
Lemma strip_head s :
  strip s = EmptyString \/
  exists c r, strip s = String c r /\ isspace c = false.
Proof.
  unfold strip. destruct (lstrip_head s) as [->|(c & r & -> & Hc)].
  - now left.
  - right. destruct (rstrip_head c r Hc) as [r' E]. eauto.
Qed.

End StripFacts.

Section RuleRemoval.
Import PyStr Markdown.

Lemma hr_step_kept lines i acc :
  hr_step lines i acc = acc ++ (if kept lines i then [item lines i] else []).
Proof.
  unfold hr_step, kept.
  destruct (is_hr (item lines i)); simpl.
  - destruct (is_after_h1 lines i); simpl; [now rewrite app_nil_r|reflexivity].
  - reflexivity.
Qed.

Lemma hr_loop_filter lines todo : forall i acc,
  hr_loop lines i todo acc
  = acc ++ map (item lines) (filter (kept lines) (seq i todo)).
Proof.
  induction todo as [|k IH]; intros i acc; simpl.
  - now rewrite app_nil_r.
  - rewrite IH, hr_step_kept.
    destruct (kept lines i); simpl; rewrite <- app_assoc; reflexivity.
Qed.

Lemma strip_hr_lines_filter lines :
  strip_hr_lines lines
  = map (item lines) (filter (kept lines) (seq 0 (List.length lines))).
Proof. unfold strip_hr_lines. now rewrite hr_loop_filter. Qed.

Lemma look_back_some lines n j :
  look_back lines n = Some j <-> nearest_nonblank_above lines n j.
Proof.
  unfold nearest_nonblank_above.
  induction n as [|n IH]; simpl.
  - split; [discriminate|]. intros [H _]. lia.
  - destruct (is_blank (item lines n)) eqn:Hb.
    + rewrite IH. split.
      * intros (Hlt & Hj & Hk). repeat split; [lia|assumption|].
        intros k Hk'. destruct (Nat.eq_dec k n) as [->|]; [assumption|].
        apply Hk. lia.
      * intros (Hlt & Hj & Hk).
        assert (j <> n) by (intros ->; congruence).
        repeat split; [lia|assumption|]. intros k Hk'. apply Hk. lia.
    + split.
      * intros [= <-]. repeat split; [lia|assumption|]. intros k Hk. lia.
      * intros (Hlt & Hj & Hk).
        destruct (Nat.eq_dec j n) as [->|]; [reflexivity|].
        rewrite Hk in Hb; [discriminate|lia].
Qed.

Lemma is_header_1_strip s : is_header_1 (strip s) = is_header_1 s.
Proof. unfold is_header_1. now rewrite strip_idempotent. Qed.

Lemma is_after_h1_spec lines i :
  is_after_h1 lines i = true <-> follows_level1_heading lines i.
Proof.
  unfold is_after_h1, follows_level1_heading.
  destruct (look_back lines i) as [j|] eqn:E.
  - rewrite is_header_1_strip. split.
    + intros H. exists j. split; [now apply look_back_some|assumption].
    + intros (j' & Hj' & Hh). apply look_back_some in Hj'.
      rewrite E in Hj'. now injection Hj' as ->.
  - split; [discriminate|]. intros (j & Hj & _).
    apply look_back_some in Hj. congruence.
Qed.

End RuleRemoval.

Section RuleRemovalClaims.
Import PyStr Markdown.

Lemma all_char_made_of c t : all_char c t = true <-> made_of c t.
Proof.
  unfold made_of. induction t as [|d t IH]; simpl.
  - split; [intros _ k a; destruct k; discriminate|reflexivity].
  - rewrite andb_true_iff, IH. split.
    + intros [Hd Ht] [|k] a; simpl.
      * intros [= <-]. now apply Ascii.eqb_eq.
      * apply Ht.
    + intros H. split.
      * apply Ascii.eqb_eq. now apply (H 0).
      * intros k a Hk. now apply (H (S k)).
Qed.

Lemma set_is_made_of c t :
  set_is c t = true <-> t <> EmptyString /\ made_of c t.
Proof.
  destruct t as [|d t].
  - simpl. split; [discriminate|]. now intros [[] _].
  - unfold set_is. rewrite all_char_made_of. split; [|tauto].
    intros H. split; [discriminate|assumption].
Qed.

(** [is_hr] in the words of the specification. *)
Lemma is_hr_spec line :
  is_hr line = true <->
  let t := strip line in
  In t ["---"; "***"; "___"]
  \/ (5 < String.length t
      /\ exists c, In c ["_"; "-"; "*"]%char /\ made_of c t).
Proof.
  unfold is_hr. cbv zeta. generalize (strip line). intros t.
  destruct (mem t ["---"; "***"; "___"]) eqn:Hm.
  - split; [intros _|reflexivity]. left.
    unfold mem in Hm. apply existsb_exists in Hm as (x & Hx & E).
    apply String.eqb_eq in E. now subst x.
  - assert (Hn : ~ In t ["---"; "***"; "___"]).
    { intros Hin. assert (mem t ["---"; "***"; "___"] = true); [|congruence].
      unfold mem. apply existsb_exists. exists t. split; [assumption|].
      apply String.eqb_refl. }
    destruct (Nat.ltb 5 (String.length t)) eqn:Hl.
    + apply Nat.ltb_lt in Hl.
      rewrite !orb_true_iff, !set_is_made_of. split.
      * intros H. right. split; [assumption|].
        destruct H as [[H|H]|H]; destruct H as [_ H];
          eexists; (split; [|exact H]); simpl; tauto.
      * intros [H|(_ & c & Hc & H)]; [contradiction|].
        assert (Hne : t <> EmptyString) by (intros E; rewrite E in Hl; simpl in Hl; lia).
        simpl in Hc. destruct Hc as [<-|[<-|[<-|[]]]]; tauto.
    + apply Nat.ltb_ge in Hl. split; [discriminate|].
      intros [H|(H & _)]; [contradiction|lia].
Qed.

(** [is_header_1] in the words of the specification: exactly one [#],
    then a space. *)
Lemma is_header_1_spec line :
  is_header_1 line = true <->
  exists rest, strip line = String "#" (String " " rest).
Proof.
  unfold is_header_1. cbv zeta. generalize (strip line). intros t.
  destruct t as [|a [|b r]]; simpl.
  - split; [discriminate|]. intros [rest H]. discriminate H.
  - split.
    + destruct (Ascii.eqb a "#"); simpl; discriminate.
    + intros [rest H]. discriminate H.
  - destruct (Ascii.eqb_spec a "#"%char) as [->|Ha]; simpl.
    + destruct (Ascii.eqb_spec b "#"%char) as [->|Hb]; simpl.
      * split; [discriminate|]. intros [rest H]. discriminate H.
      * destruct (Ascii.eqb_spec b " "%char) as [->|Hs]; simpl.
        -- split; [eauto|reflexivity].
        -- split; [discriminate|]. intros [rest H]. congruence.
    + split; [discriminate|]. intros [rest H]. congruence.
Qed.

Lemma kept_false_iff lines i :
  kept lines i = false <->
  is_hr (item lines i) = true /\ follows_level1_heading lines i.
Proof.
  unfold kept. rewrite negb_false_iff, andb_true_iff, is_after_h1_spec.
  reflexivity.
Qed.

(** C5.  In the decorative-rule-removal pass the output is the input line
    sequence, in order, without the lines at the dropped indices; a line
    is dropped if and only if it is a rule and the nearest non-blank line
    above it is a level-1 heading; rules and level-1 headings are the
    lines the specification describes; [# Title / ---] loses its rule and
    [## Title / ---] keeps it. *)
Theorem strip_hrs_drops_rule_iff_after_level1_heading :
  (forall md, _strip_hrs_after_headers md
              = join nl (strip_hr_lines (split_lines md)))
  /\ (forall lines,
        strip_hr_lines lines
        = map (item lines) (filter (kept lines) (seq 0 (List.length lines))))
  /\ (forall lines i,
        kept lines i = false <->
        is_hr (item lines i) = true /\ follows_level1_heading lines i)
  /\ (forall line,
        is_hr line = true <->
        In (strip line) ["---"; "***"; "___"]
        \/ (5 < String.length (strip line)
            /\ exists c, In c ["_"; "-"; "*"]%char /\ made_of c (strip line)))
  /\ (forall line,
        is_header_1 line = true <->
        exists rest, strip line = String "#" (String " " rest))
  /\ _strip_hrs_after_headers ("# Title" ++ nl ++ "---" ++ nl)%string
     = ("# Title" ++ nl)%string
  /\ _strip_hrs_after_headers ("## Title" ++ nl ++ "---" ++ nl)%string
     = ("## Title" ++ nl ++ "---" ++ nl)%string.
Proof.
  split; [reflexivity|].
  split; [exact strip_hr_lines_filter|].
  split; [exact kept_false_iff|].
  split; [exact is_hr_spec|].
  split; [exact is_header_1_spec|].
  split; reflexivity.
Qed.

End RuleRemovalClaims.

Section OriginalLookup.
Import PyStr Markdown.

Lemma item_app_l (A B : list string) i :
  i < List.length A -> item (A ++ B) i = item A i.
Proof. intros H. unfold item. now apply app_nth1. Qed.

Lemma item_app_r (A B : list string) k :
  item (A ++ B) (List.length A + k) = item B k.
Proof. unfold item. apply app_nth2_plus. Qed.

Lemma look_back_app_l A B n :
  n <= List.length A -> look_back (A ++ B) n = look_back A n.
Proof.
  induction n as [|n IH]; intros H; simpl; [reflexivity|].
  rewrite item_app_l by lia. rewrite IH by lia. reflexivity.
Qed.

Lemma kept_app_l A B i :
  i < List.length A -> kept (A ++ B) i = kept A i.
Proof.
  intros H. unfold kept, is_after_h1.
  rewrite item_app_l, look_back_app_l by lia.
  destruct (look_back A i) as [j|] eqn:E; [|reflexivity].
  apply look_back_some in E. destruct E as (Hj & _).
  rewrite item_app_l by lia. reflexivity.
Qed.

(** The lines of a prefix are decided as if the prefix stood alone. *)
Lemma strip_hr_lines_app A B :
  strip_hr_lines (A ++ B)
  = strip_hr_lines A
    ++ map (item (A ++ B))
           (filter (kept (A ++ B)) (seq (List.length A) (List.length B))).
Proof.
  rewrite !strip_hr_lines_filter, length_app, seq_app, filter_app, map_app.
  simpl. f_equal.
  rewrite (filter_ext_in (kept (A ++ B)) (kept A)).
  - apply map_ext_in. intros i Hi. apply filter_In in Hi as [Hi _].
    apply in_seq in Hi. apply item_app_l. lia.
  - intros i Hi. apply in_seq in Hi. apply kept_app_l. lia.
Qed.

(** Below a non-blank line, the backward scan never leaves the suffix that
    starts at that line. *)
Lemma look_back_below_nonblank A B n :
  is_blank (item B 0) = false ->
  look_back (A ++ B) (List.length A + S n)
  = option_map (Nat.add (List.length A)) (look_back B (S n)).
Proof.
  intros H0. induction n as [|n IH].
  - rewrite Nat.add_1_r. cbn [look_back].
    replace (List.length A) with (List.length A + 0) at 1 by lia.
    rewrite item_app_r, H0. simpl. f_equal. lia.
  - replace (List.length A + S (S n)) with (S (List.length A + S n)) by lia.
    cbn [look_back] in *. rewrite item_app_r.
    destruct (is_blank (item B (S n))); [exact IH|reflexivity].
Qed.

Lemma kept_below_nonblank A B n :
  is_blank (item B 0) = false ->
  kept (A ++ B) (List.length A + S n) = kept B (S n).
Proof.
  intros H0. unfold kept, is_after_h1.
  rewrite look_back_below_nonblank by assumption. rewrite item_app_r.
  destruct (look_back B (S n)) as [j|]; simpl; [|reflexivity].
  now rewrite item_app_r.
Qed.

Lemma suffix_from_nonblank A B :
  is_blank (item B 0) = false ->
  kept (A ++ B) (List.length A) = kept B 0 ->
  map (item (A ++ B))
      (filter (kept (A ++ B)) (seq (List.length A) (List.length B)))
  = strip_hr_lines B.
Proof.
  intros H0 Hk. rewrite strip_hr_lines_filter.
  assert (G : forall n a,
    map (item (A ++ B)) (filter (kept (A ++ B)) (seq (List.length A + a) n))
    = map (item B) (filter (kept B) (seq a n))).
  { induction n as [|n IH]; intros a; [reflexivity|].
    cbn [seq filter].
    replace (S (List.length A + a)) with (List.length A + S a) by lia.
    assert (E : kept (A ++ B) (List.length A + a) = kept B a).
    { destruct a as [|a]; [now rewrite Nat.add_0_r|].
      now apply kept_below_nonblank. }
    rewrite E. destruct (kept B a); cbn [map]; rewrite IH, ?item_app_r;
      reflexivity. }
  specialize (G (List.length B) 0). now rewrite Nat.add_0_r in G.
Qed.

Lemma header_1_not_rule h : is_header_1 h = true -> is_hr h = false.
Proof.
  intros H. apply is_header_1_spec in H as [rest E].
  unfold is_hr. rewrite E.
  change (mem (String "#" (String " " rest)) ["---"; "***"; "___"]) with false.
  cbv iota.
  destruct (Nat.ltb 5 (String.length (String "#" (String " " rest))));
    reflexivity.
Qed.

Lemma header_1_not_blank h : is_header_1 h = true -> is_blank h = false.
Proof.
  intros H. apply is_header_1_spec in H as [rest E].
  unfold is_blank. rewrite E. reflexivity.
Qed.

Lemma rule_not_blank r : is_hr r = true -> is_blank r = false.
Proof.
  intros H. apply is_hr_spec in H. unfold is_blank. cbv zeta in H.
  destruct (strip r) as [|c t]; [|reflexivity].
  destruct H as [H|[H _]]; simpl in H; [|lia].
  repeat (destruct H as [H|H]; [discriminate|]). destruct H.
Qed.

Lemma rule_not_header_1 r : is_hr r = true -> is_header_1 r = false.
Proof.
  intros H. destruct (is_header_1 r) eqn:E; [|reflexivity].
  apply header_1_not_rule in E. congruence.
Qed.

Lemma kept_first B : kept B 0 = true.
Proof. unfold kept, is_after_h1. simpl. now rewrite andb_false_r. Qed.

(** The decision for a line that directly follows the non-blank line [x]. *)
Lemma kept_after_nonblank A x y B :
  is_blank x = false ->
  kept (A ++ x :: y :: B) (S (List.length A))
  = negb (is_hr y && is_header_1 x).
Proof.
  intros Hx. unfold kept, is_after_h1. cbn [look_back].
  assert (Ex : item (A ++ x :: y :: B) (List.length A) = x).
  { replace (List.length A) with (List.length A + 0) by lia.
    now rewrite item_app_r. }
  assert (Ey : item (A ++ x :: y :: B) (S (List.length A)) = y).
  { replace (S (List.length A)) with (List.length A + 1) by lia.
    now rewrite item_app_r. }
  rewrite Ex, Ey, Hx, Ex, is_header_1_strip. reflexivity.
Qed.

Lemma second_rule_lines pre post h r1 r2 :
  is_header_1 h = true -> is_hr r1 = true -> is_hr r2 = true ->
  exists out_post,
    strip_hr_lines (r2 :: post) = r2 :: out_post
    /\ strip_hr_lines (pre ++ h :: r1 :: r2 :: post)
       = strip_hr_lines pre ++ h :: r2 :: out_post.
Proof.
  intros Hh H1 H2.
  assert (Hpost : exists out_post, strip_hr_lines (r2 :: post) = r2 :: out_post).
  { rewrite strip_hr_lines_filter. cbn [List.length seq filter].
    rewrite kept_first. cbn [map]. eauto. }
  destruct Hpost as [out_post Hpost]. exists out_post. split; [exact Hpost|].
  (* the part from the second rule on *)
  replace (pre ++ h :: r1 :: r2 :: post)
    with ((pre ++ [h; r1]) ++ r2 :: post) by (now rewrite <- app_assoc).
  rewrite strip_hr_lines_app, suffix_from_nonblank.
  - rewrite Hpost.
    (* the heading and the first rule *)
    rewrite strip_hr_lines_app. cbn [List.length seq filter].
    assert (Kh : kept (pre ++ [h; r1]) (List.length pre) = true).
    { unfold kept.
      replace (List.length pre) with (List.length pre + 0) at 1 by lia.
      rewrite item_app_r. cbn [item nth].
      now rewrite (header_1_not_rule h Hh). }
    assert (K1 : kept (pre ++ [h; r1]) (S (List.length pre)) = false).
    { rewrite kept_after_nonblank by now apply header_1_not_blank.
      now rewrite H1, Hh. }
    rewrite Kh, K1. cbn [map].
    replace (List.length pre) with (List.length pre + 0) at 1 by lia.
    rewrite item_app_r. cbn [item nth].
    rewrite <- !app_assoc. reflexivity.
  - now apply rule_not_blank.
  - rewrite kept_first.
    replace ((pre ++ [h; r1]) ++ r2 :: post)
      with ((pre ++ [h]) ++ r1 :: r2 :: post)
      by (now rewrite <- !app_assoc).
    replace (List.length (pre ++ [h; r1]))
      with (S (List.length (pre ++ [h])))
      by (rewrite !length_app; simpl; lia).
    rewrite kept_after_nonblank by now apply rule_not_blank.
    now rewrite (rule_not_header_1 r1 H1), andb_false_r.
Qed.

(** C6.  The backward lookup reads the original line sequence: in a text
    where a level-1 heading is followed immediately by two rule lines,
    the first rule line is removed and the second one is kept, whatever
    stands before and after; the lines before are treated as if they
    stood alone, and the lines after as if the second rule opened the
    text. *)
Theorem second_rule_after_heading_is_kept :
  forall (md : string) (pre post : list string) (h r1 r2 : string),
    split_lines md = pre ++ h :: r1 :: r2 :: post ->
    is_header_1 h = true -> is_hr r1 = true -> is_hr r2 = true ->
    exists out_post,
      strip_hr_lines (r2 :: post) = r2 :: out_post
      /\ _strip_hrs_after_headers md
         = join nl (strip_hr_lines pre ++ h :: r2 :: out_post).
Proof.
  intros md pre post h r1 r2 Hmd Hh H1 H2.
  destruct (second_rule_lines pre post h r1 r2 Hh H1 H2)
    as (out_post & Hpost & Hall).
  exists out_post. split; [exact Hpost|].
  unfold _strip_hrs_after_headers. now rewrite Hmd, Hall.
Qed.

(** The theorem at the text [# T / --- / ---] with a final line break. *)
Lemma second_rule_after_heading_is_kept_witness :
  _strip_hrs_after_headers ("# T" ++ nl ++ "---" ++ nl ++ "---" ++ nl)%string
  = ("# T" ++ nl ++ "---" ++ nl)%string.
Proof.
  destruct (second_rule_after_heading_is_kept
              ("# T" ++ nl ++ "---" ++ nl ++ "---" ++ nl)%string
              [] [""%string] "# T"%string "---"%string "---"%string
              eq_refl eq_refl eq_refl eq_refl) as (out_post & Hpost & H).
  injection Hpost as <-. exact H.
Defined.

End OriginalLookup.

Section CaptionStripping.
Import PyStr Markdown.
Local Open Scope string_scope.

Lemma strip_captions_unfold s :
  _strip_captions s
  = match s with
    | EmptyString => EmptyString
    | String c s' =>
        match match_image s with
        | Some (g, rest) => "![](" ++ g ++ ")" ++ _strip_captions rest
        | None => String c (_strip_captions s')
        end
    end.
Proof.
  apply (_strip_captions_elim
           (fun s r =>
              r = match s with
                  | EmptyString => EmptyString
                  | String c s' =>
                      match match_image s with
                      | Some (g, rest) =>
                          "![](" ++ g ++ ")" ++ _strip_captions rest
                      | None => String c (_strip_captions s')
                      end
                  end)).
  - reflexivity.
  - intros c s' g rest e _ _. rewrite e. reflexivity.
  - intros c s' e _ _. rewrite e. reflexivity.
Qed.

Lemma match_close_some s r :
  match_close s = Some r <->
  exists s', s = String "]" (String "(" s') /\ match_path s' = Some r.
Proof.
  unfold match_close. destruct s as [|a [|b s']].
  - split; [discriminate|]. intros (x & H & _). discriminate H.
  - split; [discriminate|]. intros (x & H & _). discriminate H.
  - destruct (Ascii.eqb_spec a "]"%char) as [->|Ha];
      destruct (Ascii.eqb_spec b "("%char) as [->|Hb]; simpl.
    + split; [eauto|]. intros (x & [= <-] & H). exact H.
    + split; [discriminate|]. intros (x & [= ->] & _). congruence.
    + split; [discriminate|]. intros (x & [= -> _] & _). congruence.
    + split; [discriminate|]. intros (x & [= -> _] & _). congruence.
Qed.

Lemma match_image_some s r :
  match_image s = Some r <->
  exists s', s = String "!" (String "[" s') /\ match_caption s' = Some r.
Proof.
  unfold match_image. destruct s as [|a [|b s']].
  - split; [discriminate|]. intros (x & H & _). discriminate H.
  - split; [discriminate|]. intros (x & H & _). discriminate H.
  - destruct (Ascii.eqb_spec a "!"%char) as [->|Ha];
      destruct (Ascii.eqb_spec b "["%char) as [->|Hb]; simpl.
    + split; [eauto|]. intros (x & [= <-] & H). exact H.
    + split; [discriminate|]. intros (x & [= ->] & _). congruence.
    + split; [discriminate|]. intros (x & [= -> _] & _). congruence.
    + split; [discriminate|]. intros (x & [= -> _] & _). congruence.
Qed.

Lemma match_caption_unfold s :
  match_caption s
  = match match_close s with
    | Some r => Some r
    | None =>
        match s with
        | EmptyString => None
        | String c s' => if Ascii.eqb c newline then None else match_caption s'
        end
    end.
Proof. destruct s; reflexivity. Qed.

Lemma closes_cons c s :
  closes (String c s) <->
  c = ")"%char \/ (c <> newline /\ closes s).
Proof.
  unfold closes. simpl.
  destruct (Ascii.eqb_spec c ")"%char) as [->|Hc].
  - split; [now left|discriminate].
  - destruct (Ascii.eqb_spec c newline) as [->|Hn].
    + split; [congruence|]. intros [H|[H _]]; congruence.
    + destruct (match_path s) as [[g r]|].
      * split; [|discriminate]. intros _. right. split; [assumption|discriminate].
      * split; [congruence|]. intros [H|[_ H]]; congruence.
Qed.

Lemma captioned_cons c s :
  captioned (String c s) <->
  (exists s', c = "]"%char /\ s = String "(" s' /\ closes s')
  \/ (c <> newline /\ captioned s).
Proof.
  unfold captioned. rewrite match_caption_unfold.
  destruct (match_close (String c s)) as [r|] eqn:E.
  - split; [intros _|discriminate]. left.
    apply match_close_some in E as (s' & [= -> ->] & H).
    exists s'. repeat split. unfold closes. congruence.
  - assert (N : ~ exists s', c = "]"%char /\ s = String "(" s' /\ closes s').
    { intros (s' & -> & -> & H). unfold closes in H.
      destruct (match_path s') as [r|] eqn:P; [|congruence].
      assert (match_close (String "]" (String "(" s')) = Some r)
        by (apply match_close_some; eauto).
      congruence. }
    destruct (Ascii.eqb_spec c newline) as [->|Hn].
    + split; [congruence|]. intros [H|[H _]]; [contradiction|congruence].
    + split; [now right|]. intros [H|[_ H]]; [contradiction|exact H].
Qed.

Lemma captioned_closes s : captioned s -> closes s.
Proof.
  induction s as [|c s IH]; [unfold captioned; simpl; congruence|].
  rewrite captioned_cons, closes_cons.
  intros [(s' & -> & -> & H)|[Hn H]].
  - right. split; [discriminate|]. apply closes_cons. right.
    split; [discriminate|assumption].
  - destruct (Ascii.eqb_spec c ")"%char); [now left|].
    right. split; [assumption|now apply IH].
Qed.

(** Where the pattern does not match, the character is copied. *)
Lemma strip_captions_copy c s :
  match_image (String c s) = None ->
  _strip_captions (String c s) = String c (_strip_captions s).
Proof. intros H. rewrite strip_captions_unfold, H. reflexivity. Qed.

Lemma match_image_other c s :
  c <> "!"%char -> match_image (String c s) = None.
Proof.
  intros H. unfold match_image. destruct s; [reflexivity|].
  destruct (Ascii.eqb_spec c "!"%char); [contradiction|reflexivity].
Qed.

(** The first character of the text survives. *)
Lemma strip_captions_head c s :
  exists u, _strip_captions (String c s) = String c u.
Proof.
  rewrite strip_captions_unfold.
  destruct (match_image (String c s)) as [[g rest]|] eqn:E; [|eauto].
  apply match_image_some in E as (s' & [= -> ->] & _).
  simpl. eauto.
Qed.

Lemma closes_strip_captions s : closes (_strip_captions s) -> closes s.
Proof.
  induction s as [|c s IH].
  - rewrite strip_captions_unfold. trivial.
  - destruct (match_image (String c s)) as [r|] eqn:E.
    + intros _. apply match_image_some in E as (s' & [= -> ->] & H).
      apply closes_cons. right. split; [discriminate|].
      apply closes_cons. right. split; [discriminate|].
      apply captioned_closes. unfold captioned. congruence.
    + rewrite strip_captions_copy by assumption.
      rewrite !closes_cons. intros [H|[Hn H]]; [now left|].
      right. split; [assumption|now apply IH].
Qed.

Lemma captioned_strip_captions s :
  captioned (_strip_captions s) -> captioned s.
Proof.
  induction s as [|c s IH].
  - rewrite strip_captions_unfold. trivial.
  - destruct (match_image (String c s)) as [r|] eqn:E.
    + intros _. apply match_image_some in E as (s' & [= -> ->] & H).
      apply captioned_cons. right. split; [discriminate|].
      apply captioned_cons. right. split; [discriminate|].
      unfold captioned. congruence.
    + rewrite strip_captions_copy by assumption.
      rewrite !captioned_cons.
      intros [(u & -> & Hu & Hc)|[Hn H]].
      * left. destruct s as [|b s'].
        { rewrite strip_captions_unfold in Hu. discriminate Hu. }
        destruct (strip_captions_head b s') as [v Hv].
        rewrite Hv in Hu. injection Hu as -> ->.
        rewrite strip_captions_copy in Hv
          by (apply match_image_other; discriminate).
        injection Hv as <-.
        exists s'. repeat split. now apply closes_strip_captions.
      * right. split; [assumption|now apply IH].
Qed.

(** The group the pattern captures ends at the first closing parenthesis
    of its line, so it is found again in front of any text. *)
Lemma match_path_again s g rest x :
  match_path s = Some (g, rest) ->
  match_path (g ++ String ")" x) = Some (g, x).
Proof.
  revert g rest. induction s as [|c s IH]; intros g rest; simpl; [discriminate|].
  destruct (Ascii.eqb c ")"%char) eqn:Hc.
  - intros [= <- <-]. reflexivity.
  - destruct (Ascii.eqb c newline) eqn:Hn; [discriminate|].
    destruct (match_path s) as [[g' r']|] eqn:E; [|discriminate].
    intros [= <- <-]. simpl. rewrite Hc, Hn.
    rewrite (IH g' r' eq_refl). reflexivity.
Qed.

Lemma match_caption_path s g rest :
  match_caption s = Some (g, rest) ->
  exists t, match_path t = Some (g, rest).
Proof.
  induction s as [|c s IH]; rewrite match_caption_unfold.
  - simpl. discriminate.
  - destruct (match_close (String c s)) as [r|] eqn:E.
    + intros [= ->]. apply match_close_some in E as (s' & _ & H). eauto.
    + destruct (Ascii.eqb c newline); [discriminate|exact IH].
Qed.

(** The replacement text is matched again, by itself. *)
Lemma match_image_replacement s g rest x :
  match_image s = Some (g, rest) ->
  match_image ("![](" ++ g ++ ")" ++ x) = Some (g, x).
Proof.
  intros H. apply match_image_some in H as (s' & _ & H).
  apply match_caption_path in H as (t & H).
  apply match_image_some. exists ("](" ++ g ++ ")" ++ x). split; [reflexivity|].
  rewrite match_caption_unfold.
  assert (E : match_close ("](" ++ g ++ ")" ++ x) = Some (g, x)).
  { apply match_close_some. exists (g ++ ")" ++ x). split; [reflexivity|].
    now apply match_path_again with (s := t) (rest := rest). }
  now rewrite E.
Qed.

Lemma strip_captions_idempotent s :
  _strip_captions (_strip_captions s) = _strip_captions s.
Proof.
  apply (_strip_captions_elim
           (fun s r => _strip_captions r = r)).
  - reflexivity.
  - intros c s' g rest e IH _.
    rewrite strip_captions_unfold.
    change ("![](" ++ g ++ ")" ++ _strip_captions rest)
      with (String "!" ("[](" ++ g ++ ")" ++ _strip_captions rest)) at 1 2.
    change (String "!" ("[](" ++ g ++ ")" ++ _strip_captions rest))
      with ("![](" ++ g ++ ")" ++ _strip_captions rest).
    rewrite (match_image_replacement _ _ _ (_strip_captions rest) e).
    now rewrite IH.
  - intros c s' e IH _.
    rewrite strip_captions_copy; [now rewrite IH|].
    destruct (Ascii.eqb_spec c "!"%char) as [->|Hc];
      [|now apply match_image_other].
    destruct s' as [|b s''].
    { rewrite strip_captions_unfold. reflexivity. }
    destruct (Ascii.eqb_spec b "["%char) as [->|Hb].
    + rewrite strip_captions_copy by (apply match_image_other; discriminate).
      destruct (match_image (String "!" (String "[" (_strip_captions s''))))
        as [r|] eqn:E; [|reflexivity].
      apply match_image_some in E as (u & [= <-] & H).
      assert (C : captioned s'')
        by (apply captioned_strip_captions; unfold captioned; congruence).
      unfold captioned in C. simpl in e.
      congruence.
    + destruct (strip_captions_head b s'') as [v ->].
      unfold match_image.
      destruct (Ascii.eqb_spec b "["%char); [contradiction|].
      now rewrite andb_false_r.
Qed.

End CaptionStripping.

Section CaptionClaims.
Import PyStr Markdown.
Local Open Scope string_scope.

Lemma contains_cons sub c s :
  contains sub (String c s) = false ->
  startswith sub (String c s) = false /\ contains sub s = false.
Proof. simpl. intros H. now apply orb_false_iff in H. Qed.

Lemma contains_char_cons a c s :
  contains (String a EmptyString) (String c s) = false ->
  c <> a /\ contains (String a EmptyString) s = false.
Proof.
  intros H. apply contains_cons in H as [H1 H2]. split; [|assumption].
  simpl in H1. rewrite andb_true_r in H1. now apply Ascii.eqb_neq.
Qed.

(** A path without [)] and line break is what the group captures. *)
Lemma match_path_exact path post :
  contains ")" path = false -> contains nl path = false ->
  match_path (path ++ ")" ++ post) = Some (path, post).
Proof.
  induction path as [|c path IH]; intros Hp Hn.
  - reflexivity.
  - apply contains_char_cons in Hp as [Hc Hp].
    apply contains_char_cons in Hn as [Hc' Hn].
    cbn [append match_path].
    destruct (Ascii.eqb_spec c ")"%char); [contradiction|].
    destruct (Ascii.eqb_spec c newline); [contradiction|].
    change (path ++ String ")" post) with (path ++ ")" ++ post).
    now rewrite IH.
Qed.

Lemma match_caption_exact cap path post :
  contains nl cap = false -> contains "](" cap = false ->
  contains ")" path = false -> contains nl path = false ->
  match_caption (cap ++ "](" ++ path ++ ")" ++ post) = Some (path, post).
Proof.
  intros Hn Hb Hp Hpn. induction cap as [|c cap IH].
  - rewrite match_caption_unfold.
    assert (E : match_close ("" ++ "](" ++ path ++ ")" ++ post)
                = Some (path, post)).
    { apply match_close_some. exists (path ++ ")" ++ post).
      split; [reflexivity|]. now apply match_path_exact. }
    now rewrite E.
  - apply contains_char_cons in Hn as [Hc Hn].
    apply contains_cons in Hb as [Hs Hb].
    rewrite match_caption_unfold.
    assert (E : match_close (String c cap ++ "](" ++ path ++ ")" ++ post)
                = None).
    { destruct (match_close _) as [r|] eqn:E; [|reflexivity].
      apply match_close_some in E as (x & E & _).
      destruct cap as [|b cap]; simpl in E.
      - discriminate E.
      - injection E as -> -> _. simpl in Hs. discriminate Hs. }
    rewrite E. cbn [append].
    destruct (Ascii.eqb_spec c newline); [contradiction|].
    now apply IH.
Qed.

(** Text without [![] in front of an exclamation mark is copied. *)
Lemma strip_captions_prefix pre y :
  contains "![" pre = false ->
  _strip_captions (pre ++ String "!" y) = pre ++ _strip_captions (String "!" y).
Proof.
  induction pre as [|c pre IH]; intros H; [reflexivity|].
  apply contains_cons in H as [Hs H].
  cbn [append]. rewrite strip_captions_copy; [now rewrite IH|].
  destruct (match_image _) as [r|] eqn:E; [|reflexivity].
  apply match_image_some in E as (x & E & _).
  destruct pre as [|b pre]; simpl in E.
  - discriminate E.
  - injection E as -> -> _. simpl in Hs. discriminate Hs.
Qed.

Lemma strip_captions_reference pre cap path post :
  contains "![" pre = false ->
  contains nl cap = false -> contains "](" cap = false ->
  contains ")" path = false -> contains nl path = false ->
  _strip_captions (pre ++ "![" ++ cap ++ "](" ++ path ++ ")" ++ post)
  = pre ++ "![](" ++ path ++ ")" ++ _strip_captions post.
Proof.
  intros Hpre Hn Hb Hp Hpn.
  change ("![" ++ cap ++ "](" ++ path ++ ")" ++ post)
    with (String "!" ("[" ++ cap ++ "](" ++ path ++ ")" ++ post)).
  rewrite strip_captions_prefix by assumption. f_equal.
  rewrite strip_captions_unfold.
  assert (E : match_image
                (String "!" ("[" ++ cap ++ "](" ++ path ++ ")" ++ post))
              = Some (path, post)).
  { apply match_image_some. eexists. split; [reflexivity|].
    now apply match_caption_exact. }
  now rewrite E.
Qed.

(** C9, as the claim states it, fails: the image reference below, whose
    caption runs over a line break, keeps its caption, since [.] matches
    no line break. *)
Lemma strip_captions_keeps_multiline_caption :
  _strip_captions ("![a" ++ nl ++ "b](x.png)") = "![a" ++ nl ++ "b](x.png)"
  /\ _strip_captions ("![a" ++ nl ++ "b](x.png)") <> "![](x.png)".
Proof. split; [reflexivity|discriminate]. Qed.

End CaptionClaims.

(* ===================================================================== *)
(** * Properties of the HTML table transcoder *)
(* ===================================================================== *)

Section Transcoder.
Import PyStr HtmlTable.





End Transcoder.

(* ===================================================================== *)
(** * Properties of the cleanup pass *)
(* ===================================================================== *)

Section Cleanup.
Import PyStr Docx.

Lemma number_from_app a X Y :
  number_from a (X ++ Y)
  = number_from a X ++ number_from (a + List.length X) Y.
Proof.
  revert a. induction X as [|x X IH]; intros a.
  - simpl. now rewrite Nat.add_0_r.
  - unfold number_from in *. cbn [List.length app seq combine].
    rewrite IH.
    replace (a + S (List.length X)) with (S a + List.length X) by lia.
    reflexivity.
Qed.

Lemma number_from_handles a body :
  Forall (fun nd : Node => a <= fst nd < a + List.length body)
         (number_from a body).
Proof.
  revert a. induction body as [|b body IH]; intros a; [constructor|].
  unfold number_from in *. cbn [List.length seq combine].
  constructor; [simpl; lia|].
  eapply Forall_impl; [|apply IH]. simpl. intros nd. lia.
Qed.

Lemma node_paragraphs_app X Y :
  node_paragraphs (X ++ Y) = node_paragraphs X ++ node_paragraphs Y.
Proof.
  induction X as [|[h b] X IH]; [reflexivity|].
  destruct b; simpl; now rewrite IH.
Qed.

Lemma node_paragraphs_in h p X :
  In (h, p) (node_paragraphs X) -> In (h, BPara p) X.
Proof.
  induction X as [|[h' b] X IH]; [trivial|].
  destruct b; simpl; try (intros H; right; now apply IH).
  intros [[= -> ->]|H]; [now left|right; now apply IH].
Qed.

Lemma node_paragraphs_snd a body :
  map snd (node_paragraphs (number_from a body)) = paragraphs body.
Proof.
  revert a. induction body as [|b body IH]; intros a; [reflexivity|].
  unfold number_from in *. cbn [List.length seq combine].
  destruct b; simpl; now rewrite IH.
Qed.

Lemma paragraphs_app X Y : paragraphs (X ++ Y) = paragraphs X ++ paragraphs Y.
Proof.
  induction X as [|b X IH]; [reflexivity|].
  destruct b; simpl; now rewrite IH.
Qed.

Lemma remove_node_absent h (X : list Node) :
  Forall (fun nd => fst nd <> h) X -> remove_node h X = X.
Proof.
  unfold remove_node. induction 1 as [|nd X Hnd _ IH]; [reflexivity|].
  simpl. destruct (Nat.eqb_spec (fst nd) h); [contradiction|].
  simpl. now rewrite IH.
Qed.

Lemma remove_node_last h b (X : list Node) :
  Forall (fun nd => fst nd <> h) X -> remove_node h (X ++ [(h, b)]) = X.
Proof.
  unfold remove_node. induction 1 as [|nd X Hnd _ IH]; simpl.
  - now rewrite Nat.eqb_refl.
  - destruct (Nat.eqb_spec (fst nd) h); [contradiction|].
    simpl. now rewrite IH.
Qed.

Lemma prev_nonblank_lt ps n j : prev_nonblank ps n = Some j -> j < n.
Proof.
  induction n as [|n IH]; simpl; [discriminate|].
  destruct (nth_error ps n) as [p|]; [|discriminate].
  destruct (is_blank p).
  - intros H. specialize (IH H). lia.
  - intros [= <-]. lia.
Qed.

Lemma prev_nonblank_app ps qs n :
  n <= List.length ps -> prev_nonblank (ps ++ qs) n = prev_nonblank ps n.
Proof.
  induction n as [|n IH]; intros H; simpl; [reflexivity|].
  rewrite nth_error_app1 by lia. rewrite IH by lia. reflexivity.
Qed.

(** Whether a paragraph goes depends on the paragraphs up to it only. *)
Lemma removes_app ps qs i :
  i < List.length ps -> removes (ps ++ qs) i = removes ps i.
Proof.
  intros H. unfold removes.
  rewrite nth_error_app1, prev_nonblank_app by lia.
  destruct (nth_error ps i) as [p|]; [|reflexivity].
  destruct (is_rule p); [|reflexivity].
  destruct (prev_nonblank ps i) as [j|] eqn:E; [|reflexivity].
  apply prev_nonblank_lt in E. rewrite nth_error_app1 by lia. reflexivity.
Qed.

Lemma cleanup_loop_prefix P Q n X :
  n <= List.length P -> cleanup_loop (P ++ Q) n X = cleanup_loop P n X.
Proof.
  revert X. induction n as [|n IH]; intros X H; [reflexivity|].
  cbn [cleanup_loop]. rewrite IH by lia. f_equal.
  unfold cleanup_step. rewrite nth_error_app1 by lia.
  rewrite map_app, removes_app by (rewrite length_map; lia). reflexivity.
Qed.

Lemma cleanup_step_snoc P i X nd :
  Forall (fun hp : nat * Paragraph => fst hp <> fst nd) P ->
  cleanup_step P i (X ++ [nd]) = cleanup_step P i X ++ [nd].
Proof.
  intros H. unfold cleanup_step.
  destruct (nth_error P i) as [[h p]|] eqn:E; [|reflexivity].
  destruct (removes (map snd P) i); [|reflexivity].
  unfold remove_node. rewrite filter_app. simpl.
  apply nth_error_In in E. rewrite Forall_forall in H.
  specialize (H _ E). simpl in H.
  destruct (Nat.eqb_spec (fst nd) h); [congruence|reflexivity].
Qed.

Lemma cleanup_loop_snoc P n X nd :
  Forall (fun hp : nat * Paragraph => fst hp <> fst nd) P ->
  cleanup_loop P n (X ++ [nd]) = cleanup_loop P n X ++ [nd].
Proof.
  intros H. revert X. induction n as [|n IH]; intros X; [reflexivity|].
  cbn [cleanup_loop]. now rewrite cleanup_step_snoc, IH.
Qed.

Lemma drop_paragraphs_app d k X Y :
  drop_paragraphs d k (X ++ Y)
  = drop_paragraphs d k X
    ++ drop_paragraphs d (k + List.length (paragraphs X)) Y.
Proof.
  revert k. induction X as [|b X IH]; intros k.
  - simpl. now rewrite Nat.add_0_r.
  - destruct b; simpl; rewrite IH; try reflexivity.
    rewrite <- app_assoc. do 3 f_equal. lia.
Qed.

Lemma drop_paragraphs_ext d d' k X :
  (forall i, i < k + List.length (paragraphs X) -> d i = d' i) ->
  drop_paragraphs d k X = drop_paragraphs d' k X.
Proof.
  revert k. induction X as [|b X IH]; intros k H; [reflexivity|].
  destruct b; simpl in *; try (f_equal; now apply IH).
  rewrite (H k) by lia. f_equal. apply IH. intros i Hi. apply H. lia.
Qed.

Lemma proxies_below (body : Body) :
  Forall (fun hp : nat * Paragraph => fst hp <> List.length body)
         (node_paragraphs (number_from 0 body)).
Proof.
  apply Forall_forall. intros [h p] Hin. apply node_paragraphs_in in Hin.
  pose proof (number_from_handles 0 body) as F.
  rewrite Forall_forall in F. specialize (F _ Hin). simpl in *. lia.
Qed.

Lemma nodes_below (body : Body) :
  Forall (fun nd : Node => fst nd <> List.length body) (number_from 0 body).
Proof.
  eapply Forall_impl; [|apply number_from_handles]. simpl. intros nd. lia.
Qed.

(** The cleanup loop is the filter that drops the marked paragraphs. *)
Lemma cleanup_drop_paragraphs body :
  cleanup body = drop_paragraphs (removes (paragraphs body)) 0 body.
Proof.
  unfold cleanup, number. fold (number_from 0 body).
  induction body as [|b body IH] using rev_ind; [reflexivity|].
  rewrite number_from_app, node_paragraphs_app, drop_paragraphs_app.
  rewrite paragraphs_app. cbn [Nat.add].
  set (P := node_paragraphs (number_from 0 body)) in *.
  set (ps := paragraphs body) in *.
  assert (Eps : map snd P = ps) by apply node_paragraphs_snd.
  assert (Elen : List.length P = List.length ps)
    by (now rewrite <- Eps, length_map).
  assert (Hext : drop_paragraphs (removes (ps ++ paragraphs [b])) 0 body
                 = drop_paragraphs (removes ps) 0 body).
  { apply drop_paragraphs_ext. intros i Hi. apply removes_app. exact Hi. }
  rewrite Hext, <- IH.
  change (number_from (List.length body) [b]) with [(List.length body, b)].
  destruct b as [p| | |]; cbn [node_paragraphs paragraphs drop_paragraphs].
  - (* the last block is a paragraph: it is visited first *)
    rewrite length_app. cbn [List.length]. rewrite Nat.add_1_r.
    cbn [cleanup_loop].
    assert (Estep :
      cleanup_step (P ++ [(List.length body, p)]) (List.length P)
                   (number_from 0 body ++ [(List.length body, BPara p)])
      = if removes (ps ++ [p]) (List.length ps)
        then number_from 0 body
        else number_from 0 body ++ [(List.length body, BPara p)]).
    { unfold cleanup_step.
      rewrite nth_error_app2, Nat.sub_diag by lia. cbn [nth_error].
      rewrite map_app, Eps. cbn [map snd]. rewrite Elen.
      destruct (removes (ps ++ [p]) (List.length ps)); [|reflexivity].
      apply remove_node_last, nodes_below. }
    rewrite Estep, cleanup_loop_prefix by lia.
    destruct (removes (ps ++ [p]) (List.length ps)).
    + now rewrite app_nil_r.
    + rewrite cleanup_loop_snoc by apply proxies_below.
      now rewrite map_app.
  - rewrite !app_nil_r.
    rewrite cleanup_loop_snoc by apply proxies_below. now rewrite map_app.
  - rewrite !app_nil_r.
    rewrite cleanup_loop_snoc by apply proxies_below. now rewrite map_app.
  - rewrite !app_nil_r.
    rewrite cleanup_loop_snoc by apply proxies_below. now rewrite map_app.
Qed.

Lemma prev_nonblank_spec ps n j :
  prev_nonblank ps n = Some j <-> nearest_nonblank_before ps n j.
Proof.
  unfold nearest_nonblank_before. induction n as [|n IH]; simpl.
  - split; [discriminate|]. intros [H _]. lia.
  - destruct (nth_error ps n) as [p|] eqn:E.
    + destruct (is_blank p) eqn:Hb.
      * rewrite IH. split.
        -- intros (Hlt & Hj & Hk). repeat split; [lia|assumption|].
           intros k Hk'. destruct (Nat.eq_dec k n) as [->|]; [eauto|].
           apply Hk. lia.
        -- intros (Hlt & (q & Hq & Hqb) & Hk).
           assert (j <> n) by (intros ->; congruence).
           repeat split; [lia|eauto|]. intros k Hk'. apply Hk. lia.
      * split.
        -- intros [= <-]. repeat split; [lia|eauto|]. intros k Hk. lia.
        -- intros (Hlt & _ & Hk).
           destruct (Nat.eq_dec j n) as [->|]; [reflexivity|].
           destruct (Hk n) as (r & Hr & Hrb); [lia|]. congruence.
    + split; [discriminate|].
      intros (Hlt & (q & Hq & _) & Hk).
      destruct (Nat.eq_dec j n) as [->|]; [congruence|].
      destruct (Hk n) as (r & Hr & _); [lia|]. congruence.
Qed.

Lemma removes_spec ps i :
  removes ps i = true <->
  exists p j q,
    nth_error ps i = Some p /\ is_rule p = true
    /\ nearest_nonblank_before ps i j
    /\ nth_error ps j = Some q /\ style_name q = "Heading 1"%string.
Proof.
  unfold removes. split.
  - destruct (nth_error ps i) as [p|]; [|discriminate].
    destruct (is_rule p) eqn:Hr; [|discriminate].
    destruct (prev_nonblank ps i) as [j|] eqn:E; [|discriminate].
    destruct (nth_error ps j) as [q|] eqn:Eq; [|discriminate].
    intros H. apply String.eqb_eq in H.
    exists p, j, q. repeat split; try assumption.
    all: now apply prev_nonblank_spec in E; destruct E as (? & ? & ?).
  - intros (p & j & q & -> & -> & Hn & Hq & Hs).
    apply prev_nonblank_spec in Hn. rewrite Hn, Hq.
    now apply String.eqb_eq.
Qed.

Lemma is_rule_spec p :
  is_rule p = true <->
  pBdr (pPr p) <> []
  \/ In (strip (text p)) ["---"; "***"; "___"]%string
  \/ (5 < String.length (strip (text p))
      /\ Markdown.made_of "_" (strip (text p))).
Proof.
  unfold is_rule. cbv zeta. generalize (strip (text p)). intros t.
  assert (Hm : mem t ["---"; "***"; "___"]%string = true
               <-> In t ["---"; "***"; "___"]%string).
  { unfold mem. rewrite existsb_exists. split.
    - intros (x & Hx & E). apply String.eqb_eq in E. now subst.
    - intros H. exists t. split; [assumption|apply String.eqb_refl]. }
  assert (Hu : Nat.ltb 5 (String.length t) && set_is "_" t = true
               <-> 5 < String.length t /\ Markdown.made_of "_" t).
  { rewrite andb_true_iff, Nat.ltb_lt, set_is_made_of. split; [tauto|].
    intros [H1 H2]. repeat split; try assumption.
    intros ->. simpl in H1. lia. }
  destruct (mem t ["---"; "***"; "___"]%string
            || Nat.ltb 5 (String.length t) && set_is "_" t) eqn:E.
  - apply orb_true_iff in E. split; [|reflexivity]. intros _. right. tauto.
  - apply orb_false_iff in E as [E1 E2].
    destruct (pBdr (pPr p)) as [|x l].
    + split; [discriminate|].
      intros [H|[H|H]]; [congruence| |].
      * apply Hm in H. congruence.
      * apply Hu in H. congruence.
    + split; [|reflexivity]. intros _. left. discriminate.
Qed.

Lemma tables_drop_paragraphs d k body :
  tables (drop_paragraphs d k body) = tables body.
Proof.
  revert k. induction body as [|b body IH]; intros k; [reflexivity|].
  destruct b; simpl; try now rewrite IH.
  destruct (d k); simpl; apply IH.
Qed.

(** C2.  The cleanup pass returns the body without the removed
    paragraphs, every other block unchanged and in order; a paragraph is
    removed exactly when it is a decorative rule (a border property, or
    the trimmed text [---], [***], [___], or more than five characters
    that are all underscores) and the nearest preceding non-blank
    paragraph has the style [Heading 1]; the tables stay. *)
Theorem cleanup_deletes_only_rules_after_heading_1 (body : Body) :
  cleanup body = drop_paragraphs (removes (paragraphs body)) 0 body
  /\ (forall i,
        removes (paragraphs body) i = true <->
        exists p j q,
          nth_error (paragraphs body) i = Some p /\ is_rule p = true
          /\ nearest_nonblank_before (paragraphs body) i j
          /\ nth_error (paragraphs body) j = Some q
          /\ style_name q = "Heading 1"%string)
  /\ (forall p,
        is_rule p = true <->
        pBdr (pPr p) <> []
        \/ In (strip (text p)) ["---"; "***"; "___"]%string
        \/ (5 < String.length (strip (text p))
            /\ Markdown.made_of "_" (strip (text p))))
  /\ tables (cleanup body) = tables body.
Proof.
  split; [apply cleanup_drop_paragraphs|].
  split; [intros i; apply removes_spec|].
  split; [exact is_rule_spec|].
  rewrite cleanup_drop_paragraphs. apply tables_drop_paragraphs.
Qed.

End Cleanup.

(* ===================================================================== *)
(** * Properties of the styling pass *)
(* ===================================================================== *)

Section StylingLoop.
Import PyStr Docx.

Lemma alter_nth_length {A} i (f : A -> A) l :
  List.length (alter_nth i f l) = List.length l.
Proof.
  revert i. induction l as [|x l IH]; intros [|i]; simpl; auto.
Qed.

Lemma nth_error_alter_nth {A} i (f : A -> A) l j :
  nth_error (alter_nth i f l) j
  = if Nat.eqb j i then option_map f (nth_error l j) else nth_error l j.
Proof.
  revert i j. induction l as [|x l IH]; intros i j.
  - destruct i, j; simpl; try reflexivity; now destruct (Nat.eqb _ _).
  - destruct i as [|i], j as [|j]; simpl; try reflexivity. apply IH.
Qed.

Lemma alter_nth_map {A B} (g : A -> B) i (f : A -> A) l :
  (forall x, g (f x) = g x) -> map g (alter_nth i f l) = map g l.
Proof.
  intros H. revert i. induction l as [|x l IH]; intros [|i]; simpl;
    rewrite ?H, ?IH; reflexivity.
Qed.

Lemma paragraphs_update i f body :
  paragraphs (update_paragraph i f body) = alter_nth i f (paragraphs body).
Proof.
  revert i. induction body as [|b body IH]; intros i; [now destruct i|].
  destruct b; simpl; try apply IH.
  destruct i; simpl; [reflexivity|]. now rewrite IH.
Qed.

Lemma paragraphs_toc body : paragraphs (toc_heading_style body) = paragraphs body.
Proof.
  induction body as [|b body IH]; [reflexivity|].
  destruct b; simpl; now rewrite IH.
Qed.

Lemma toc_update i f body :
  toc_heading_style (update_paragraph i f body)
  = update_paragraph i f (toc_heading_style body).
Proof.
  revert i. induction body as [|b body IH]; intros i; [reflexivity|].
  destruct b; simpl; try (now rewrite IH).
  destruct i; simpl; [reflexivity|]. now rewrite IH.
Qed.

Lemma update_update i f g body :
  update_paragraph i g (update_paragraph i f body)
  = update_paragraph i (fun p => g (f p)) body.
Proof.
  revert i. induction body as [|b body IH]; intros i; [reflexivity|].
  destruct b; simpl; try (now rewrite IH).
  destruct i; simpl; [reflexivity|]. now rewrite IH.
Qed.

Lemma update_ext_at i f g body p :
  nth_error (paragraphs body) i = Some p -> f p = g p ->
  update_paragraph i f body = update_paragraph i g body.
Proof.
  revert i. induction body as [|b body IH]; intros i; [reflexivity|].
  destruct b; simpl; try (intros H E; f_equal; now apply IH).
  destruct i; simpl.
  - intros [= ->] E. now rewrite E.
  - intros H E. f_equal. now apply IH.
Qed.

Lemma update_out_of_range i f body :
  nth_error (paragraphs body) i = None -> update_paragraph i f body = body.
Proof.
  revert i. induction body as [|b body IH]; intros i; [reflexivity|].
  destruct b; simpl; try (intros H; f_equal; now apply IH).
  destruct i; simpl; [discriminate|]. intros H. f_equal. now apply IH.
Qed.

(** One turn of the loop restyles its paragraph and styles the
    table-of-contents heading. *)
Lemma styling_turn_paragraph_turn cfg body i :
  i < List.length (paragraphs body) ->
  styling_turn cfg body i = toc_heading_style (paragraph_turn cfg body i).
Proof.
  intros Hi. unfold styling_turn, paragraph_turn.
  destruct (nth_error (paragraphs body) i) as [p|] eqn:E.
  2:{ apply nth_error_None in E. lia. }
  destruct (style_head cfg (paragraphs body) i (classify p) p)
    as [p1 is_caption] eqn:Eh.
  rewrite toc_update, update_update, <- toc_update. f_equal.
  apply update_ext_at with (p := p); [assumption|].
  unfold style_paragraph. now rewrite Eh.
Qed.

Lemma styling_turn_out_of_range cfg body i :
  List.length (paragraphs body) <= i -> styling_turn cfg body i = body.
Proof.
  intros Hi. unfold styling_turn.
  now rewrite (proj2 (nth_error_None (paragraphs body) i) Hi).
Qed.

Lemma paragraphs_paragraph_turn cfg body i :
  paragraphs (paragraph_turn cfg body i)
  = alter_nth i (style_paragraph cfg (paragraphs body) i) (paragraphs body).
Proof. unfold paragraph_turn. apply paragraphs_update. Qed.

Lemma paragraph_turn_toc cfg body i :
  paragraph_turn cfg (toc_heading_style body) i
  = toc_heading_style (paragraph_turn cfg body i).
Proof. unfold paragraph_turn. now rewrite paragraphs_toc, toc_update. Qed.

(** *** The heading styling is idempotent *)

Lemma set_attr_idempotent k v a :
  set_attr k v (set_attr k v a) = set_attr k v a.
Proof.
  induction a as [|[k' v'] a IH]; simpl.
  - now rewrite String.eqb_refl.
  - destruct (String.eqb k k') eqn:E; simpl.
    + now rewrite String.eqb_refl.
    + now rewrite E, IH.
Qed.

Lemma get_set_attr k v a : get_attr k (set_attr k v a) = Some v.
Proof.
  induction a as [|[k' v'] a IH]; simpl.
  - now rewrite String.eqb_refl.
  - destruct (String.eqb k k') eqn:E; simpl.
    + now rewrite String.eqb_refl.
    + now rewrite E.
Qed.

Lemma toc_run_idempotent r : toc_run (toc_run r) = toc_run r.
Proof.
  unfold toc_run. simpl. now rewrite !set_attr_idempotent.
Qed.

Lemma toc_paragraph_idempotent p :
  toc_paragraph (toc_paragraph p) = toc_paragraph p.
Proof.
  unfold toc_paragraph.
  destruct (xp_pPr p) as [ppr|] eqn:E1; [|now rewrite E1].
  destruct (pStyle ppr) as [st|] eqn:E2; [|now rewrite E1, E2].
  destruct (get_attr "w:val" st) as [v|] eqn:E3; [|now rewrite E1, E2, E3].
  destruct (String.eqb v "TOCHeading") eqn:E4; [|now rewrite E1, E2, E3, E4].
  cbn [xp_pPr pStyle spacing pPr_rest xp_runs or_empty].
  rewrite E3, E4, set_attr_idempotent, map_map.
  f_equal. apply map_ext. intros r. apply toc_run_idempotent.
Qed.

Lemma toc_sdt_idempotent s : toc_sdt (toc_sdt s) = toc_sdt s.
Proof.
  unfold toc_sdt. destruct (sdtContent s) as [cs|] eqn:E; [|now rewrite E].
  cbn [sdtContent]. rewrite map_map. do 2 f_equal.
  apply map_ext. intros [p|t]; [|reflexivity].
  now rewrite toc_paragraph_idempotent.
Qed.

Lemma toc_heading_style_idempotent body :
  toc_heading_style (toc_heading_style body) = toc_heading_style body.
Proof.
  unfold toc_heading_style. rewrite map_map. apply map_ext.
  intros [p|t|s|x]; try reflexivity. now rewrite toc_sdt_idempotent.
Qed.

Lemma styling_fold_toc cfg l : forall body,
  Forall (fun i => i < List.length (paragraphs body)) l ->
  fold_left (styling_turn cfg) l (toc_heading_style body)
  = toc_heading_style (fold_left (paragraph_turn cfg) l body).
Proof.
  induction l as [|i l IH]; intros body H; [reflexivity|].
  inversion H as [|? ? Hi Hl]; subst. cbn [fold_left].
  rewrite styling_turn_paragraph_turn by (now rewrite paragraphs_toc).
  rewrite paragraph_turn_toc, toc_heading_style_idempotent.
  apply IH. rewrite paragraphs_paragraph_turn, alter_nth_length. exact Hl.
Qed.

Lemma styling_once_with_paragraphs cfg body :
  paragraphs body <> [] -> styling cfg body = styling_spec cfg body.
Proof.
  intros Hne. unfold styling, styling_spec.
  destruct (paragraphs body) as [|p ps] eqn:E; [congruence|].
  cbn [List.length seq fold_left].
  rewrite styling_turn_paragraph_turn by (rewrite E; simpl; lia).
  apply styling_fold_toc.
  rewrite paragraphs_paragraph_turn, alter_nth_length, E.
  apply Forall_forall. intros i Hi. apply in_seq in Hi. simpl. lia.
Qed.

End StylingLoop.

Section StylingParagraphs.
Import PyStr Docx.

Lemma key_with_runs f p : key (with_runs f p) = key p.
Proof. reflexivity. Qed.

Lemma key_with_format f p : key (with_format f p) = key p.
Proof. reflexivity. Qed.

Lemma key_set_line_spacing_rule v p : key (set_line_spacing_rule v p) = key p.
Proof. destruct v; reflexivity. Qed.

Lemma key_set_line_spacing_length v p :
  key (set_line_spacing_length v p) = key p.
Proof.
  unfold set_line_spacing_length.
  destruct (spacing_lineRule (format p)) as [[]|]; reflexivity.
Qed.

Lemma key_base_spacing p : key (base_spacing p) = key p.
Proof.
  unfold base_spacing. destruct (negb (has_image p) && negb (has_math p)).
  - now rewrite key_set_line_spacing_length, key_set_line_spacing_rule.
  - reflexivity.
Qed.

Lemma key_caption_step cfg ps i t p :
  key (fst (caption_step cfg ps i t p)) = key p.
Proof.
  unfold caption_step. destruct (Markdown.is_figure t); [|reflexivity].
  destruct (prev_para ps i) as [prev|]; [|reflexivity].
  destruct (has_image prev); reflexivity.
Qed.

Lemma key_heading_step s p : key (heading_step s p) = key p.
Proof. unfold heading_step. destruct (is_heading_style s); reflexivity. Qed.

Lemma key_style_head cfg ps i fl p :
  key (fst (style_head cfg ps i fl p)) = key p.
Proof.
  unfold style_head.
  pose proof (key_caption_step cfg ps i (f_text fl) (base_spacing p)) as H.
  destruct (caption_step cfg ps i (f_text fl) (base_spacing p)) as [q c].
  cbn [fst] in *. now rewrite key_heading_step, H, key_base_spacing.
Qed.

Lemma key_code_step ps i p : key (code_step ps i p) = key p.
Proof. reflexivity. Qed.

Lemma key_list_step p : key (list_step p) = key p.
Proof. reflexivity. Qed.

Lemma key_alignment_step cfg c h p : key (alignment_step cfg c h p) = key p.
Proof.
  unfold alignment_step. destruct c; [reflexivity|].
  destruct h; [reflexivity|].
  destruct (String.eqb (text_align cfg) "justify"); reflexivity.
Qed.

Lemma key_style_tail cfg ps i fl c p :
  key (style_tail cfg ps i fl c p) = key p.
Proof.
  unfold style_tail. rewrite key_with_runs, key_alignment_step.
  destruct (is_code fl), (is_list fl);
    rewrite ?key_list_step, ?key_code_step; reflexivity.
Qed.

Lemma key_style_paragraph cfg ps i p :
  key (style_paragraph cfg ps i p) = key p.
Proof.
  unfold style_paragraph.
  pose proof (key_style_head cfg ps i (classify p) p) as H.
  destruct (style_head cfg ps i (classify p) p) as [q c].
  cbn [fst] in H. now rewrite key_style_tail.
Qed.

Lemma nth_error_key ps ps' k :
  map key ps = map key ps' ->
  option_map key (nth_error ps k) = option_map key (nth_error ps' k).
Proof. intros H. now rewrite <- !nth_error_map, H. Qed.

Lemma has_image_key p q : key p = key q -> has_image p = has_image q.
Proof. unfold key, has_image. now intros [= _ -> _]. Qed.

Lemma caption_step_key cfg ps ps' i t p :
  map key ps = map key ps' ->
  caption_step cfg ps i t p = caption_step cfg ps' i t p.
Proof.
  intros H. unfold caption_step, prev_para.
  destruct (Markdown.is_figure t); [|reflexivity].
  destruct i as [|k]; [reflexivity|].
  pose proof (nth_error_key ps ps' k H) as E.
  destruct (nth_error ps k) as [a|], (nth_error ps' k) as [b|];
    try discriminate; [|reflexivity].
  assert (Ek : key a = key b) by (simpl in E; congruence).
  now rewrite (has_image_key a b Ek).
Qed.

Lemma adj_is_code_key ps ps' idx :
  map key ps = map key ps' -> _adj_is_code ps idx = _adj_is_code ps' idx.
Proof.
  intros H. unfold _adj_is_code.
  assert (L : List.length ps = List.length ps')
    by (now rewrite <- (length_map key ps), H, length_map).
  rewrite L. destruct ((idx <? 0)%Z || (idx >=? Z.of_nat (List.length ps'))%Z);
    [reflexivity|].
  pose proof (nth_error_key ps ps' (Z.to_nat idx) H) as E.
  destruct (nth_error ps (Z.to_nat idx)) as [a|],
           (nth_error ps' (Z.to_nat idx)) as [b|];
    try discriminate; [|reflexivity].
  assert (Es : style_name a = style_name b)
    by (unfold key in E; simpl in E; congruence).
  now rewrite Es.
Qed.

Lemma style_paragraph_key cfg ps ps' i p :
  map key ps = map key ps' ->
  style_paragraph cfg ps i p = style_paragraph cfg ps' i p.
Proof.
  intros H. unfold style_paragraph, style_head.
  rewrite (caption_step_key cfg ps ps' i _ _ H).
  destruct (caption_step cfg ps' i (f_text (classify p)) (base_spacing p))
    as [q c].
  unfold style_tail, code_step.
  now rewrite !(adj_is_code_key ps ps' _ H).
Qed.

(** The paragraphs after the first [k] turns: the first [k] restyled, each
    from the document as the pass found it; the others untouched. *)
Lemma styling_first_turns cfg body k :
  k <= List.length (paragraphs body) ->
  let after := paragraphs (fold_left (styling_turn cfg) (seq 0 k) body) in
  map key after = map key (paragraphs body)
  /\ forall j,
       nth_error after j
       = if Nat.ltb j k
         then option_map (style_paragraph cfg (paragraphs body) j)
                         (nth_error (paragraphs body) j)
         else nth_error (paragraphs body) j.
Proof.
  cbv zeta. induction k as [|k IH]; intros Hk.
  - split; [reflexivity|]. intros j. reflexivity.
  - destruct IH as [IHk IHn]; [lia|].
    rewrite seq_S, fold_left_app. cbn [Nat.add fold_left].
    set (body_k := fold_left (styling_turn cfg) (seq 0 k) body) in *.
    assert (Hlen : List.length (paragraphs body_k)
                   = List.length (paragraphs body))
      by (now rewrite <- (length_map key (paragraphs body_k)), IHk, length_map).
    rewrite styling_turn_paragraph_turn by lia.
    rewrite paragraphs_toc, paragraphs_paragraph_turn. split.
    + rewrite alter_nth_map; [exact IHk|].
      intros x. apply key_style_paragraph.
    + intros j. rewrite nth_error_alter_nth.
      destruct (Nat.eqb_spec j k) as [->|Hj].
      * rewrite IHn, Nat.ltb_irrefl.
        replace (Nat.ltb k (S k)) with true by (symmetry; apply Nat.ltb_lt; lia).
        destruct (nth_error (paragraphs body) k) as [p|]; [|reflexivity].
        cbn [option_map]. f_equal. now apply style_paragraph_key.
      * rewrite IHn.
        destruct (Nat.ltb_spec j k), (Nat.ltb_spec j (S k));
          try reflexivity; lia.
Qed.

(** The styling pass restyles every paragraph by [style_paragraph], read
    against the paragraphs of the document it was given. *)
Lemma styling_paragraph cfg body i p :
  nth_error (paragraphs body) i = Some p ->
  nth_error (paragraphs (styling cfg body)) i
  = Some (style_paragraph cfg (paragraphs body) i p).
Proof.
  intros H. unfold styling.
  destruct (styling_first_turns cfg body (List.length (paragraphs body)))
    as [_ Hn]; [lia|].
  rewrite Hn, H.
  assert (i < List.length (paragraphs body))
    by (apply nth_error_Some; congruence).
  now replace (Nat.ltb i (List.length (paragraphs body))) with true
    by (symmetry; apply Nat.ltb_lt; lia).
Qed.

End StylingParagraphs.

Section CaptionStyling.
Import PyStr Docx.

Lemma runs_style_tail cfg ps i fl c p :
  runs (style_tail cfg ps i fl c p)
  = map (font_run cfg (f_style_name fl) (is_code fl) (is_heading fl) c) (runs p).
Proof.
  unfold style_tail, alignment_step.
  destruct (is_code fl), (is_list fl), (f_has_image fl),
           (String.eqb (text_align cfg) "justify"); reflexivity.
Qed.

Lemma runs_base_spacing p : runs (base_spacing p) = runs p.
Proof.
  unfold base_spacing, set_line_spacing_length.
  destruct (negb (has_image p) && negb (has_math p)); [|reflexivity].
  cbn. reflexivity.
Qed.

Lemma runs_heading_step s p : runs (heading_step s p) = runs p.
Proof. unfold heading_step. destruct (is_heading_style s); reflexivity. Qed.

Lemma caption_step_caption_of cfg ps i p q :
  caption_step cfg ps i (strip (text p)) q
  = if caption_of ps i p then (caption_style cfg q, true) else (q, false).
Proof.
  unfold caption_step, caption_of.
  destruct (Markdown.is_figure (strip (text p))); [|reflexivity].
  destruct (prev_para ps i) as [prev|]; [|reflexivity].
  destruct (has_image prev); reflexivity.
Qed.

Lemma style_head_caption_of cfg ps i p :
  style_head cfg ps i (classify p) p
  = if caption_of ps i p
    then (heading_step (style_name p) (caption_style cfg (base_spacing p)), true)
    else (heading_step (style_name p) (base_spacing p), false).
Proof.
  unfold style_head. cbn [classify f_text f_style_name].
  rewrite caption_step_caption_of. now destruct (caption_of ps i p).
Qed.

Lemma heading_1_is_heading s :
  String.eqb s "Heading 1" = true -> is_heading_style s = true.
Proof. intros H. apply String.eqb_eq in H. now subst. Qed.

Lemma caption_runs cfg ps i p :
  caption_of ps i p = true ->
  Forall (fun r => font_name r = Some (font_family cfg)
                   /\ font_size r = Some (caption_size cfg (style_name p)))
         (runs (style_paragraph cfg ps i p)).
Proof.
  intros Hc. unfold style_paragraph. rewrite style_head_caption_of, Hc.
  rewrite runs_style_tail, runs_heading_step.
  cbn [caption_style classify f_style_name is_code is_heading].
  unfold caption_style. change (runs (set_line_spacing_rule SINGLE ?x))
    with (runs x).
  cbn [set_line_spacing_rule set_line set_space_after set_space_before
       with_format with_runs runs].
  rewrite runs_base_spacing, map_map.
  apply Forall_forall. intros r Hr. apply in_map_iff in Hr as (r0 & <- & _).
  unfold font_run, caption_size.
  destruct (String.eqb (style_name p) "Heading 1") eqn:E1.
  - rewrite (heading_1_is_heading _ E1).
    destruct (is_code_style (style_name p)); split; reflexivity.
  - destruct (is_code_style (style_name p)),
             (is_heading_style (style_name p)); split; reflexivity.
Qed.

Lemma caption_spacing cfg ps i p :
  caption_of ps i p = true ->
  is_code_style (style_name p) = false ->
  is_heading_style (style_name p) = false ->
  is_list_paragraph p = false ->
  let p' := style_paragraph cfg ps i p in
  space_before (format p') = Some (Pt 9)
  /\ space_after (format p') = Some (Pt 9)
  /\ line_spacing_rule p' = Some SINGLE.
Proof.
  intros Hc Hcode Hhead Hlist. cbv zeta.
  unfold style_paragraph. rewrite style_head_caption_of, Hc.
  unfold style_tail, heading_step, alignment_step, line_spacing_rule.
  cbn [classify is_code is_list is_heading f_has_image f_style_name].
  rewrite Hcode, Hhead, Hlist.
  destruct (has_image p), (String.eqb (text_align cfg) "justify");
    repeat split; reflexivity.
Qed.

Lemma plain_runs cfg ps i p :
  caption_of ps i p = false ->
  is_code_style (style_name p) = false ->
  is_heading_style (style_name p) = false ->
  Forall (fun r => font_size r = Some (Pt (font_size_body cfg)))
         (runs (style_paragraph cfg ps i p)).
Proof.
  intros Hc Hcode Hhead. unfold style_paragraph.
  rewrite style_head_caption_of, Hc.
  rewrite runs_style_tail, runs_heading_step, runs_base_spacing.
  cbn [classify f_style_name is_code is_heading]. rewrite Hcode, Hhead.
  apply Forall_forall. intros r Hr. apply in_map_iff in Hr as (r0 & <- & _).
  reflexivity.
Qed.

Lemma runs_length cfg ps i p :
  List.length (runs (style_paragraph cfg ps i p)) = List.length (runs p).
Proof.
  unfold style_paragraph. rewrite style_head_caption_of.
  destruct (caption_of ps i p);
    rewrite runs_style_tail, length_map, runs_heading_step.
  - unfold caption_style.
    change (runs (set_line_spacing_rule SINGLE ?x)) with (runs x).
    cbn [set_space_after set_space_before with_format with_runs runs].
    now rewrite length_map, runs_base_spacing.
  - apply f_equal, runs_base_spacing.
Qed.

(** C1, as the claim states it, fails: a [Heading 2] paragraph that reads
    [Figure 1] and has no image before it gets no caption styling, and
    its run does not receive the body font size either. *)
Lemma heading_figure_without_image_keeps_size :
  let p := plain_paragraph "Heading 2" "Figure 1" in
  Markdown.is_figure (strip (text p)) = true
  /\ prev_para (paragraphs [BPara p]) 0 = None
  /\ map (fun q => map font_size (runs q))
         (paragraphs (styling default_config [BPara p]))
     = [[None]]
  /\ map (fun q => map font_size (runs q))
         (paragraphs (styling default_config [BPara p]))
     <> [[Some (Pt (font_size_body default_config))]].
Proof.
  cbv zeta. split; [reflexivity|]. split; [reflexivity|].
  split; [reflexivity|discriminate].
Qed.

(** C1 (amended).  In the styling pass a paragraph whose trimmed text
    matches [Figure <digits>] is restyled as follows.  After a paragraph
    with an image it is marked as a caption; every run gets the body font
    family and ends with 10pt (the code size for a code-styled paragraph,
    18pt for a [Heading 1]), never with the size of the generic body
    rule; unless it is a heading, code or list paragraph its spacing is
    9pt before and after with single line spacing.  With no image before
    it (or as first paragraph) no caption styling is applied, and the
    runs of a paragraph that is neither code nor heading receive the body
    font size. *)
Theorem caption_styling_in_styling_pass :
  forall (cfg : Config) (body : Body) (i : nat) (p : Paragraph),
    nth_error (paragraphs body) i = Some p ->
    Markdown.is_figure (strip (text p)) = true ->
    exists p',
      nth_error (paragraphs (styling cfg body)) i = Some p'
      /\ List.length (runs p') = List.length (runs p)
      /\ match prev_para (paragraphs body) i with
         | Some prev => has_image prev
         | None => false
         end = snd (style_head cfg (paragraphs body) i (classify p) p)
      /\ if snd (style_head cfg (paragraphs body) i (classify p) p)
         then
           Forall (fun r => font_name r = Some (font_family cfg)
                            /\ font_size r
                               = Some (if is_code_style (style_name p)
                                       then Pt (font_size_code cfg)
                                       else if String.eqb (style_name p) "Heading 1"
                                            then Pt 18 else Pt 10))
                  (runs p')
           /\ (is_code_style (style_name p) = false ->
               is_heading_style (style_name p) = false ->
               is_list_paragraph p = false ->
               space_before (format p') = Some (Pt 9)
               /\ space_after (format p') = Some (Pt 9)
               /\ line_spacing_rule p' = Some SINGLE)
         else
           fst (style_head cfg (paragraphs body) i (classify p) p)
           = heading_step (style_name p) (base_spacing p)
           /\ (is_code_style (style_name p) = false ->
               is_heading_style (style_name p) = false ->
               Forall (fun r => font_size r = Some (Pt (font_size_body cfg)))
                      (runs p')).
Proof.
  intros cfg body i p Hp Hfig.
  exists (style_paragraph cfg (paragraphs body) i p).
  split; [now apply styling_paragraph|].
  split; [apply runs_length|].
  assert (Ec : caption_of (paragraphs body) i p
               = match prev_para (paragraphs body) i with
                 | Some prev => has_image prev
                 | None => false
                 end)
    by (unfold caption_of; now rewrite Hfig).
  rewrite style_head_caption_of, <- Ec.
  destruct (caption_of (paragraphs body) i p) eqn:Hc; cbn [fst snd].
  - split; [reflexivity|]. split.
    + exact (caption_runs cfg _ _ _ Hc).
    + intros. now apply caption_spacing.
  - split; [reflexivity|]. split; [reflexivity|].
    intros. now apply plain_runs.
Qed.

(** The theorem at a caption under a picture. *)
Lemma caption_styling_in_styling_pass_witness :
  exists p',
    nth_error (paragraphs
                 (styling default_config
                    [BPara picture_paragraph;
                     BPara (plain_paragraph "Normal" "Figure 1: chart")])) 1
    = Some p'
    /\ map font_size (runs p') = [Some (Pt 10)]
    /\ line_spacing_rule p' = Some SINGLE.
Proof.
  destruct (caption_styling_in_styling_pass default_config
              [BPara picture_paragraph;
               BPara (plain_paragraph "Normal" "Figure 1: chart")]
              1 (plain_paragraph "Normal" "Figure 1: chart")
              eq_refl eq_refl) as (p' & Hp' & _).
  exists p'. split; [exact Hp'|].
  injection Hp' as <-. split; reflexivity.
Defined.

End CaptionStyling.

Section TocHeading.
Import PyStr Docx.

Lemma toc_paragraph_styled p ppr st :
  xp_pPr p = Some ppr -> pStyle ppr = Some st ->
  get_attr "w:val" st = Some "TOCHeading"%string ->
  (exists ppr' sp,
     xp_pPr (toc_paragraph p) = Some ppr' /\ spacing ppr' = Some sp
     /\ get_attr "w:after" sp = Some "120"%string)
  /\ Forall (fun r => exists x s c,
               rPr r = Some x
               /\ sz x = Some s /\ get_attr "w:val" s = Some "36"%string
               /\ color x = Some c
               /\ get_attr "w:val" c = Some "4F81BD"%string)
            (xp_runs (toc_paragraph p)).
Proof.
  intros E1 E2 E3. unfold toc_paragraph. rewrite E1, E2, E3.
  cbn [String.eqb Ascii.eqb Bool.eqb xp_pPr xp_runs]. split.
  - do 2 eexists. split; [reflexivity|]. split; [reflexivity|].
    apply get_set_attr.
  - apply Forall_forall. intros r Hr. apply in_map_iff in Hr as (r0 & <- & _).
    unfold toc_run. cbn [rPr]. do 3 eexists.
    split; [reflexivity|]. cbn [sz color].
    split; [reflexivity|]. split; [apply get_set_attr|].
    split; [reflexivity|apply get_set_attr].
Qed.

(** C3.  The code at the failing input, a document with a
    table-of-contents block and no top-level paragraph: the heading
    styling sits in the body of the paragraph loop, the loop has no turn,
    and the pass returns the document as it found it, whereas the
    styling applied once for the document restyles the heading.  The
    same happens when a table follows the block. *)
Lemma toc_heading_untouched_without_paragraphs :
  paragraphs toc_only_body = []
  /\ styling default_config toc_only_body = toc_only_body
  /\ styling_spec default_config toc_only_body <> toc_only_body
  /\ styling default_config toc_only_body
     <> styling_spec default_config toc_only_body
  /\ paragraphs (toc_only_body ++ [BTable small_table]) = []
  /\ styling default_config (toc_only_body ++ [BTable small_table])
     = toc_only_body ++ [BTable small_table]
  /\ styling_spec default_config (toc_only_body ++ [BTable small_table])
     <> toc_only_body ++ [BTable small_table].
Proof.
  split; [reflexivity|]. split; [reflexivity|]. split; [discriminate|].
  split; [discriminate|]. split; [reflexivity|]. split; [reflexivity|].
  discriminate.
Qed.

(** Where the document has a top-level paragraph the pass does what C3
    says.  The table-of-contents heading styling (spacing after 120
    twentieths of a point, every run 36 half-points and colour 4F81BD,
    for the [TOCHeading] paragraphs of the structured-content blocks) is
    idempotent and is applied in every turn of the paragraph loop; with
    at least one top-level paragraph the result equals the per-paragraph
    styling followed by a single application; without top-level
    paragraphs the pass changes nothing. *)
Theorem toc_heading_styled_in_every_turn :
  (forall body,
     toc_heading_style (toc_heading_style body) = toc_heading_style body)
  /\ (forall cfg body i,
        i < List.length (paragraphs body) ->
        styling_turn cfg body i
        = toc_heading_style (paragraph_turn cfg body i))
  /\ (forall cfg body,
        paragraphs body <> [] -> styling cfg body = styling_spec cfg body)
  /\ (forall cfg body, paragraphs body = [] -> styling cfg body = body)
  /\ (forall p ppr st,
        xp_pPr p = Some ppr -> pStyle ppr = Some st ->
        get_attr "w:val" st = Some "TOCHeading"%string ->
        (exists ppr' sp,
           xp_pPr (toc_paragraph p) = Some ppr' /\ spacing ppr' = Some sp
           /\ get_attr "w:after" sp = Some "120"%string)
        /\ Forall (fun r => exists x s c,
                     rPr r = Some x
                     /\ sz x = Some s /\ get_attr "w:val" s = Some "36"%string
                     /\ color x = Some c
                     /\ get_attr "w:val" c = Some "4F81BD"%string)
                  (xp_runs (toc_paragraph p))).
Proof.
  split; [exact toc_heading_style_idempotent|].
  split; [exact styling_turn_paragraph_turn|].
  split; [exact styling_once_with_paragraphs|].
  split; [|exact toc_paragraph_styled].
  intros cfg body H. unfold styling. now rewrite H.
Qed.

(** The theorem at a document of one paragraph and a table-of-contents
    block. *)
Lemma toc_heading_styled_in_every_turn_witness :
  styling default_config (BPara (plain_paragraph "Normal" "text") :: toc_only_body)
  = styling_spec default_config
      (BPara (plain_paragraph "Normal" "text") :: toc_only_body).
Proof.
  apply (proj1 (proj2 (proj2 toc_heading_styled_in_every_turn))).
  discriminate.
Defined.

End TocHeading.

Section TableFormatting.
Import PyStr Docx.

Lemma nth_error_format_rows cfg rows : forall k i row,
  nth_error rows i = Some row ->
  nth_error (format_rows cfg k rows) i = Some (map (format_cell cfg (k + i)) row).
Proof.
  induction rows as [|r rows IH]; intros k [|i] row; simpl; try discriminate.
  - intros [= ->]. now rewrite Nat.add_0_r.
  - intros H. rewrite (IH (S k) i row H). do 3 f_equal. lia.
Qed.

Lemma format_rows_length cfg rows k :
  List.length (format_rows cfg k rows) = List.length rows.
Proof.
  revert k. induction rows as [|r rows IH]; intros k; simpl; auto.
Qed.

Lemma tables_format_tables cfg g body :
  tables (format_tables cfg g body) = map (format_table cfg g) (tables body).
Proof.
  induction body as [|b body IH]; [reflexivity|].
  destruct b; simpl; now rewrite IH.
Qed.

Lemma alter_nth_middle {A} (P : list A) x R (f : A -> A) :
  alter_nth (List.length P) f (P ++ x :: R) = P ++ f x :: R.
Proof. induction P as [|y P IH]; simpl; [reflexivity|now rewrite IH]. Qed.

(** Changing the cells of a row one after the other, each once, is
    changing them all. *)
Lemma format_cells_of_row cfg i P R : forall tail done,
  fold_left (fun acc ref => format_at cfg i ref acc)
            (map (fun k => (List.length P, k))
                 (seq (List.length done) (List.length tail)))
            (P ++ (done ++ tail) :: R)
  = P ++ (done ++ map (format_cell cfg i) tail) :: R.
Proof.
  induction tail as [|c tail IH]; intros done; [reflexivity|].
  cbn [List.length seq map fold_left]. unfold format_at at 2.
  cbn [fst snd]. rewrite alter_nth_middle, alter_nth_middle.
  specialize (IH (done ++ [format_cell cfg i c])).
  rewrite length_app, Nat.add_1_r, <- !app_assoc in IH. cbn [app] in IH.
  exact IH.
Qed.

(** For a table without merged cells the loop over the cells handed out
    is [format_rows]. *)
Lemma format_listing_own_cells cfg : forall R P,
  format_listing cfg (List.length P) (own_cells_from (List.length P) R) (P ++ R)
  = P ++ format_rows cfg (List.length P) R.
Proof.
  induction R as [|row R IH]; intros P; [reflexivity|].
  unfold own_cells_from. cbn [List.length seq combine map format_listing fst snd].
  pose proof (format_cells_of_row cfg (List.length P) P R row []) as F.
  cbn [List.length app] in F. rewrite F.
  cbn [format_rows]. fold (own_cells_from (S (List.length P)) R).
  specialize (IH (P ++ [map (format_cell cfg (List.length P)) row])).
  rewrite length_app, Nat.add_1_r, <- !app_assoc in IH. cbn [app] in IH.
  exact IH.
Qed.

(** The restriction to tables without merged cells is needed: a header
    cell merged with the cell below it is handed out again for the second
    row and formatted as a cell of that row, so it ends without the
    accent fill and with black text (and still bold). *)
Lemma merged_header_cell_is_formatted_as_body_cell :
  map (map (fun c => (tc_shd c,
                      map (fun p => map (fun r => (font_bold r, font_color r))
                                        (runs p))
                          (cell_paragraphs c))))
      (format_listing default_config 0 merged_listing merged_rows)
  = [[([], [[(Some true, Some black)]])];
     [([], [[(None, None)]])]].
Proof. reflexivity. Qed.

(** C4, as the claim states it, fails: the formatted table does not
    switch horizontal banding off ([w:noHBand] is 0); it is vertical
    banding that is switched off. *)
Lemma table_look_keeps_horizontal_banding :
  map (get_attr "w:noHBand")
      (tblLook (format_table default_config true empty_table))
  = [Some "0"%string]
  /\ map (get_attr "w:noHBand")
         (tblLook (format_table default_config true empty_table))
     <> [Some "1"%string]
  /\ map (get_attr "w:noVBand")
         (tblLook (format_table default_config true empty_table))
     = [Some "1"%string].
Proof. split; [reflexivity|]. split; [discriminate|reflexivity]. Qed.

(** C4 (amended).  After the table-formatting step every table of the
    document has the look flags first row and first column on, last row
    and last column off, [noHBand] off and [noVBand] on (vertical banding
    is the one suppressed), and it is centred.  In a table without merged
    cells, where the loop meets every cell once and in its own row, every
    cell of row 0 has the accent fill and its runs are bold and white;
    the runs of every other row are black; every paragraph of every cell
    has 0pt before and after. *)
Theorem table_formatting :
  forall (cfg : Config) (has_grid : bool) (body : Body),
    tables (format_tables cfg has_grid body)
    = map (format_table cfg has_grid) (tables body)
    /\ (forall t,
          rows (format_table cfg has_grid t)
          = format_listing cfg 0 (own_cells (rows t)) (rows t))
    /\ forall t, In t (tables body) ->
         let t' := format_table cfg has_grid t in
         look_flags t'
         = [[Some "1"; Some "1"; Some "0"; Some "0"; Some "0"; Some "1"]]%string
         /\ map (get_attr "w:val") (jc t') = [Some "center"%string]
         /\ List.length (rows t') = List.length (rows t)
         /\ forall i row cell,
              nth_error (rows t') i = Some row -> In cell row ->
              (i = 0 ->
               map (get_attr "w:fill") (tc_shd cell) = [Some "4F81BD"%string])
              /\ forall paragraph, In paragraph (cell_paragraphs cell) ->
                   space_before (format paragraph) = Some (Pt 0)
                   /\ space_after (format paragraph) = Some (Pt 0)
                   /\ forall run, In run (runs paragraph) ->
                        if Nat.eqb i 0
                        then font_bold run = Some true
                             /\ font_color run = Some white
                        else font_color run = Some black.
Proof.
  intros cfg has_grid body. split; [apply tables_format_tables|].
  split; [intros t; symmetry; apply (format_listing_own_cells cfg (rows t) [])|].
  intros t _. cbv zeta.
  split; [reflexivity|]. split; [reflexivity|].
  split; [apply format_rows_length|].
  intros i row cell Hrow Hcell. cbn [format_table rows] in Hrow.
  destruct (nth_error (rows t) i) as [row0|] eqn:E.
  2:{ apply nth_error_None in E.
      assert (nth_error (format_rows cfg 0 (rows t)) i = None)
        by (apply nth_error_None; now rewrite format_rows_length).
      congruence. }
  rewrite (nth_error_format_rows cfg (rows t) 0 i row0 E) in Hrow.
  injection Hrow as <-. cbn [Nat.add] in Hcell.
  apply in_map_iff in Hcell as (cell0 & <- & _).
  split.
  - intros ->. reflexivity.
  - intros paragraph Hp. cbn [format_cell cell_paragraphs] in Hp.
    apply in_map_iff in Hp as (p0 & <- & _).
    split; [reflexivity|]. split; [reflexivity|].
    intros run Hr. cbn [cell_paragraph with_runs runs] in Hr.
    apply in_map_iff in Hr as (r0 & <- & _).
    unfold cell_run. destruct (Nat.eqb i 0); [split|]; reflexivity.
Qed.

(** The theorem at a table of a header row and one body row. *)
Lemma table_formatting_witness :
  look_flags (format_table default_config true small_table)
  = [[Some "1"; Some "1"; Some "0"; Some "0"; Some "0"; Some "1"]]%string
  /\ map (get_attr "w:val") (jc (format_table default_config true small_table))
     = [Some "center"%string].
Proof.
  destruct (table_formatting default_config true [BTable small_table])
    as (_ & _ & H).
  destruct (H small_table (or_introl eq_refl)) as (H1 & H2 & _).
  split; [exact H1|exact H2].
Defined.

End TableFormatting.

(* ===================================================================== *)
(** * Properties of the conversion driver *)
(* ===================================================================== *)

Section LastCharacter.
Import PyStr.
Local Open Scope string_scope.

Lemma last_char_append a b :
  b <> EmptyString -> last_char (a ++ b) = last_char b.
Proof.
  intros Hb. induction a as [|c a IH]; [reflexivity|].
  cbn [append]. destruct (a ++ b) eqn:E.
  - destruct a, b; simpl in E; congruence.
  - rewrite <- IH. reflexivity.
Qed.

Lemma append_assoc a b c : (a ++ b) ++ c = a ++ b ++ c.
Proof. induction a as [|x a IH]; simpl; [reflexivity|now rewrite IH]. Qed.

Lemma last_char_md suffix :
  lower suffix = ".md" ->
  exists c, last_char suffix = Some c /\ lower_char c = "d"%char.
Proof.
  destruct suffix as [|a [|b [|c [|d s]]]]; simpl; try discriminate.
  intros [= _ _ H]. eauto.
Qed.

Lemma not_md_docx suffix a b :
  lower suffix = ".md" -> a ++ suffix <> b ++ ".docx".
Proof.
  intros H E. apply last_char_md in H as (c & Hc & Hl).
  assert (Hs : suffix <> "") by (intros ->; discriminate).
  apply (f_equal last_char) in E.
  rewrite last_char_append in E by assumption.
  rewrite last_char_append in E by discriminate.
  rewrite Hc in E. simpl in E. injection E as ->. discriminate.
Qed.

End LastCharacter.

Section Conversion.
Import PyStr Driver.
Local Open Scope string_scope.

Variable Document : Type.
Variables pandoc_on_path _HAS_NB : bool.
Variable pandoc : list string -> Files Document -> Completed Document.
Variable add_header_footer : string -> Document -> option Document.
Variable apply_styling : Document -> option Document.
Variables nb_markdown nb_html : string -> string.
Variable nb_outputs : string -> list (string * string).
Variable opts : Options.

Abbreviation to_docx :=
  (_markdown_to_docx Document pandoc_on_path pandoc add_header_footer
                     apply_styling opts).
Abbreviation process_markdown :=
  (_process_markdown Document pandoc_on_path pandoc add_header_footer
                     apply_styling opts).
Abbreviation process_notebook :=
  (_process_notebook Document pandoc_on_path _HAS_NB pandoc add_header_footer
                     apply_styling nb_markdown nb_html nb_outputs opts).
Abbreviation converted :=
  (convert Document pandoc_on_path _HAS_NB pandoc add_header_footer
           apply_styling nb_markdown nb_html nb_outputs opts).
Abbreviation finish :=
  (Driver.finish Document add_header_footer apply_styling).
Abbreviation warnings :=
  (Driver.warnings Document add_header_footer apply_styling).
Abbreviation title_of := (Driver.title_of opts).

Lemma to_docx_missing_pandoc md out title src w :
  pandoc_on_path = false ->
  to_docx md out title src w
  = (Raised (ConversionError "pandoc not found on PATH."), w).
Proof.
  intros H. unfold _markdown_to_docx, bind, _require_pandoc.
  now rewrite H.
Qed.

Lemma to_docx_failure md out title src w :
  pandoc_on_path = true ->
  let cmd := pandoc_cmd opts md out src in
  let result := pandoc cmd (files w) in
  returncode result <> 0%Z ->
  to_docx md out title src w
  = (Raised (pandoc_failed result),
     mkWorld (files w) (invocations w ++ [cmd])%list (printed w)).
Proof.
  intros H cmd result Hr.
  unfold _markdown_to_docx, bind, _require_pandoc, run_pandoc.
  rewrite H. cbn [negb]. unfold ret. fold cmd. fold result.
  destruct (Z.eqb_spec (returncode result) 0); [contradiction|].
  reflexivity.
Qed.

Lemma to_docx_success md out title src w :
  pandoc_on_path = true ->
  let cmd := pandoc_cmd opts md out src in
  let result := pandoc cmd (files w) in
  returncode result = 0%Z ->
  exists w',
    to_docx md out title src w = (Returned tt, w')
    /\ invocations w' = (invocations w ++ [cmd])%list
    /\ printed w' = (printed w ++ warnings title (output result))%list
    /\ forall q,
         files w' q
         = if String.eqb q (str out)
           then Some (Docx (finish title (output result)))
           else files w q.
Proof.
  intros H cmd result Hr.
  unfold _markdown_to_docx, bind, _require_pandoc, run_pandoc.
  rewrite H. cbn [negb]. unfold ret. fold cmd. fold result.
  rewrite Hr. cbn [Z.eqb negb].
  unfold try_step, bind, get_files, modify_files, print, Driver.finish,
    Driver.warnings.
  cbn [files invocations printed]. unfold write at 1.
  rewrite String.eqb_refl.
  destruct (add_header_footer title (output result)) as [d1|];
    cbn [files invocations printed]; unfold write at 1;
    rewrite String.eqb_refl;
    (destruct (apply_styling _) as [d2|];
     eexists; (split; [reflexivity|]); (split; [reflexivity|]);
     (split;
      [cbn [printed app]; rewrite ?app_nil_r, <- ?app_assoc; reflexivity|]);
     intros q; cbn [files]; unfold write;
     destruct (String.eqb q (str out)); reflexivity).
Qed.

Lemma convert_missing_input inp od bn w :
  files w (str inp) = None ->
  converted inp od bn w
  = (Raised (ConversionError ("Input file not found: " ++ str inp)), w).
Proof.
  intros H. unfold convert, path_exists, get_files, ret, bind.
  cbn [files]. now rewrite H.
Qed.

Lemma convert_unsupported inp od bn w :
  files w (str inp) <> None ->
  mem (lower (suffix inp)) [".ipynb"; ".md"] = false ->
  converted inp od bn w
  = (Raised (ConversionError ("Unsupported file type: " ++ lower (suffix inp))),
     w).
Proof.
  intros H Hs. unfold convert, path_exists, get_files, ret, bind.
  cbn [files]. destruct (files w (str inp)); [|congruence].
  cbn [negb]. now rewrite Hs.
Qed.

Lemma convert_markdown inp od bn w :
  files w (str inp) <> None ->
  lower (suffix inp) = ".md" ->
  converted inp od bn w
  = process_markdown inp (out_base inp bn) (out_dir inp od) w.
Proof.
  intros H Hs. unfold convert, path_exists, get_files, ret, bind.
  cbn [files]. destruct (files w (str inp)); [|congruence].
  cbn [negb]. rewrite Hs. reflexivity.
Qed.

Lemma convert_notebook inp od bn w :
  files w (str inp) <> None ->
  lower (suffix inp) = ".ipynb" ->
  converted inp od bn w
  = process_notebook inp (out_base inp bn) (out_dir inp od) w.
Proof.
  intros H Hs. unfold convert, path_exists, get_files, ret, bind.
  cbn [files]. destruct (files w (str inp)); [|congruence].
  cbn [negb]. rewrite Hs. reflexivity.
Qed.

Lemma supported_suffix s :
  mem s [".ipynb"; ".md"] = true -> s = ".ipynb" \/ s = ".md".
Proof.
  unfold mem. cbn [existsb]. rewrite orb_false_r, orb_true_iff, !String.eqb_eq.
  tauto.
Qed.

(** Without pandoc on the path a supported, existing input ends in a
    [ConversionError] and no command is run. *)
Lemma convert_missing_pandoc inp od bn w :
  pandoc_on_path = false ->
  files w (str inp) <> None ->
  mem (lower (suffix inp)) [".ipynb"; ".md"] = true ->
  exists msg w',
    converted inp od bn w = (Raised (ConversionError msg), w')
    /\ invocations w' = invocations w.
Proof.
  intros Hp H Hs. apply supported_suffix in Hs as [Hs|Hs].
  - rewrite convert_notebook by assumption.
    unfold _process_notebook, bind, _require_nb.
    destruct _HAS_NB; cbn [negb]; [|unfold raise; eauto].
    unfold ret, read_text, bind, get_files, ret, modify_files.
    destruct (export_html opts); cbn [files invocations printed];
      rewrite to_docx_missing_pandoc by assumption; eauto.
  - rewrite convert_markdown by assumption.
    unfold _process_markdown, bind.
    rewrite to_docx_missing_pandoc by assumption. eauto.
Qed.

(** The run of [_process_markdown], step by step. *)
Lemma process_markdown_run inp base dir raw w :
  pandoc_on_path = true ->
  lower (suffix inp) = ".md" ->
  files w (str inp) = Some (Text raw) ->
  let out := in_dir dir base ".docx" in
  let temp := in_dir dir (base ++ "_temp") ".md" in
  let src := Some (parent inp) in
  let title := title_of base in
  let cmd1 := pandoc_cmd opts inp out src in
  let r1 := pandoc cmd1 (files w) in
  let w1 := snd (to_docx inp out title src w) in
  let fs2 := write (str temp) (Text (Markdown.normalize raw)) (files w1) in
  let cmd2 := pandoc_cmd opts temp out src in
  let r2 := pandoc cmd2 fs2 in
  let res := process_markdown inp base dir w in
  (returncode r1 <> 0%Z ->
   res = (Raised (pandoc_failed r1),
          mkWorld (files w) (invocations w ++ [cmd1])%list (printed w)))
  /\ (returncode r1 = 0%Z ->
      (returncode r2 <> 0%Z ->
       fst res = Raised (pandoc_failed r2)
       /\ invocations (snd res) = (invocations w ++ [cmd1; cmd2])%list)
      /\ (returncode r2 = 0%Z ->
          fst res = Returned (mkResult (Some out) None None)
          /\ invocations (snd res) = (invocations w ++ [cmd1; cmd2])%list
          /\ files (snd res) (str out)
             = Some (Docx (finish title (output r2))))).
Proof.
  intros Hp Hs Hraw out temp src title cmd1 r1 w1 fs2 cmd2 r2 res.
  assert (Hio : str inp <> str out).
  { unfold str, out, in_dir. cbn [parent stem suffix].
    replace (parent inp ++ "/" ++ stem inp ++ suffix inp)
      with ((parent inp ++ "/" ++ stem inp) ++ suffix inp)
      by (now rewrite !append_assoc).
    replace (dir ++ "/" ++ base ++ ".docx")
      with ((dir ++ "/" ++ base) ++ ".docx")
      by (now rewrite !append_assoc).
    now apply not_md_docx. }
  assert (Hto : str temp <> str out).
  { unfold str, temp, out, in_dir. cbn [parent stem suffix].
    replace (dir ++ "/" ++ (base ++ "_temp") ++ ".md")
      with ((dir ++ "/" ++ base ++ "_temp") ++ ".md")
      by (now rewrite !append_assoc).
    replace (dir ++ "/" ++ base ++ ".docx")
      with ((dir ++ "/" ++ base) ++ ".docx")
      by (now rewrite !append_assoc).
    now apply not_md_docx. }
  split.
  - intros Hr. unfold res, _process_markdown, bind. fold (title_of base).
    fold out. fold src. fold title.
    rewrite (to_docx_failure inp out title src w Hp Hr). reflexivity.
  - intros Hr.
    destruct (to_docx_success inp out title src w Hp Hr)
      as (w1' & E1 & I1 & _ & F1).
    assert (Ew1 : w1 = w1') by (unfold w1; now rewrite E1).
    clearbody w1. subst w1'.
    assert (Eres : res
      = bind (to_docx temp out title src)
          (fun _ => bind (modify_files (unlink (str temp)))
             (fun _ => ret (mkResult (Some out) None None)))
          (mkWorld fs2 (invocations w1) (printed w1))).
    { unfold res, _process_markdown. fold (title_of base).
      fold out. fold src. fold title. fold temp.
      unfold bind at 1. rewrite E1.
      unfold bind at 1. unfold read_text, bind at 1, get_files, ret.
      cbn [files]. rewrite F1.
      destruct (String.eqb_spec (str inp) (str out)); [contradiction|].
      rewrite Hraw. unfold bind at 1, modify_files.
      reflexivity. }
    set (w2 := mkWorld fs2 (invocations w1) (printed w1)) in *.
    assert (I2 : invocations w2 = (invocations w ++ [cmd1])%list)
      by (unfold w2; cbn [invocations]; exact I1).
    split.
    + intros Hr2.
      assert (E2 : res
        = (Raised (pandoc_failed r2),
           mkWorld (files w2) (invocations w2 ++ [cmd2])%list (printed w2))).
      { rewrite Eres. unfold bind at 1.
        now rewrite (to_docx_failure temp out title src w2 Hp Hr2). }
      rewrite E2. cbn [fst snd invocations]. split; [reflexivity|].
      rewrite I2, <- app_assoc. reflexivity.
    + intros Hr2.
      destruct (to_docx_success temp out title src w2 Hp Hr2)
        as (w3 & E3 & I3 & _ & F3).
      assert (E2 : res
        = (Returned (mkResult (Some out) None None),
           mkWorld (unlink (str temp) (files w3)) (invocations w3)
                   (printed w3))).
      { rewrite Eres. unfold bind at 1. rewrite E3. reflexivity. }
      rewrite E2. cbn [fst snd invocations files].
      split; [reflexivity|]. split.
      * rewrite I3, I2, <- app_assoc. reflexivity.
      * unfold unlink.
        destruct (String.eqb_spec (str out) (str temp)); [congruence|].
        rewrite F3, String.eqb_refl. reflexivity.
Qed.

(** C8.  A missing input and an unsupported suffix raise
    [ConversionError] and leave the world untouched; without pandoc on
    the path the conversion raises [ConversionError] and runs no
    command; the compiler adapter raises the [ConversionError] that
    carries the exit code and the trimmed stderr text exactly when pandoc
    exits non-zero, and otherwise returns with the compiled document
    saved, whatever the two cosmetic steps do (a failing step is skipped
    and its warning printed);
    a Markdown conversion whose pandoc runs exit with zero returns the
    docx path. *)
Theorem conversion_error_policy :
  forall (inp : Path) (od bn : option string) (raw : string)
         (md out : Path) (title : string) (src : option string)
         (w : World Document),
    (files w (str inp) = None ->
     converted inp od bn w
     = (Raised (ConversionError ("Input file not found: " ++ str inp)), w))
    /\ (files w (str inp) <> None ->
        mem (lower (suffix inp)) [".ipynb"; ".md"] = false ->
        converted inp od bn w
        = (Raised (ConversionError
                     ("Unsupported file type: " ++ lower (suffix inp))), w))
    /\ (pandoc_on_path = false ->
        files w (str inp) <> None ->
        mem (lower (suffix inp)) [".ipynb"; ".md"] = true ->
        exists msg w',
          converted inp od bn w = (Raised (ConversionError msg), w')
          /\ invocations w' = invocations w)
    /\ (pandoc_on_path = false ->
        to_docx md out title src w
        = (Raised (ConversionError "pandoc not found on PATH."), w))
    /\ (pandoc_on_path = true ->
        let cmd := pandoc_cmd opts md out src in
        let result := pandoc cmd (files w) in
        (returncode result <> 0%Z ->
         to_docx md out title src w
         = (Raised (ConversionError
                      ("pandoc failed (exit "
                       ++ str_of_int (returncode result)
                       ++ "): " ++ strip (stderr result))),
            mkWorld (files w) (invocations w ++ [cmd])%list (printed w)))
        /\ (returncode result = 0%Z ->
            exists w',
              to_docx md out title src w = (Returned tt, w')
              /\ invocations w' = (invocations w ++ [cmd])%list
              /\ printed w'
                 = (printed w ++ warnings title (output result))%list
              /\ files w' (str out)
                 = Some (Docx (finish title (output result)))))
    /\ (pandoc_on_path = true ->
        (forall cmd fs, returncode (pandoc cmd fs) = 0%Z) ->
        lower (suffix inp) = ".md" ->
        files w (str inp) = Some (Text raw) ->
        fst (converted inp od bn w)
        = Returned (mkResult (Some (in_dir (out_dir inp od) (out_base inp bn)
                                           ".docx"))
                             None None)).
Proof.
  intros inp od bn raw md out title src w.
  split; [apply convert_missing_input|].
  split; [apply convert_unsupported|].
  split; [apply convert_missing_pandoc|].
  split; [apply to_docx_missing_pandoc|].
  split.
  - intros Hp cmd result. split.
    + intros Hr. now apply to_docx_failure.
    + intros Hr.
      destruct (to_docx_success md out title src w Hp Hr)
        as (w' & E & I & W & F).
      exists w'. split; [exact E|]. split; [exact I|]. split; [exact W|].
      rewrite F, String.eqb_refl. reflexivity.
  - intros Hp Hall Hs Hraw.
    rewrite convert_markdown by (assumption || congruence).
    destruct (process_markdown_run inp (out_base inp bn) (out_dir inp od)
                raw w Hp Hs Hraw) as [_ H].
    destruct (H (Hall _ _)) as [_ H2].
    destruct (H2 (Hall _ _)) as [E _]. exact E.
Qed.

(** C10.  For a Markdown input the converter runs pandoc first on the
    raw source file and, if that run exits with zero, a second time on
    the temporary file that holds the normalised text, both times onto
    the same output path; the document left at that path is the
    compilation of the normalised text (with the cosmetic steps applied);
    a first run that exits non-zero aborts the conversion with its
    [ConversionError] after that single run, whatever the second run
    would have done. *)
Theorem markdown_input_is_compiled_twice :
  forall (inp : Path) (od bn : option string) (raw : string)
         (w : World Document),
    pandoc_on_path = true ->
    lower (suffix inp) = ".md" ->
    files w (str inp) = Some (Text raw) ->
    let dir := out_dir inp od in
    let base := out_base inp bn in
    let out := in_dir dir base ".docx" in
    let temp := in_dir dir (base ++ "_temp") ".md" in
    let src := Some (parent inp) in
    let title := title_of base in
    let cmd1 := pandoc_cmd opts inp out src in
    let r1 := pandoc cmd1 (files w) in
    let w1 := snd (to_docx inp out title src w) in
    let fs2 := write (str temp) (Text (Markdown.normalize raw)) (files w1) in
    let cmd2 := pandoc_cmd opts temp out src in
    let r2 := pandoc cmd2 fs2 in
    let res := converted inp od bn w in
    (nth_error cmd1 1 = Some (str inp) /\ nth_error cmd1 3 = Some (str out))
    /\ (nth_error cmd2 1 = Some (str temp) /\ nth_error cmd2 3 = Some (str out))
    /\ fs2 (str temp) = Some (Text (Markdown.normalize raw))
    /\ (returncode r1 <> 0%Z ->
        res = (Raised (pandoc_failed r1),
               mkWorld (files w) (invocations w ++ [cmd1])%list (printed w)))
    /\ (returncode r1 = 0%Z ->
        invocations (snd res) = (invocations w ++ [cmd1; cmd2])%list
        /\ (returncode r2 <> 0%Z -> fst res = Raised (pandoc_failed r2))
        /\ (returncode r2 = 0%Z ->
            fst res = Returned (mkResult (Some out) None None)
            /\ files (snd res) (str out)
               = Some (Docx (finish title (output r2))))).
Proof.
  intros inp od bn raw w Hp Hs Hraw.
  intros dir base out temp src title cmd1 r1 w1 fs2 cmd2 r2 res.
  split; [split; reflexivity|]. split; [split; reflexivity|].
  split; [unfold fs2, write; now rewrite String.eqb_refl|].
  assert (E : res = process_markdown inp base dir w).
  { unfold res. apply convert_markdown; [congruence|assumption]. }
  destruct (process_markdown_run inp base dir raw w Hp Hs Hraw) as [H1 H2].
  rewrite E. split; [exact H1|].
  intros Hr. destruct (H2 Hr) as [Hf Hok]. split.
  - destruct (Z.eq_dec (returncode r2) 0) as [Hz|Hn].
    + now destruct (Hok Hz) as (_ & I & _).
    + now destruct (Hf Hn) as (_ & I).
  - split.
    + intros Hn. now destruct (Hf Hn).
    + intros Hz. destruct (Hok Hz) as (R & _ & F). now split.
Qed.

End Conversion.

Section ConversionExamples.
Import PyStr Driver.
Local Open Scope string_scope.

Lemma conversion_error_policy_witness :
  fst (convert string true true sample_pandoc
               (fun _ _ => None) (fun _ => None)
               (fun s => s) (fun s => s) (fun _ => [])
               sample_options sample_input None None sample_world)
  = Returned (mkResult (Some (mkPath "/work" "report" ".docx")) None None).
Proof.
  apply (proj2 (proj2 (proj2 (proj2 (proj2
           (conversion_error_policy string true true sample_pandoc
              (fun _ _ => None) (fun _ => None)
              (fun s => s) (fun s => s) (fun _ => [])
              sample_options sample_input None None "# Report"
              sample_input sample_input "" None sample_world))))));
    reflexivity.
Defined.

Lemma markdown_input_is_compiled_twice_witness :
  invocations
    (snd (convert string true true sample_pandoc
                  (fun _ _ => None) (fun _ => None)
                  (fun s => s) (fun s => s) (fun _ => [])
                  sample_options sample_input None None sample_world))
  = [pandoc_cmd sample_options sample_input
                (mkPath "/work" "report" ".docx") (Some "/work");
     pandoc_cmd sample_options (mkPath "/work" "report_temp" ".md")
                (mkPath "/work" "report" ".docx") (Some "/work")].
Proof.
  destruct (markdown_input_is_compiled_twice string true true sample_pandoc
              (fun _ _ => None) (fun _ => None)
              (fun s => s) (fun s => s) (fun _ => [])
              sample_options sample_input None None "# Report" sample_world
              eq_refl eq_refl eq_refl) as (_ & _ & _ & _ & H).
  destruct (H eq_refl) as [I _]. exact I.
Defined.

End ConversionExamples.

(* ===================================================================== *)
(** * More on the styling pass *)
(* ===================================================================== *)

Section StylingEveryParagraph.
Import PyStr Docx DocxMore.

Lemma nth_error_numbered {A} (l : list A) : forall a j,
  nth_error (combine (seq a (List.length l)) l) j
  = option_map (fun x => (a + j, x)) (nth_error l j).
Proof.
  induction l as [|x l IH]; intros a j; [now destruct j|].
  destruct j as [|j]; cbn [List.length seq combine nth_error option_map].
  - now rewrite Nat.add_0_r.
  - rewrite IH. destruct (nth_error l j); [|reflexivity].
    cbn [option_map]. do 2 f_equal. lia.
Qed.

(** The paragraphs after the pass, all at once. *)
Lemma styling_paragraphs cfg body :
  paragraphs (styling cfg body)
  = map (fun ip => style_paragraph cfg (paragraphs body) (fst ip) (snd ip))
        (combine (seq 0 (List.length (paragraphs body))) (paragraphs body)).
Proof.
  apply nth_error_ext. intros j.
  destruct (styling_first_turns cfg body (List.length (paragraphs body)))
    as [_ Hn]; [lia|].
  unfold styling. rewrite Hn, nth_error_map, nth_error_numbered.
  destruct (nth_error (paragraphs body) j) as [p|] eqn:E.
  - assert (Hj : j < List.length (paragraphs body))
      by (apply nth_error_Some; congruence).
    now replace (Nat.ltb j (List.length (paragraphs body))) with true
      by (symmetry; apply Nat.ltb_lt; lia).
  - now destruct (Nat.ltb j (List.length (paragraphs body))).
Qed.

Lemma styling_paragraphs_map {A} (g : Paragraph -> A) cfg body :
  (forall ps i p, g (style_paragraph cfg ps i p) = g p) ->
  map g (paragraphs (styling cfg body)) = map g (paragraphs body).
Proof.
  intros H. rewrite styling_paragraphs, map_map.
  generalize 0. generalize (paragraphs body) at 1 as ps.
  induction (paragraphs body) as [|q l IH]; intros ps a; [reflexivity|].
  simpl. now rewrite H, IH.
Qed.

Lemma r_text_font_run cfg s c h k run :
  r_text (font_run cfg s c h k run) = r_text run.
Proof.
  unfold font_run. destruct c, h, k; simpl;
    try destruct (String.eqb s "Heading 1"); reflexivity.
Qed.

Lemma content_style_paragraph cfg ps i p :
  content (style_paragraph cfg ps i p) = content p.
Proof.
  unfold content.
  pose proof (key_style_paragraph cfg ps i p) as K. unfold key in K.
  injection K as K1 K2 _. rewrite K1, K2. do 2 f_equal.
  unfold style_paragraph. rewrite style_head_caption_of.
  destruct (caption_of ps i p);
    rewrite runs_style_tail, runs_heading_step, map_map.
  - unfold caption_style.
    change (runs (set_line_spacing_rule SINGLE ?x)) with (runs x).
    cbn [set_space_after set_space_before with_format with_runs runs].
    rewrite runs_base_spacing, map_map. apply map_ext. intros r.
    now rewrite r_text_font_run.
  - rewrite runs_base_spacing. apply map_ext. intros r.
    now rewrite r_text_font_run.
Qed.

Lemma tables_update i f body : tables (update_paragraph i f body) = tables body.
Proof.
  revert i. induction body as [|b body IH]; intros i; [reflexivity|].
  destruct b; simpl; rewrite ?IH; try reflexivity.
  destruct i; simpl; [reflexivity|apply IH].
Qed.

Lemma tables_toc body : tables (toc_heading_style body) = tables body.
Proof.
  induction body as [|b body IH]; [reflexivity|].
  destruct b; simpl; now rewrite IH.
Qed.

Lemma length_update i f body :
  List.length (update_paragraph i f body) = List.length body.
Proof.
  revert i. induction body as [|b body IH]; intros i; [reflexivity|].
  destruct b; simpl; rewrite ?IH; try reflexivity.
  destruct i; simpl; [reflexivity|now rewrite IH].
Qed.

Lemma styling_turn_frame cfg body i :
  tables (styling_turn cfg body i) = tables body
  /\ List.length (styling_turn cfg body i) = List.length body.
Proof.
  unfold styling_turn.
  destruct (nth_error (paragraphs body) i) as [p|]; [|now split].
  destruct (style_head cfg (paragraphs body) i (classify p) p) as [q c].
  rewrite !tables_update, tables_toc, tables_update.
  unfold toc_heading_style.
  now rewrite !length_update, length_map, length_update.
Qed.

Lemma styling_frame cfg body :
  tables (styling cfg body) = tables body
  /\ List.length (styling cfg body) = List.length body.
Proof.
  unfold styling. generalize (seq 0 (List.length (paragraphs body))) as l.
  intros l. revert body. induction l as [|i l IH]; intros body; [now split|].
  cbn [fold_left]. destruct (IH (styling_turn cfg body i)) as [T L].
  destruct (styling_turn_frame cfg body i) as [T' L'].
  split; congruence.
Qed.

(** X1.  The styling pass changes formatting only: the document keeps its
    number of blocks and its tables, and every paragraph keeps its style
    name, the text of each of its runs and its embedded objects. *)
Theorem styling_keeps_content (cfg : Config) (body : Body) :
  List.length (styling cfg body) = List.length body
  /\ tables (styling cfg body) = tables body
  /\ map content (paragraphs (styling cfg body)) = map content (paragraphs body)
  /\ map text (paragraphs (styling cfg body)) = map text (paragraphs body).
Proof.
  destruct (styling_frame cfg body) as [T L].
  split; [exact L|]. split; [exact T|].
  split; [apply styling_paragraphs_map, content_style_paragraph|].
  apply styling_paragraphs_map. intros ps i p.
  pose proof (content_style_paragraph cfg ps i p) as C.
  unfold content in C. injection C as _ C _.
  unfold text. now rewrite C.
Qed.

End StylingEveryParagraph.

Section StylingByCategory.
Import PyStr Docx DocxMore.

Lemma adj_is_code_before ps i :
  _adj_is_code ps (Z.of_nat i - 1) = code_before ps i.
Proof.
  unfold _adj_is_code, code_before. destruct i as [|k].
  - reflexivity.
  - replace (Z.of_nat (S k) - 1)%Z with (Z.of_nat k) by lia.
    rewrite Nat2Z.id.
    destruct (Z.ltb_spec (Z.of_nat k) 0); [lia|]. cbn [orb].
    destruct (Z.geb_spec (Z.of_nat k) (Z.of_nat (List.length ps)));
      [|reflexivity].
    assert (E : nth_error ps k = None) by (apply nth_error_None; lia).
    now rewrite E.
Qed.

Lemma adj_is_code_after ps i :
  _adj_is_code ps (Z.of_nat i + 1) = code_after ps i.
Proof.
  unfold _adj_is_code, code_after.
  replace (Z.of_nat i + 1)%Z with (Z.of_nat (S i)) by lia.
  rewrite Nat2Z.id.
  destruct (Z.ltb_spec (Z.of_nat (S i)) 0); [lia|]. cbn [orb].
  destruct (Z.geb_spec (Z.of_nat (S i)) (Z.of_nat (List.length ps)));
    [|reflexivity].
  assert (E : nth_error ps (S i) = None) by (apply nth_error_None; lia).
  now rewrite E.
Qed.

(** The paragraph-level formatting after the loop body, by the flags. *)
Lemma style_paragraph_unfold cfg ps i p :
  style_paragraph cfg ps i p
  = style_tail cfg ps i (classify p) (caption_of ps i p)
      (heading_step (style_name p)
         (if caption_of ps i p then caption_style cfg (base_spacing p)
          else base_spacing p)).
Proof.
  unfold style_paragraph. rewrite style_head_caption_of.
  now destruct (caption_of ps i p).
Qed.

Lemma list_final cfg ps i p :
  is_list_paragraph p = true ->
  let p' := style_paragraph cfg ps i p in
  space_before (format p') = Some (Pt 0)
  /\ space_after (format p') = Some (Pt 6)
  /\ spacing_line (format p') = Some (LineFactor 116)
  /\ spacing_lineRule (format p') = Some MULTIPLE
  /\ ind (pPr p') = [] /\ tabs (pPr p') = [].
Proof.
  intros Hl. cbv zeta. rewrite style_paragraph_unfold.
  unfold style_tail, alignment_step.
  cbn [classify is_code is_list is_heading f_has_image f_style_name].
  rewrite Hl.
  destruct (is_code_style (style_name p)), (has_image p),
           (String.eqb (text_align cfg) "justify");
    repeat split; reflexivity.
Qed.

Lemma alignment_final cfg ps i p :
  alignment (format (style_paragraph cfg ps i p)) = Some (alignment_of cfg p).
Proof.
  rewrite style_paragraph_unfold.
  unfold style_tail, alignment_step, alignment_of.
  cbn [classify is_code is_list is_heading f_has_image f_style_name].
  destruct (is_code_style (style_name p)), (has_image p),
           (String.eqb (text_align cfg) "justify"),
           (is_list_paragraph p); reflexivity.
Qed.

Lemma code_final cfg ps i p :
  is_code_style (style_name p) = true ->
  let p' := style_paragraph cfg ps i p in
  let first := negb (code_before ps i) in
  let last := negb (code_after ps i) in
  map (get_attr "w:fill") (shd (pPr p')) = [Some "F2F2F2"%string]
  /\ (exists borders,
        pBdr (pPr p') = [borders]
        /\ map leaf_tag borders
           = ["w:left"; "w:right"]
             ++ (if first then ["w:top"] else [])
             ++ (if last then ["w:bottom"] else [])
        /\ Forall (fun b => get_attr "w:val" (leaf_attrs b) = Some "none"%string
                            /\ get_attr "w:sz" (leaf_attrs b) = Some "0"%string)
                  borders)
  /\ Forall (fun r => font_size r = Some (Pt (font_size_code cfg))) (runs p')
  /\ (is_list_paragraph p = false ->
      space_before (format p') = Some (if first then Pt 12 else Pt 0)
      /\ space_after (format p') = Some (if last then Pt 9 else Pt 0)
      /\ map (fun a => (get_attr "w:left" a, get_attr "w:right" a)) (ind (pPr p'))
         = [(Some "180", Some "180")]%string)
  /\ (is_list_paragraph p = true -> ind (pPr p') = []).
Proof.
  intros Hc. cbv zeta. rewrite style_paragraph_unfold.
  split; [|split; [|split; [|split]]].
  - unfold style_tail, alignment_step.
    cbn [classify is_code is_list is_heading f_has_image f_style_name].
    rewrite Hc. destruct (is_list_paragraph p); reflexivity.
  - unfold style_tail, alignment_step, code_step.
    cbn [classify is_code is_list is_heading f_has_image f_style_name].
    rewrite Hc, adj_is_code_before, adj_is_code_after.
    eexists. split.
    + destruct (is_list_paragraph p); reflexivity.
    + split.
      * destruct (code_before ps i), (code_after ps i); reflexivity.
      * destruct (code_before ps i), (code_after ps i);
          repeat constructor.
  - rewrite runs_style_tail.
    cbn [classify is_code is_heading f_style_name]. rewrite Hc.
    apply Forall_forall. intros r Hr. apply in_map_iff in Hr as (r0 & <- & _).
    unfold font_run. cbn [negb].
    destruct (is_heading_style (style_name p)); reflexivity.
  - intros Hl. unfold style_tail, alignment_step, code_step.
    cbn [classify is_code is_list is_heading f_has_image f_style_name].
    rewrite Hc, Hl, adj_is_code_before, adj_is_code_after.
    destruct (code_before ps i), (code_after ps i); repeat split; reflexivity.
  - intros Hl. unfold style_tail, alignment_step.
    cbn [classify is_code is_list is_heading f_has_image f_style_name].
    rewrite Hc, Hl. reflexivity.
Qed.

Lemma heading_final cfg ps i p :
  is_heading_style (style_name p) = true ->
  is_code_style (style_name p) = false ->
  let p' := style_paragraph cfg ps i p in
  Forall (fun r => font_color r = Some accent_blue
                   /\ font_name r = Some (font_family cfg)) (runs p')
  /\ page_break_before (format p')
     = Some (String.eqb (style_name p) "Heading 1")
  /\ (style_name p = "Heading 1"%string ->
      Forall (fun r => font_size r = Some (Pt 18)) (runs p'))
  /\ (style_name p <> "Heading 1"%string -> caption_of ps i p = false ->
      map font_size (runs p') = map font_size (runs p))
  /\ (is_list_paragraph p = false ->
      space_before (format p') = Some (Pt 12)
      /\ space_after (format p') = Some (Pt 6)).
Proof.
  intros Hh Hc. cbv zeta. rewrite style_paragraph_unfold.
  split; [|split; [|split; [|split]]].
  - rewrite runs_style_tail.
    cbn [classify is_code is_heading f_style_name]. rewrite Hc, Hh.
    apply Forall_forall. intros r Hr. apply in_map_iff in Hr as (r0 & <- & _).
    unfold font_run. cbn [negb].
    destruct (String.eqb (style_name p) "Heading 1"); split; reflexivity.
  - unfold style_tail, alignment_step, heading_step.
    cbn [classify is_code is_list is_heading f_has_image f_style_name].
    rewrite Hc, Hh.
    destruct (is_list_paragraph p), (has_image p),
             (String.eqb (text_align cfg) "justify"); reflexivity.
  - intros E1. rewrite runs_style_tail.
    cbn [classify is_code is_heading f_style_name]. rewrite Hc, Hh.
    apply Forall_forall. intros r Hr. apply in_map_iff in Hr as (r0 & <- & _).
    unfold font_run. cbn [negb]. rewrite E1. reflexivity.
  - intros N1 Hcap. rewrite runs_style_tail, runs_heading_step, Hcap.
    rewrite runs_base_spacing, map_map.
    cbn [classify is_code is_heading f_style_name]. rewrite Hc, Hh.
    apply map_ext. intros r. unfold font_run. cbn [negb].
    destruct (String.eqb_spec (style_name p) "Heading 1"); [contradiction|].
    reflexivity.
  - intros Hl. unfold style_tail, alignment_step, heading_step.
    cbn [classify is_code is_list is_heading f_has_image f_style_name].
    rewrite Hc, Hh, Hl.
    destruct (has_image p), (String.eqb (text_align cfg) "justify");
      split; reflexivity.
Qed.

Lemma body_final cfg ps i p :
  is_code_style (style_name p) = false ->
  is_heading_style (style_name p) = false ->
  is_list_paragraph p = false ->
  caption_of ps i p = false ->
  let p' := style_paragraph cfg ps i p in
  Forall (fun r => font_size r = Some (Pt (font_size_body cfg))
                   /\ font_name r = Some (font_family cfg)) (runs p')
  /\ space_before (format p') = Some (Pt 9)
  /\ space_after (format p') = Some (Pt 9)
  /\ (has_image p = false -> has_math p = false ->
      spacing_line (format p') = Some (LineLength (Pt 16))
      /\ spacing_lineRule (format p') = Some EXACTLY)
  /\ (has_image p || has_math p = true ->
      spacing_line (format p') = spacing_line (format p)
      /\ spacing_lineRule (format p') = spacing_lineRule (format p)).
Proof.
  intros Hc Hh Hl Hcap. cbv zeta. rewrite style_paragraph_unfold, Hcap.
  split; [|split; [|split; [|split]]].
  - rewrite runs_style_tail, runs_heading_step, runs_base_spacing.
    cbn [classify is_code is_heading f_style_name]. rewrite Hc, Hh.
    apply Forall_forall. intros r Hr. apply in_map_iff in Hr as (r0 & <- & _).
    split; reflexivity.
  - unfold style_tail, alignment_step, heading_step, base_spacing,
      set_line_spacing_length.
    cbn [classify is_code is_list is_heading f_has_image f_style_name].
    rewrite Hc, Hh, Hl.
    destruct (has_image p), (has_math p),
             (String.eqb (text_align cfg) "justify"); reflexivity.
  - unfold style_tail, alignment_step, heading_step, base_spacing,
      set_line_spacing_length.
    cbn [classify is_code is_list is_heading f_has_image f_style_name].
    rewrite Hc, Hh, Hl.
    destruct (has_image p), (has_math p),
             (String.eqb (text_align cfg) "justify"); reflexivity.
  - intros Hi Hm.
    unfold style_tail, alignment_step, heading_step, base_spacing,
      set_line_spacing_length.
    cbn [classify is_code is_list is_heading f_has_image f_style_name].
    rewrite Hc, Hh, Hl, Hi, Hm.
    destruct (String.eqb (text_align cfg) "justify"); split; reflexivity.
  - intros Him.
    unfold style_tail, alignment_step, heading_step, base_spacing.
    cbn [classify is_code is_list is_heading f_has_image f_style_name].
    rewrite Hc, Hh, Hl.
    destruct (has_image p), (has_math p); try discriminate;
      destruct (String.eqb (text_align cfg) "justify"); split; reflexivity.
Qed.

(** X2.  After the styling pass every list item (a style name with
    [List] or [Compact], or a numbering property) has 0pt before and 6pt
    after, line spacing of 1.16 lines, and no paragraph-level indent or
    tab stops, whatever else the paragraph is. *)
Theorem list_items_after_styling :
  forall (cfg : Config) (body : Body) (i : nat) (p : Paragraph),
    nth_error (paragraphs body) i = Some p ->
    is_list_paragraph p = true ->
    exists p',
      nth_error (paragraphs (styling cfg body)) i = Some p'
      /\ space_before (format p') = Some (Pt 0)
      /\ space_after (format p') = Some (Pt 6)
      /\ spacing_line (format p') = Some (LineFactor 116)
      /\ spacing_lineRule (format p') = Some MULTIPLE
      /\ ind (pPr p') = [] /\ tabs (pPr p') = [].
Proof.
  intros cfg body i p Hp Hl. exists (style_paragraph cfg (paragraphs body) i p).
  split; [now apply styling_paragraph|].
  now apply list_final.
Qed.

Lemma list_items_after_styling_witness :
  exists p',
    nth_error (paragraphs (styling default_config
                             [BPara (plain_paragraph "List Bullet" "item")])) 0
    = Some p'
    /\ space_after (format p') = Some (Pt 6).
Proof.
  destruct (list_items_after_styling default_config
              [BPara (plain_paragraph "List Bullet" "item")] 0
              (plain_paragraph "List Bullet" "item") eq_refl eq_refl)
    as (p' & Hp' & _ & Ha & _).
  exists p'. split; assumption.
Defined.

(** X3.  After the styling pass every code-styled paragraph has the grey
    fill F2F2F2, one border element whose borders are all invisible
    (style none, size 0): left and right always, top only when the
    paragraph before is not code (or there is none), bottom only when the
    paragraph after is not code (or there is none); its runs have the
    code font size.  Unless it is also a list item, it has 12pt before
    only as first and 9pt after only as last of its block, 0pt otherwise,
    and a 180/180 indent; a code paragraph that is a list item loses the
    indent again. *)
Theorem code_blocks_after_styling :
  forall (cfg : Config) (body : Body) (i : nat) (p : Paragraph),
    nth_error (paragraphs body) i = Some p ->
    is_code_style (style_name p) = true ->
    exists p',
      nth_error (paragraphs (styling cfg body)) i = Some p'
      /\ map (get_attr "w:fill") (shd (pPr p')) = [Some "F2F2F2"%string]
      /\ (exists borders,
            pBdr (pPr p') = [borders]
            /\ map leaf_tag borders
               = ["w:left"; "w:right"]
                 ++ (if code_before (paragraphs body) i then [] else ["w:top"])
                 ++ (if code_after (paragraphs body) i then [] else ["w:bottom"])
            /\ Forall (fun b =>
                         get_attr "w:val" (leaf_attrs b) = Some "none"%string
                         /\ get_attr "w:sz" (leaf_attrs b) = Some "0"%string)
                      borders)
      /\ Forall (fun r => font_size r = Some (Pt (font_size_code cfg))) (runs p')
      /\ (is_list_paragraph p = false ->
          space_before (format p')
          = Some (if code_before (paragraphs body) i then Pt 0 else Pt 12)
          /\ space_after (format p')
             = Some (if code_after (paragraphs body) i then Pt 0 else Pt 9)
          /\ map (fun a => (get_attr "w:left" a, get_attr "w:right" a))
                 (ind (pPr p'))
             = [(Some "180", Some "180")]%string)
      /\ (is_list_paragraph p = true -> ind (pPr p') = []).
Proof.
  intros cfg body i p Hp Hc. exists (style_paragraph cfg (paragraphs body) i p).
  split; [now apply styling_paragraph|].
  destruct (code_final cfg (paragraphs body) i p Hc)
    as (H1 & (borders & B1 & B2 & B3) & H3 & H4 & H5).
  split; [exact H1|]. split.
  - exists borders. split; [exact B1|]. split; [|exact B3].
    rewrite B2. now destruct (code_before _ _), (code_after _ _).
  - split; [exact H3|]. split; [|exact H5].
    intros Hl. destruct (H4 Hl) as (S1 & S2 & S3).
    rewrite S1, S2. split; [|split; [|exact S3]].
    + now destruct (code_before _ _).
    + now destruct (code_after _ _).
Qed.

Lemma code_blocks_after_styling_witness :
  exists p',
    nth_error (paragraphs (styling default_config
                             [BPara (code_paragraph "x = 1");
                              BPara (code_paragraph "y = 2")])) 1
    = Some p'
    /\ space_before (format p') = Some (Pt 0)
    /\ space_after (format p') = Some (Pt 9).
Proof.
  destruct (code_blocks_after_styling default_config
              [BPara (code_paragraph "x = 1"); BPara (code_paragraph "y = 2")]
              1 (code_paragraph "y = 2") eq_refl eq_refl)
    as (p' & Hp' & _ & _ & _ & H & _).
  exists p'. split; [exact Hp'|].
  destruct (H eq_refl) as (S1 & S2 & _). split; assumption.
Defined.

(** X4.  After the styling pass every run of a heading paragraph (style
    name starting with [Heading], not code) has the accent colour 4F81BD
    and the body font family; a page break before is set exactly for
    [Heading 1], whose runs are 18pt; the runs of any other heading keep
    the size they had (unless it is a caption); unless the heading is a
    list item its spacing is 12pt before and 6pt after. *)
Theorem headings_after_styling :
  forall (cfg : Config) (body : Body) (i : nat) (p : Paragraph),
    nth_error (paragraphs body) i = Some p ->
    is_heading_style (style_name p) = true ->
    is_code_style (style_name p) = false ->
    exists p',
      nth_error (paragraphs (styling cfg body)) i = Some p'
      /\ Forall (fun r => font_color r = Some (RGB 79 129 189)
                          /\ font_name r = Some (font_family cfg)) (runs p')
      /\ page_break_before (format p')
         = Some (String.eqb (style_name p) "Heading 1")
      /\ (style_name p = "Heading 1"%string ->
          Forall (fun r => font_size r = Some (Pt 18)) (runs p'))
      /\ (style_name p <> "Heading 1"%string ->
          caption_of (paragraphs body) i p = false ->
          map font_size (runs p') = map font_size (runs p))
      /\ (is_list_paragraph p = false ->
          space_before (format p') = Some (Pt 12)
          /\ space_after (format p') = Some (Pt 6)).
Proof.
  intros cfg body i p Hp Hh Hc. exists (style_paragraph cfg (paragraphs body) i p).
  split; [now apply styling_paragraph|]. now apply heading_final.
Qed.

Lemma headings_after_styling_witness :
  exists p',
    nth_error (paragraphs (styling default_config
                             [BPara (plain_paragraph "Heading 1" "Report")])) 0
    = Some p'
    /\ page_break_before (format p') = Some true.
Proof.
  destruct (headings_after_styling default_config
              [BPara (plain_paragraph "Heading 1" "Report")] 0
              (plain_paragraph "Heading 1" "Report") eq_refl eq_refl eq_refl)
    as (p' & Hp' & _ & Hb & _).
  exists p'. split; assumption.
Defined.

(** X5.  After the styling pass a paragraph that is neither code, heading,
    list item nor caption has every run at the body font size and family
    and 9pt before and after; with no image and no math in it the line
    spacing is exactly 16pt, and with an image or math the line spacing
    it had is kept. *)
Theorem body_text_after_styling :
  forall (cfg : Config) (body : Body) (i : nat) (p : Paragraph),
    nth_error (paragraphs body) i = Some p ->
    is_code_style (style_name p) = false ->
    is_heading_style (style_name p) = false ->
    is_list_paragraph p = false ->
    caption_of (paragraphs body) i p = false ->
    exists p',
      nth_error (paragraphs (styling cfg body)) i = Some p'
      /\ Forall (fun r => font_size r = Some (Pt (font_size_body cfg))
                          /\ font_name r = Some (font_family cfg)) (runs p')
      /\ space_before (format p') = Some (Pt 9)
      /\ space_after (format p') = Some (Pt 9)
      /\ (has_image p = false -> has_math p = false ->
          spacing_line (format p') = Some (LineLength (Pt 16))
          /\ spacing_lineRule (format p') = Some EXACTLY)
      /\ (has_image p || has_math p = true ->
          spacing_line (format p') = spacing_line (format p)
          /\ spacing_lineRule (format p') = spacing_lineRule (format p)).
Proof.
  intros cfg body i p Hp Hc Hh Hl Hcap. exists (style_paragraph cfg (paragraphs body) i p).
  split; [now apply styling_paragraph|]. now apply body_final.
Qed.

Lemma body_text_after_styling_witness :
  exists p',
    nth_error (paragraphs (styling default_config
                             [BPara (plain_paragraph "Normal" "Some text.")])) 0
    = Some p'
    /\ spacing_line (format p') = Some (LineLength (Pt 16)).
Proof.
  destruct (body_text_after_styling default_config
              [BPara (plain_paragraph "Normal" "Some text.")] 0
              (plain_paragraph "Normal" "Some text.")
              eq_refl eq_refl eq_refl eq_refl eq_refl)
    as (p' & Hp' & _ & _ & _ & H & _).
  exists p'. split; [exact Hp'|]. now destruct (H eq_refl eq_refl).
Defined.

(** X6.  After the styling pass every paragraph is aligned: code is left
    aligned; otherwise a paragraph with an image is centred; otherwise
    the text is justified when [text_align] is [justify] and left
    aligned for any other value. *)
Theorem alignment_after_styling :
  forall (cfg : Config) (body : Body) (i : nat) (p : Paragraph),
    nth_error (paragraphs body) i = Some p ->
    exists p',
      nth_error (paragraphs (styling cfg body)) i = Some p'
      /\ alignment (format p')
         = Some (if is_code_style (style_name p) then LEFT
                 else if has_image p then CENTER
                 else if String.eqb (text_align cfg) "justify" then JUSTIFY
                 else LEFT).
Proof.
  intros cfg body i p Hp. exists (style_paragraph cfg (paragraphs body) i p).
  split; [now apply styling_paragraph|].
  apply alignment_final.
Qed.

Lemma alignment_after_styling_witness :
  exists p',
    nth_error (paragraphs (styling default_config [BPara picture_paragraph])) 0
    = Some p'
    /\ alignment (format p') = Some CENTER.
Proof.
  destruct (alignment_after_styling default_config [BPara picture_paragraph]
              0 picture_paragraph eq_refl) as (p' & Hp' & Ha).
  exists p'. split; assumption.
Defined.

End StylingByCategory.

(* ===================================================================== *)
(** * The cover page, the tables and the whole styling of a body *)
(* ===================================================================== *)

Section CoverPage.
Import PyStr Docx DocxMore.

Lemma drop_paragraphs_shift d k body :
  drop_paragraphs d (S k) body = drop_paragraphs (shift d) k body.
Proof.
  revert k. induction body as [|b body IH]; intros k; [reflexivity|].
  destruct b; simpl; now rewrite IH.
Qed.

Lemma prev_nonblank_cons c ps n :
  is_blank c = false -> n <= List.length ps ->
  prev_nonblank (c :: ps) (S n)
  = match prev_nonblank ps n with
    | Some j => Some (S j)
    | None => Some 0
    end.
Proof.
  intros Hc. induction n as [|n IH]; intros Hn.
  - simpl. now rewrite Hc.
  - change (prev_nonblank (c :: ps) (S (S n)))
      with (match nth_error ps n with
            | Some p => if is_blank p then prev_nonblank (c :: ps) (S n)
                        else Some (S n)
            | None => None
            end).
    cbn [prev_nonblank].
    destruct (nth_error ps n) as [p|] eqn:E.
    + destruct (is_blank p); [apply IH; lia|reflexivity].
    + apply nth_error_None in E. lia.
Qed.

Lemma removes_cons c ps i :
  is_blank c = false -> is_rule c = false ->
  style_name c <> "Heading 1"%string ->
  removes (c :: ps) 0 = false
  /\ removes (c :: ps) (S i) = removes ps i.
Proof.
  intros Hb Hr Hs. split; [unfold removes; simpl; now rewrite Hr|].
  unfold removes. cbn [nth_error].
  destruct (nth_error ps i) as [p|] eqn:E; [|reflexivity].
  destruct (is_rule p); [|reflexivity].
  assert (i <= List.length ps).
  { apply Nat.lt_le_incl, nth_error_Some. congruence. }
  rewrite prev_nonblank_cons by assumption.
  destruct (prev_nonblank ps i) as [j|]; [reflexivity|].
  cbn [nth_error]. now apply String.eqb_neq.
Qed.

Lemma paragraphs_drop_nonempty d body :
  d 0 = false -> paragraphs body <> [] ->
  paragraphs (drop_paragraphs d 0 body) <> [].
Proof.
  intros Hd. induction body as [|b body IH]; [easy|].
  destruct b; simpl; try exact IH.
  rewrite Hd. simpl. discriminate.
Qed.

Lemma removes_first ps : removes ps 0 = false.
Proof.
  unfold removes. destruct (nth_error ps 0); [|reflexivity].
  now destruct (is_rule p).
Qed.

Lemma paragraphs_drop_empty d k body :
  paragraphs body = [] -> drop_paragraphs d k body = body.
Proof.
  revert k. induction body as [|b body IH]; intros k H; [reflexivity|].
  destruct b; simpl in *; try discriminate; f_equal; now apply IH.
Qed.

Lemma paragraphs_cleanup_nonempty body :
  Nat.ltb 0 (List.length (paragraphs (cleanup body)))
  = Nat.ltb 0 (List.length (paragraphs body)).
Proof.
  rewrite cleanup_drop_paragraphs.
  destruct (paragraphs body) as [|p ps] eqn:E.
  - rewrite paragraphs_drop_empty by assumption. now rewrite E.
  - assert (N : paragraphs (drop_paragraphs (removes (p :: ps)) 0 body) <> []).
    { apply paragraphs_drop_nonempty; [apply removes_first|].
      rewrite E. discriminate. }
    now destruct (paragraphs (drop_paragraphs (removes (p :: ps)) 0 body)).
Qed.

Lemma cleanup_cover_para body :
  cleanup (BPara cover_para :: body) = BPara cover_para :: cleanup body.
Proof.
  rewrite !cleanup_drop_paragraphs. cbn [paragraphs drop_paragraphs].
  destruct (removes_cons cover_para (paragraphs body) 0) as [H0 _];
    [reflexivity|reflexivity|discriminate|].
  rewrite H0. cbn [app]. f_equal.
  rewrite drop_paragraphs_shift. apply drop_paragraphs_ext.
  intros i _. unfold shift.
  now destruct (removes_cons cover_para (paragraphs body) i) as [_ H];
    [reflexivity|reflexivity|discriminate|].
Qed.

Lemma cleanup_cover_page toc body :
  cleanup (cover_page toc body) = cover_page toc (cleanup body).
Proof.
  unfold cover_page. rewrite paragraphs_cleanup_nonempty.
  destruct (toc && Nat.ltb 0 (List.length (paragraphs body)));
    [apply cleanup_cover_para|reflexivity].
Qed.

(** X7.  The cover page and the cleanup pass do not interfere: the
    cover paragraph is never removed, it never makes the pass remove or
    keep another paragraph, and a cover page is inserted before the
    cleanup exactly when one would be inserted after it. *)
Theorem cover_page_commutes_with_cleanup :
  forall (include_toc : bool) (body : Body),
    cleanup (cover_page include_toc body)
    = cover_page include_toc (cleanup body)
    /\ paragraphs (cleanup (BPara cover_para :: body))
       = cover_para :: paragraphs (cleanup body).
Proof.
  intros toc body. split; [apply cleanup_cover_page|].
  now rewrite cleanup_cover_para.
Qed.

End CoverPage.

Section TablesMore.
Import PyStr Docx DocxMore.

Lemma r_text_cell_run cfg i r : r_text (cell_run cfg i r) = r_text r.
Proof. unfold cell_run. now destruct (Nat.eqb i 0). Qed.

Lemma cell_texts_format_cell cfg i c :
  cell_texts (format_cell cfg i c) = cell_texts c.
Proof.
  unfold cell_texts, format_cell. cbn [cell_paragraphs].
  rewrite map_map. apply map_ext. intros p.
  cbn [cell_paragraph with_runs runs]. rewrite map_map.
  apply map_ext. intros r. apply r_text_cell_run.
Qed.

Lemma table_texts_format_rows cfg k rs :
  map (map cell_texts) (format_rows cfg k rs) = map (map cell_texts) rs.
Proof.
  revert k. induction rs as [|row rs IH]; intros k; [reflexivity|].
  cbn [format_rows map]. rewrite IH. f_equal.
  rewrite map_map. apply map_ext. intros c. apply cell_texts_format_cell.
Qed.

Lemma in_cells_format_rows cfg rs : forall k c',
  In c' (List.concat (format_rows cfg k rs)) ->
  exists i c, c' = format_cell cfg i c /\ In c (List.concat rs).
Proof.
  induction rs as [|row rs IH]; intros k c'; [easy|].
  cbn [format_rows List.concat]. rewrite !in_app_iff. intros [H|H].
  - apply in_map_iff in H as (c & <- & Hc). exists k, c.
    split; [reflexivity|]. apply in_or_app. now left.
  - destruct (IH _ _ H) as (i & c & -> & Hc). exists i, c.
    split; [reflexivity|]. apply in_or_app. now right.
Qed.

(** X9.  For a table whose rows list every cell once (no merged
    cells): the table step keeps the texts and the shape of the table
    (rows, cells, paragraphs, runs); it replaces the table borders by
    six single borders of size 4 in the accent colour and the default
    cell margins by 58/58/115/115; the style becomes [Table Grid] only
    when the document has that style; automatic fitting is switched off
    when [resize_tables] is set and left as it was otherwise.  In every
    cell the borders and margins of the cell are removed, every
    paragraph loses its shading and every run gets the table font size
    and family; each cell gets one more vertical-alignment element
    [center] after those it had, so a second application does not give
    the same table. *)
Theorem table_step_keeps_texts_and_resets_cells :
  forall (cfg : Config) (has_grid : bool) (t : Table),
    let t' := format_table cfg has_grid t in
    table_texts t' = table_texts t
    /\ map (map leaf_tag) (tblBorders t')
       = [["w:top"; "w:left"; "w:bottom"; "w:right"; "w:insideH";
           "w:insideV"]]%string
    /\ Forall (Forall (fun b =>
                 leaf_attrs b
                 = [("w:val", "single"); ("w:sz", "4"); ("w:space", "0");
                    ("w:color", "4F81BD")]%string))
              (tblBorders t')
    /\ map (map (fun m => (leaf_tag m, get_attr "w:w" (leaf_attrs m))))
           (tblCellMar t')
       = [[("w:top", Some "58"); ("w:bottom", Some "58");
           ("w:left", Some "115"); ("w:right", Some "115")]]%string
    /\ table_style t'
       = (if has_grid then Some "Table Grid"%string else table_style t)
    /\ autofit t' = (if resize_tables cfg then false else autofit t)
    /\ (forall c', In c' (cells t') ->
          tcBorders c' = [] /\ tcMar c' = []
          /\ (exists c, In c (cells t)
                        /\ map (get_attr "w:val") (vAlign c')
                           = (map (get_attr "w:val") (vAlign c)
                              ++ [Some "center"%string])%list)
          /\ forall p, In p (cell_paragraphs c') ->
               shd (pPr p) = []
               /\ Forall (fun r =>
                            font_size r = Some (Pt (font_size_table cfg))
                            /\ font_name r = Some (font_family cfg))
                         (runs p))
    /\ (cells t <> [] -> format_table cfg has_grid t' <> t').
Proof.
  intros cfg g t. cbv zeta.
  split; [apply table_texts_format_rows|].
  split; [reflexivity|].
  split; [repeat constructor|].
  split; [reflexivity|]. split; [reflexivity|]. split; [reflexivity|].
  split.
  - intros c' Hc'. unfold cells in Hc'. cbn [format_table rows] in Hc'.
    apply in_cells_format_rows in Hc' as (i & c & -> & Hc).
    split; [reflexivity|]. split; [reflexivity|]. split.
    + exists c. split; [exact Hc|]. cbn [format_cell vAlign].
      now rewrite map_app.
    + intros p Hp. cbn [format_cell cell_paragraphs] in Hp.
      apply in_map_iff in Hp as (p0 & <- & _). split; [reflexivity|].
      cbn [cell_paragraph with_runs runs]. apply Forall_forall.
      intros r Hr. apply in_map_iff in Hr as (r0 & <- & _).
      unfold cell_run. now destruct (Nat.eqb i 0).
  - intros Hne E.
    assert (L : forall c, List.length (vAlign (format_cell cfg 0 c))
                          = S (List.length (vAlign c))).
    { intros c. cbn [format_cell vAlign]. rewrite length_app. simpl. lia. }
    assert (R : rows (format_table cfg g (format_table cfg g t))
                = rows (format_table cfg g t)) by now rewrite E.
    cbn [format_table rows] in R.
    unfold cells in Hne. destruct (rows t) as [|row rs] eqn:Er; [easy|].
    clear E.
    assert (G : forall k rs0,
               List.concat rs0 <> [] ->
               format_rows cfg k (format_rows cfg k rs0)
               <> format_rows cfg k rs0).
    { intros k rs0. revert k.
      induction rs0 as [|r0 rs0 IH]; intros k Hn; [easy|].
      cbn [format_rows]. intros [= E1 E2].
      destruct r0 as [|c r0].
      - apply (IH (S k)); [exact Hn|exact E2].
      - apply (f_equal (fun l => match l with
                                 | x :: _ => List.length (vAlign x)
                                 | [] => 0
                                 end)) in E1.
        cbn [map format_cell vAlign] in E1. rewrite !length_app in E1.
        simpl in E1. lia. }
    exact (G 0 (row :: rs) Hne R).
Qed.

Lemma table_step_keeps_texts_and_resets_cells_witness :
  table_texts (format_table default_config true shaded_table)
  = [[[["n"%string]]]; [[["7"%string]]]]
  /\ format_table default_config true
       (format_table default_config true shaded_table)
     <> format_table default_config true shaded_table.
Proof.
  destruct (table_step_keeps_texts_and_resets_cells
              default_config true shaded_table)
    as (H1 & _ & _ & _ & _ & _ & _ & H8).
  split; [rewrite H1; reflexivity|].
  apply H8. discriminate.
Defined.

End TablesMore.

Section WholeStyling.
Import PyStr Docx DocxMore.

Lemma paragraphs_format_tables cfg g body :
  paragraphs (format_tables cfg g body) = paragraphs body.
Proof.
  induction body as [|b body IH]; [reflexivity|].
  destruct b; simpl; now rewrite IH.
Qed.

Lemma tables_cover_page toc body :
  tables (cover_page toc body) = tables body.
Proof.
  unfold cover_page.
  now destruct (toc && Nat.ltb 0 (List.length (paragraphs body))).
Qed.

Lemma text_style_paragraph cfg ps i p :
  text (style_paragraph cfg ps i p) = text p.
Proof.
  pose proof (content_style_paragraph cfg ps i p) as H.
  unfold content in H. unfold text.
  assert (E : map r_text (runs (style_paragraph cfg ps i p))
              = map r_text (runs p)) by congruence.
  now rewrite E.
Qed.

(** X8.  What [_apply_styling] does to the body as a whole: the tables
    of the result are the formatted tables of the input, none added,
    dropped or reordered; its paragraphs are those the styling pass
    makes of the cleaned-up input, the table step leaving them alone;
    and the paragraph texts of the result are the cover line, when a
    cover page is inserted, followed by the texts of the paragraphs the
    cleanup keeps: no other text is added, lost or changed. *)
Theorem apply_styling_on_the_body :
  forall (cfg : Config) (include_toc has_grid : bool) (body : Body),
    let result := _apply_styling cfg include_toc has_grid body in
    tables result = map (format_table cfg has_grid) (tables body)
    /\ paragraphs result
       = paragraphs (styling cfg (cover_page include_toc (cleanup body)))
    /\ map text (paragraphs result)
       = ((if include_toc && Nat.ltb 0 (List.length (paragraphs body))
           then ["INSERT YOUR COVER PAGE HERE"%string] else [])
          ++ map text (paragraphs (cleanup body)))%list
    /\ List.length result
       = List.length (cover_page include_toc (cleanup body)).
Proof.
  intros cfg toc g body. cbv zeta. unfold _apply_styling.
  rewrite cleanup_cover_page.
  split.
  - rewrite tables_format_tables.
    destruct (styling_frame cfg (cover_page toc (cleanup body))) as [T _].
    rewrite T, tables_cover_page, cleanup_drop_paragraphs.
    now rewrite tables_drop_paragraphs.
  - split; [apply paragraphs_format_tables|]. split.
    + rewrite paragraphs_format_tables.
      rewrite (styling_paragraphs_map text)
        by (intros; apply text_style_paragraph).
      unfold cover_page. rewrite paragraphs_cleanup_nonempty.
      now destruct (toc && Nat.ltb 0 (List.length (paragraphs body))).
    + unfold format_tables. rewrite length_map.
      now destruct (styling_frame cfg (cover_page toc (cleanup body))).
Qed.

End WholeStyling.

(* ===================================================================== *)
(** * More on the Markdown normaliser *)
(* ===================================================================== *)

Section Lines.
Import PyStr.
Local Open Scope string_scope.

Lemma split_lines_nonempty s : split_lines s <> [].
Proof.
  destruct s as [|c s]; simpl; [discriminate|].
  destruct (Ascii.eqb c newline); [discriminate|].
  destruct (split_lines s); discriminate.
Qed.

Lemma join_cons x y l : join nl (x :: y :: l) = x ++ nl ++ join nl (y :: l).
Proof. reflexivity. Qed.

(** Splitting at line breaks and joining again gives the text back. *)
Lemma join_split_lines s : join nl (split_lines s) = s.
Proof.
  induction s as [|c s IH]; [reflexivity|].
  cbn [split_lines]. destruct (Ascii.eqb_spec c newline) as [->|Hc].
  - pose proof (split_lines_nonempty s) as N.
    destruct (split_lines s) as [|y l]; [congruence|].
    rewrite join_cons, IH. reflexivity.
  - pose proof (split_lines_nonempty s) as N.
    destruct (split_lines s) as [|y l]; [congruence|].
    destruct l as [|z l].
    + simpl in *. now rewrite IH.
    + rewrite join_cons in *. cbn [append]. now rewrite IH.
Qed.

Lemma split_lines_no_newline u :
  contains nl u = false -> split_lines u = [u].
Proof.
  induction u as [|c u IH]; intros H; [reflexivity|].
  apply contains_char_cons in H as [Hc H].
  cbn [split_lines]. destruct (Ascii.eqb_spec c newline); [contradiction|].
  now rewrite IH.
Qed.

(** A text that starts with a piece without line break: the piece
    belongs to the first line. *)
Lemma split_lines_app u r :
  contains nl u = false ->
  split_lines (u ++ r)
  = (u ++ hd EmptyString (split_lines r)) :: tl (split_lines r).
Proof.
  induction u as [|c u IH]; intros H.
  - simpl. pose proof (split_lines_nonempty r).
    now destruct (split_lines r).
  - apply contains_char_cons in H as [Hc H].
    cbn [append split_lines].
    destruct (Ascii.eqb_spec c newline); [contradiction|].
    now rewrite IH.
Qed.

Lemma split_lines_break u r :
  contains nl u = false ->
  split_lines (u ++ nl ++ r) = u :: split_lines r.
Proof.
  intros H. rewrite split_lines_app by assumption.
  change (split_lines (nl ++ r)) with (EmptyString :: split_lines r).
  cbn [hd tl]. f_equal. clear H.
  induction u as [|c u IH]; [reflexivity|]. cbn [append]. now rewrite IH.
Qed.

(** Joining lines without line break and splitting again gives the
    lines back. *)
Lemma split_lines_join l :
  l <> [] -> Forall (fun x => contains nl x = false) l ->
  split_lines (join nl l) = l.
Proof.
  induction l as [|x l IH]; intros N H; [congruence|].
  inversion H as [|? ? Hx Hl]; subst.
  destruct l as [|y l].
  - simpl. now apply split_lines_no_newline.
  - rewrite join_cons, split_lines_break by assumption.
    f_equal. apply IH; [discriminate|assumption].
Qed.

Lemma contains_nl_cons c s :
  contains nl (String c s) = Ascii.eqb c newline || contains nl s.
Proof. simpl. now rewrite andb_true_r. Qed.

Lemma lines_no_newline s :
  Forall (fun x => contains nl x = false) (split_lines s).
Proof.
  induction s as [|c s IH]; [repeat constructor|].
  cbn [split_lines]. destruct (Ascii.eqb_spec c newline) as [->|Hc].
  - constructor; [reflexivity|exact IH].
  - pose proof (split_lines_nonempty s) as N.
    destruct (split_lines s) as [|y l]; [congruence|].
    inversion IH; subst. constructor; [|assumption].
    rewrite contains_nl_cons.
    destruct (Ascii.eqb_spec c newline); [contradiction|assumption].
Qed.

Lemma contains_nl_app u v :
  contains nl (u ++ v) = contains nl u || contains nl v.
Proof.
  induction u as [|c u IH]; [reflexivity|].
  cbn [append]. rewrite !contains_nl_cons, IH. now rewrite orb_assoc.
Qed.

Lemma first_line_prefix s :
  exists r, s = hd EmptyString (split_lines s) ++ r.
Proof.
  induction s as [|c s [r IH]]; [now exists EmptyString|].
  cbn [split_lines]. destruct (Ascii.eqb c newline).
  - now exists (String c s).
  - exists r. pose proof (split_lines_nonempty s) as N.
    destruct (split_lines s) as [|y l]; [congruence|].
    cbn [hd append] in *. now rewrite <- IH.
Qed.

End Lines.

Section CaptionsByLine.
Import PyStr Markdown.
Local Open Scope string_scope.

Lemma contains_char_false a c s :
  c <> a -> contains (String a EmptyString) s = false ->
  contains (String a EmptyString) (String c s) = false.
Proof.
  intros Hc H. simpl. rewrite andb_true_r.
  destruct (Ascii.eqb_spec c a); [contradiction|]. exact H.
Qed.

(** What the group of a match is, and where the match ends. *)
Lemma match_path_inv s g rest :
  match_path s = Some (g, rest) ->
  s = g ++ ")" ++ rest
  /\ contains ")" g = false /\ contains nl g = false.
Proof.
  revert g rest. induction s as [|c s IH]; intros g rest; [discriminate|].
  cbn [match_path]. destruct (Ascii.eqb_spec c ")"%char) as [->|Hc].
  - intros [= <- <-]. now split.
  - destruct (Ascii.eqb_spec c newline) as [|Hn]; [discriminate|].
    destruct (match_path s) as [[g1 r1]|] eqn:E; [|discriminate].
    intros [= <- <-]. destruct (IH _ _ eq_refl) as (-> & H1 & H2).
    split; [reflexivity|].
    split; now apply contains_char_false.
Qed.

(** A closing parenthesis after text without line break is reached. *)
Lemma match_path_reaches u x :
  contains nl u = false -> match_path (u ++ ")" ++ x) <> None.
Proof.
  induction u as [|c u IH]; intros H; [discriminate|].
  apply contains_char_cons in H as [Hc H].
  cbn [append match_path].
  destruct (Ascii.eqb c ")"%char); [discriminate|].
  destruct (Ascii.eqb_spec c newline); [contradiction|].
  specialize (IH H).
  change (u ++ String ")" x) with (u ++ ")" ++ x).
  now destruct (match_path (u ++ ")" ++ x)) as [[? ?]|].
Qed.

Lemma match_caption_inv s g rest :
  match_caption s = Some (g, rest) ->
  exists cap,
    s = cap ++ "](" ++ g ++ ")" ++ rest
    /\ contains nl cap = false /\ contains "](" cap = false
    /\ contains ")" g = false /\ contains nl g = false.
Proof.
  revert g rest. induction s as [|c s IH]; intros g rest.
  - rewrite match_caption_unfold. simpl. discriminate.
  - rewrite match_caption_unfold.
    destruct (match_close (String c s)) as [r|] eqn:E.
    + intros [= ->]. apply match_close_some in E as (x & E & P).
      apply match_path_inv in P as (-> & H1 & H2).
      exists EmptyString. now rewrite E.
    + destruct (Ascii.eqb_spec c newline) as [|Hn]; [discriminate|].
      intros H. destruct (IH _ _ H) as (cap & -> & H1 & H2 & H3 & H4).
      exists (String c cap). split; [reflexivity|].
      split; [now apply contains_char_false|].
      split; [|now split].
      cbn [contains]. rewrite H2, orb_false_r.
      destruct (startswith "](" (String c cap)) eqn:S; [|reflexivity].
      exfalso.
      destruct cap as [|b cap]; cbn [startswith] in S.
      * apply andb_true_iff in S as [_ S]. discriminate S.
      * apply andb_true_iff in S as [S1 S].
        apply andb_true_iff in S as [S2 _].
        apply Ascii.eqb_eq in S1 as ->. apply Ascii.eqb_eq in S2 as ->.
        apply contains_char_cons in H1 as [_ H1].
        cbn [append match_close Ascii.eqb Bool.eqb andb] in E.
        assert (R : match_path ((cap ++ "](" ++ g) ++ ")" ++ rest) <> None).
        { apply match_path_reaches.
          change (contains nl cap = false) in H1.
          rewrite contains_nl_app, H1. cbn [orb].
          change ("](" ++ g) with (String "]" (String "(" g)).
          rewrite !contains_nl_cons. exact H4. }
        rewrite append_assoc in R.
        apply R. exact E.
Qed.

Ltac norm_app :=
  repeat first [rewrite append_assoc | progress cbn [append]].

Lemma match_image_inv s g rest :
  match_image s = Some (g, rest) ->
  exists cap,
    s = "![" ++ cap ++ "](" ++ g ++ ")" ++ rest
    /\ contains nl cap = false /\ contains "](" cap = false
    /\ contains ")" g = false /\ contains nl g = false.
Proof.
  intros H. apply match_image_some in H as (x & -> & H).
  apply match_caption_inv in H as (cap & -> & H).
  now exists cap.
Qed.

Lemma length_append a b :
  String.length (a ++ b) = String.length a + String.length b.
Proof. induction a as [|c a IH]; simpl; [reflexivity|now rewrite IH]. Qed.

Lemma strip_captions_length_le n : forall s,
  String.length s <= n ->
  String.length (_strip_captions s) <= String.length s.
Proof.
  induction n as [|n IH]; intros s Hs.
  - destruct s; [rewrite strip_captions_unfold; simpl; lia|simpl in Hs; lia].
  - rewrite strip_captions_unfold. destruct s as [|c s]; [simpl; lia|].
    destruct (match_image (String c s)) as [[g rest]|] eqn:E.
    + apply match_image_inv in E as (cap & E & _).
      assert (L : String.length (String c s)
                  = 5 + String.length cap + String.length g
                    + String.length rest).
      { rewrite E, !length_append. simpl. lia. }
      assert (String.length (_strip_captions rest) <= String.length rest)
        by (apply IH; lia).
      rewrite L, !length_append. simpl. lia.
    + simpl in *. apply le_n_S, IH. lia.
Qed.

Lemma strip_captions_without_image s :
  contains "![" s = false -> _strip_captions s = s.
Proof.
  induction s as [|c s IH]; intros H.
  - now rewrite strip_captions_unfold.
  - apply contains_cons in H as [Hs H].
    rewrite strip_captions_copy; [now rewrite IH|].
    destruct (match_image (String c s)) as [r|] eqn:E; [|reflexivity].
    apply match_image_some in E as (x & E & _).
    rewrite E in Hs. discriminate Hs.
Qed.

(** A reference matched at the head of a text is matched at the head of
    its first line, and the other way round. *)
Lemma match_image_first_line s :
  match_image s = None ->
  match_image (hd EmptyString (split_lines s)) = None.
Proof.
  intros H.
  destruct (match_image (hd EmptyString (split_lines s))) as [[g r]|] eqn:E;
    [|reflexivity].
  apply match_image_inv in E as (cap & E & H1 & H2 & H3 & H4).
  destruct (first_line_prefix s) as [x Hx]. rewrite E in Hx.
  assert (M : match_image s = Some (g, r ++ x)).
  { rewrite Hx. apply match_image_some.
    exists (cap ++ "](" ++ g ++ ")" ++ r ++ x). split.
    - now norm_app.
    - now apply match_caption_exact. }
  congruence.
Qed.

Lemma strip_captions_lines_le n : forall s,
  String.length s <= n ->
  split_lines (_strip_captions s) = map _strip_captions (split_lines s).
Proof.
  induction n as [|n IH]; intros s Hs.
  - destruct s; [now rewrite strip_captions_unfold|simpl in Hs; lia].
  - destruct s as [|c s]; [now rewrite strip_captions_unfold|].
    destruct (match_image (String c s)) as [[g rest]|] eqn:E.
    + rewrite strip_captions_unfold, E.
      apply match_image_inv in E as (cap & E & H1 & H2 & H3 & H4).
      assert (L : String.length rest <= n).
      { apply (f_equal String.length) in E.
        rewrite !length_append in E. simpl in *. lia. }
      rewrite E.
      replace ("![" ++ cap ++ "](" ++ g ++ ")" ++ rest)
        with (("![" ++ cap ++ "](" ++ g ++ ")") ++ rest)
        by now norm_app.
      replace ("![](" ++ g ++ ")" ++ _strip_captions rest)
        with (("![](" ++ g ++ ")") ++ _strip_captions rest)
        by now norm_app.
      rewrite !split_lines_app.
      * rewrite (IH rest L).
        pose proof (split_lines_nonempty rest) as N.
        destruct (split_lines rest) as [|y l]; [congruence|].
        cbn [map hd tl]. f_equal.
        pose proof (strip_captions_reference EmptyString cap g y
                      eq_refl H1 H2 H3 H4) as R.
        cbn [append] in R.
        replace (("![" ++ cap ++ "](" ++ g ++ ")") ++ y)
          with ("![" ++ cap ++ "](" ++ g ++ ")" ++ y)
          by now norm_app.
        cbn [append]. rewrite R. now norm_app.
      * rewrite !contains_nl_app, ?H1, ?H4. reflexivity.
      * rewrite !contains_nl_app, ?H1, ?H4. reflexivity.
    + rewrite strip_captions_copy by assumption.
      assert (L : String.length s <= n) by (simpl in Hs; lia).
      cbn [split_lines]. rewrite (IH s L).
      destruct (Ascii.eqb c newline) eqn:Ec.
      * cbn [map]. f_equal; now rewrite strip_captions_unfold.
      * pose proof (match_image_first_line _ E) as F.
        cbn [split_lines] in F. rewrite Ec in F.
        pose proof (split_lines_nonempty s) as N.
        destruct (split_lines s) as [|y l]; [congruence|].
        cbn [map hd] in *. f_equal.
        now rewrite strip_captions_copy.
Qed.

(** X10.  Caption stripping works line by line: the lines of the result
    are the stripped lines of the text, so the number of lines never
    changes; the result is never longer than the text; and a text
    without the two characters [![] in a row is returned as it is. *)
Theorem strip_captions_line_by_line :
  forall md : string,
    split_lines (_strip_captions md)
    = map _strip_captions (split_lines md)
    /\ String.length (_strip_captions md) <= String.length md
    /\ (contains "![" md = false -> _strip_captions md = md).
Proof.
  intros md. split; [now apply (strip_captions_lines_le (String.length md))|].
  split; [now apply (strip_captions_length_le (String.length md))|].
  apply strip_captions_without_image.
Qed.

Lemma strip_captions_line_by_line_witness :
  _strip_captions ("# Title" ++ nl ++ "text (a) [b]")
  = "# Title" ++ nl ++ "text (a) [b]".
Proof.
  apply (proj2 (proj2 (strip_captions_line_by_line
                         ("# Title" ++ nl ++ "text (a) [b]")))).
  reflexivity.
Defined.

End CaptionsByLine.

Section RulesMore.
Import PyStr Markdown.
Local Open Scope string_scope.

Lemma item_in (l : list string) i : i < List.length l -> In (item l i) l.
Proof. intros H. unfold item. now apply nth_In. Qed.

Lemma map_item_seq (pre l : list string) :
  map (item (pre ++ l)) (seq (List.length pre) (List.length l)) = l.
Proof.
  revert pre. induction l as [|x l IH]; intros pre; [reflexivity|].
  cbn [List.length seq map]. f_equal.
  - unfold item. now rewrite nth_middle.
  - specialize (IH (pre ++ [x])%list).
    rewrite <- app_assoc, length_app in IH. cbn [List.length app] in IH.
    now rewrite Nat.add_1_r in IH.
Qed.

Lemma filter_all {A} (f : A -> bool) l :
  (forall x, In x l -> f x = true) -> filter f l = l.
Proof.
  induction l as [|x l IH]; intros H; [reflexivity|].
  simpl. rewrite (H x) by now left. f_equal. apply IH.
  intros y Hy. apply H. now right.
Qed.

Lemma strip_hr_lines_all_kept lines :
  (forall i, i < List.length lines -> kept lines i = true) ->
  strip_hr_lines lines = lines.
Proof.
  intros H. rewrite strip_hr_lines_filter, filter_all.
  - apply (map_item_seq []).
  - intros i Hi. apply in_seq in Hi. apply H. lia.
Qed.

(** Among the lines that are no rules the pass drops none. *)
Lemma kept_lines_not_rules (pre l : list string) :
  filter (fun x => negb (is_hr x))
         (map (item (pre ++ l))
              (filter (kept (pre ++ l))
                      (seq (List.length pre) (List.length l))))
  = filter (fun x => negb (is_hr x)) l.
Proof.
  revert pre. induction l as [|x l IH]; intros pre; [reflexivity|].
  cbn [List.length seq filter].
  assert (Ex : item (pre ++ x :: l) (List.length pre) = x)
    by (unfold item; now rewrite nth_middle).
  specialize (IH (pre ++ [x])%list).
  rewrite <- app_assoc, length_app in IH. cbn [List.length app] in IH.
  rewrite Nat.add_1_r in IH.
  destruct (kept (pre ++ x :: l) (List.length pre)) eqn:K.
  - cbn [map filter]. rewrite Ex, IH. reflexivity.
  - rewrite IH. apply kept_false_iff in K as [K _]. rewrite Ex in K.
    now rewrite K.
Qed.

Lemma strip_hr_lines_nonempty lines :
  lines <> [] -> strip_hr_lines lines <> [].
Proof.
  intros N. rewrite strip_hr_lines_filter.
  destruct lines as [|x l]; [congruence|].
  cbn [List.length seq filter]. rewrite kept_first. discriminate.
Qed.

Lemma strip_hr_lines_incl lines x :
  In x (strip_hr_lines lines) -> In x lines.
Proof.
  rewrite strip_hr_lines_filter. intros H.
  apply in_map_iff in H as (i & <- & Hi).
  apply filter_In in Hi as [Hi _]. apply in_seq in Hi.
  apply item_in. lia.
Qed.

Lemma strip_hrs_lines md :
  split_lines (_strip_hrs_after_headers md)
  = strip_hr_lines (split_lines md).
Proof.
  unfold _strip_hrs_after_headers. apply split_lines_join.
  - apply strip_hr_lines_nonempty, split_lines_nonempty.
  - apply Forall_forall. intros x Hx. apply strip_hr_lines_incl in Hx.
    pose proof (lines_no_newline md) as F.
    rewrite Forall_forall in F. now apply F.
Qed.

(** X11.  The rule-removal pass returns the lines it keeps, joined
    again; it drops nothing but rule lines: the lines that are no rules
    are all kept, in their order; a text without a level-1 heading
    line, and a text without a rule line, is returned exactly as it
    is. *)
Theorem strip_hrs_drops_only_rules :
  forall md : string,
    let lines := split_lines md in
    split_lines (_strip_hrs_after_headers md) = strip_hr_lines lines
    /\ filter (fun x => negb (is_hr x)) (strip_hr_lines lines)
       = filter (fun x => negb (is_hr x)) lines
    /\ ((forall x, In x lines -> is_header_1 x = false) ->
        _strip_hrs_after_headers md = md)
    /\ ((forall x, In x lines -> is_hr x = false) ->
        _strip_hrs_after_headers md = md).
Proof.
  intros md lines. split; [apply strip_hrs_lines|]. split.
  - rewrite strip_hr_lines_filter. apply (kept_lines_not_rules []).
  - split; intros H; unfold _strip_hrs_after_headers; fold lines;
      (rewrite strip_hr_lines_all_kept; [apply join_split_lines|]);
      intros i Hi; unfold kept.
    + unfold is_after_h1.
      destruct (look_back lines i) as [j|] eqn:E;
        [|now rewrite andb_false_r].
      apply look_back_some in E as (Hj & _).
      rewrite is_header_1_strip, (H (item lines j)).
      * now rewrite andb_false_r.
      * apply item_in. lia.
    + rewrite (H (item lines i)); [reflexivity|now apply item_in].
Qed.

Lemma strip_hrs_drops_only_rules_witness :
  _strip_hrs_after_headers ("## Part" ++ nl ++ "---" ++ nl ++ "text")
  = "## Part" ++ nl ++ "---" ++ nl ++ "text".
Proof.
  destruct (strip_hrs_drops_only_rules
              ("## Part" ++ nl ++ "---" ++ nl ++ "text"))
    as (_ & _ & H & _).
  apply H. intros x Hx.
  repeat (destruct Hx as [<-|Hx]; [reflexivity|]). destruct Hx.
Defined.

End RulesMore.

Section FigureLines.
Import PyStr Markdown.
Local Open Scope string_scope.

Lemma lstrip_suffix s : exists u, s = u ++ lstrip s.
Proof.
  induction s as [|c s [u IH]]; [now exists EmptyString|].
  simpl. destruct (isspace c).
  - exists (String c u). simpl. now rewrite <- IH.
  - now exists EmptyString.
Qed.

Lemma rstrip_prefix s : exists w, s = rstrip s ++ w.
Proof.
  induction s as [|c s [w IH]]; [now exists EmptyString|].
  cbn [rstrip]. destruct (rstrip s) as [|d r].
  - destruct (isspace c).
    + now exists (String c s).
    + exists w. simpl in *. now rewrite <- IH.
  - exists w. cbn [append] in *. now rewrite <- IH.
Qed.

Lemma skip_digits_suffix s : exists u, s = u ++ skip_digits s.
Proof.
  induction s as [|c s [u IH]]; [now exists EmptyString|].
  simpl. destruct (isdigit c).
  - exists (String c u). simpl. now rewrite <- IH.
  - now exists EmptyString.
Qed.

Lemma iprefix_suffix p : forall s r,
  iprefix p s = Some r -> exists u, s = u ++ r.
Proof.
  induction p as [|a p IH]; intros s r.
  - simpl. intros [= ->]. now exists EmptyString.
  - destruct s as [|b s]; [discriminate|]. simpl.
    destruct (Ascii.eqb (lower_char a) (lower_char b)); [|discriminate].
    intros H. destruct (IH _ _ H) as [u ->]. now exists (String b u).
Qed.

Lemma no_nl_suffix u r : contains nl (u ++ r) = false -> contains nl r = false.
Proof.
  rewrite contains_nl_app. intros H. now apply orb_false_iff in H.
Qed.

Lemma no_nl_prefix u r : contains nl (u ++ r) = false -> contains nl u = false.
Proof.
  rewrite contains_nl_app. intros H. now apply orb_false_iff in H.
Qed.

Lemma strip_no_nl s : contains nl s = false -> contains nl (strip s) = false.
Proof.
  intros H. unfold strip.
  destruct (lstrip_suffix s) as [u Hu]. rewrite Hu in H.
  apply no_nl_suffix in H.
  destruct (rstrip_prefix (lstrip s)) as [w Hw]. rewrite Hw in H.
  now apply no_nl_prefix in H.
Qed.

Lemma match_figure_no_nl t rest :
  contains nl t = false -> match_figure t = Some rest ->
  contains nl rest = false.
Proof.
  unfold match_figure. intros H.
  destruct (iprefix "Figure" t) as [[|c r]|] eqn:E; try discriminate.
  apply iprefix_suffix in E as [u ->]. apply no_nl_suffix in H.
  rewrite contains_nl_cons in H. apply orb_false_iff in H as [_ H].
  destruct (isspace c); [|discriminate].
  destruct (lstrip_suffix r) as [v Hv]. rewrite Hv in H.
  apply no_nl_suffix in H.
  destruct (lstrip r) as [|d r']; [discriminate|].
  destruct (isdigit d); [|discriminate]. intros [= <-].
  rewrite contains_nl_cons in H. apply orb_false_iff in H as [_ H].
  destruct (skip_digits_suffix r') as [x Hx]. rewrite Hx in H.
  now apply no_nl_suffix in H.
Qed.

Lemma dot_star_end_no_nl s : contains nl s = false -> dot_star_end s = true.
Proof.
  induction s as [|c s IH]; [reflexivity|].
  rewrite contains_nl_cons. intros H. apply orb_false_iff in H as [Hc H].
  simpl. rewrite Hc. now apply IH.
Qed.

(** On a single line the pattern matches exactly the lines whose trimmed
    text starts with [Figure], white space and a digit. *)
Lemma fig_pattern_match_line line :
  contains nl line = false ->
  fig_pattern_match (strip line) = is_figure (strip line).
Proof.
  intros H. unfold fig_pattern_match, is_figure.
  destruct (match_figure (strip line)) as [rest|] eqn:E; [|reflexivity].
  apply dot_star_end_no_nl.
  apply (match_figure_no_nl (strip line)); [now apply strip_no_nl|exact E].
Qed.

Lemma span_not_figure x :
  fig_pattern_match (strip (span_open ++ x)) = false.
Proof.
  unfold fig_pattern_match, strip.
  change (span_open ++ x)
    with (String "<" ("span style=" ++ dquote ++ "font-size:10pt"
                      ++ dquote ++ ">" ++ x)).
  cbn [lstrip]. change (isspace "<") with false. cbv iota.
  destruct (rstrip_head "<" ("span style=" ++ dquote ++ "font-size:10pt"
                             ++ dquote ++ ">" ++ x) eq_refl) as [r ->].
  reflexivity.
Qed.

Lemma style_caption_line_idempotent line :
  style_caption_line (style_caption_line line) = style_caption_line line.
Proof.
  unfold style_caption_line at 2 3.
  destruct (fig_pattern_match (strip line)) eqn:E.
  - unfold style_caption_line. now rewrite span_not_figure.
  - unfold style_caption_line. now rewrite E.
Qed.

Lemma style_caption_line_no_nl line :
  contains nl line = false -> contains nl (style_caption_line line) = false.
Proof.
  intros H. unfold style_caption_line.
  destruct (fig_pattern_match (strip line)); [|exact H].
  rewrite !contains_nl_app, H. reflexivity.
Qed.

Lemma style_captions_lines md :
  split_lines (_style_captions_in_markdown md)
  = map style_caption_line (split_lines md).
Proof.
  unfold _style_captions_in_markdown. apply split_lines_join.
  - pose proof (split_lines_nonempty md).
    now destruct (split_lines md).
  - apply Forall_forall. intros x Hx.
    apply in_map_iff in Hx as (y & <- & Hy).
    apply style_caption_line_no_nl.
    pose proof (lines_no_newline md) as F.
    rewrite Forall_forall in F. now apply F.
Qed.

(** X12.  The figure-caption pass works line by line and keeps the
    number of lines: a line is wrapped in the 10pt span exactly when its
    trimmed text starts with [Figure], white space and a digit, in any
    letter case, and every other line is left as it is; a wrapped line
    is never wrapped again, so the pass is idempotent. *)
Theorem style_captions_line_by_line :
  forall md : string,
    split_lines (_style_captions_in_markdown md)
    = map style_caption_line (split_lines md)
    /\ (forall line, In line (split_lines md) ->
          style_caption_line line
          = if is_figure (strip line)
            then span_open ++ line ++ "</span>" else line)
    /\ _style_captions_in_markdown (_style_captions_in_markdown md)
       = _style_captions_in_markdown md.
Proof.
  intros md. split; [apply style_captions_lines|]. split.
  - intros line Hl. unfold style_caption_line.
    rewrite fig_pattern_match_line; [reflexivity|].
    pose proof (lines_no_newline md) as F.
    rewrite Forall_forall in F. now apply F.
  - unfold _style_captions_in_markdown at 1.
    rewrite style_captions_lines, map_map.
    unfold _style_captions_in_markdown. f_equal.
    apply map_ext. apply style_caption_line_idempotent.
Qed.

Lemma style_captions_line_by_line_witness :
  style_caption_line "figure 2: the loss"
  = span_open ++ "figure 2: the loss" ++ "</span>".
Proof.
  destruct (style_captions_line_by_line
              ("text" ++ nl ++ "figure 2: the loss")) as (_ & H & _).
  apply (H "figure 2: the loss"). right. now left.
Defined.

End FigureLines.

(* ===================================================================== *)
(** * Caption stripping: idempotence, single-line references, line breaks *)
(* ===================================================================== *)

Section CaptionClaim.
Import PyStr Markdown.
Local Open Scope string_scope.

(** A line break separates: what is before it and what is after it
    are stripped on their own. *)
Lemma strip_captions_break u rest :
  contains nl u = false ->
  _strip_captions (u ++ nl ++ rest)
  = _strip_captions u ++ nl ++ _strip_captions rest.
Proof.
  intros H.
  rewrite <- (join_split_lines (_strip_captions (u ++ nl ++ rest))).
  rewrite (strip_captions_lines_le (String.length (u ++ nl ++ rest)))
    by reflexivity.
  rewrite split_lines_break by assumption. cbn [map].
  rewrite <- (strip_captions_lines_le (String.length rest)) by reflexivity.
  pose proof (split_lines_nonempty (_strip_captions rest)) as N.
  destruct (split_lines (_strip_captions rest)) as [|y l] eqn:E;
    [congruence|].
  rewrite join_cons, <- E, join_split_lines. reflexivity.
Qed.

Lemma startswith_append sub x : startswith sub (sub ++ x) = true.
Proof.
  induction sub as [|c sub IH]; [reflexivity|].
  cbn [append startswith]. now rewrite Ascii.eqb_refl, IH.
Qed.

Lemma contains_append sub a x : contains sub (a ++ sub ++ x) = true.
Proof.
  induction a as [|c a IH].
  - cbn [append]. destruct (sub ++ x) eqn:E; cbn [contains];
      rewrite <- E, startswith_append; reflexivity.
  - cbn [append contains]. rewrite IH. apply orb_true_r.
Qed.

(** Without the two characters [](] nothing matches. *)
Lemma strip_captions_unclosed u :
  contains "](" u = false -> _strip_captions u = u.
Proof.
  induction u as [|c u IH]; intros H.
  - now rewrite strip_captions_unfold.
  - assert (M : match_image (String c u) = None).
    { destruct (match_image (String c u)) as [[g rest]|] eqn:E;
        [|reflexivity].
      apply match_image_inv in E as (cap & E & _).
      rewrite E in H.
      change ("![" ++ cap ++ "](" ++ g ++ ")" ++ rest)
        with (("![" ++ cap) ++ "](" ++ g ++ ")" ++ rest) in H.
      rewrite contains_append in H. discriminate H. }
    apply contains_cons in H as [_ H].
    rewrite strip_captions_copy by assumption. now rewrite IH.
Qed.

(** C9 (amended).  Caption stripping is idempotent on every input; an
    image reference written on one line (no line break and no [](] in
    the caption, no line break and no [)] in the path) that no earlier
    [![] precedes loses its caption and keeps its path, the text before
    it is unchanged and the text after it is stripped in turn;
    [![cap](x.png)] becomes [![](x.png)].  A match never holds a line
    break: the text before a line break and the text after it are
    stripped on their own, and text without [](] is returned as it is;
    so an opening [![] whose line holds no [](] is kept with the rest
    of its line, the caption that was meant to follow it included. *)
Theorem strip_captions_idempotent_and_single_line :
  (forall md, _strip_captions (_strip_captions md) = _strip_captions md)
  /\ (forall pre cap path post,
        contains "![" pre = false ->
        contains nl cap = false -> contains "](" cap = false ->
        contains ")" path = false -> contains nl path = false ->
        _strip_captions (pre ++ "![" ++ cap ++ "](" ++ path ++ ")" ++ post)
        = pre ++ "![](" ++ path ++ ")" ++ _strip_captions post)
  /\ _strip_captions "![cap](x.png)" = "![](x.png)"
  /\ (forall u rest,
        contains nl u = false ->
        _strip_captions (u ++ nl ++ rest)
        = _strip_captions u ++ nl ++ _strip_captions rest)
  /\ (forall u, contains "](" u = false -> _strip_captions u = u)
  /\ (forall line rest,
        contains nl line = false -> contains "](" line = false ->
        _strip_captions (line ++ nl ++ rest)
        = line ++ nl ++ _strip_captions rest)
  /\ _strip_captions ("![a" ++ nl ++ "b](x.png)") = "![a" ++ nl ++ "b](x.png)".
Proof.
  split; [exact strip_captions_idempotent|].
  split; [exact strip_captions_reference|]. split; [reflexivity|].
  split; [exact strip_captions_break|].
  split; [exact strip_captions_unclosed|]. split; [|reflexivity].
  intros line rest Hn Hc.
  now rewrite strip_captions_break, strip_captions_unclosed.
Qed.

(** The theorem at an image reference inside a sentence, and at a
    caption that is broken over two lines. *)
Lemma strip_captions_idempotent_and_single_line_witness :
  _strip_captions ("see " ++ "![" ++ "a chart" ++ "](" ++ "img/x.png" ++ ")"
                   ++ " below")
  = "see " ++ "![](" ++ "img/x.png" ++ ")" ++ _strip_captions " below"
  /\ _strip_captions ("![a chart" ++ nl ++ "of sales](img/x.png)")
     = "![a chart" ++ nl ++ _strip_captions "of sales](img/x.png)".
Proof.
  destruct strip_captions_idempotent_and_single_line
    as (_ & H2 & _ & _ & _ & H6 & _).
  split; [apply H2; reflexivity|apply H6; reflexivity].
Defined.

End CaptionClaim.

(* ===================================================================== *)
(** * The HTML-table transcoder: what it finds and what it emits *)
(* ===================================================================== *)

Section TranscoderClaim.
Import PyStr HtmlTable.
Local Open Scope string_scope.

























End TranscoderClaim.

Section TranscoderExamples.
Import PyStr HtmlTable.
Local Open Scope string_scope.


End TranscoderExamples.

(* ===================================================================== *)
(** * Properties of the notebook preparation *)
(* ===================================================================== *)

Section NotebookCleaning.
Import PyStr Notebook.

Lemma filter_filter {A} (f : A -> bool) l : filter f (filter f l) = filter f l.
Proof.
  induction l as [|x l IH]; [reflexivity|].
  simpl. destruct (f x) eqn:E; simpl; rewrite ?E, IH; reflexivity.
Qed.

Lemma clean_cell_type k cell :
  cell_type (clean_cell k cell) = cell_type cell
  /\ source (clean_cell k cell) = source cell.
Proof.
  unfold clean_cell. now destruct (is_code_cell cell), k.
Qed.

Lemma is_code_clean_cell k cell :
  is_code_cell (clean_cell k cell) = is_code_cell cell.
Proof.
  unfold is_code_cell. now rewrite (proj1 (clean_cell_type k cell)).
Qed.

Lemma clean_cell_idempotent k cell :
  clean_cell k (clean_cell k cell) = clean_cell k cell.
Proof.
  unfold clean_cell at 1. rewrite is_code_clean_cell.
  destruct (is_code_cell cell) eqn:E; [|reflexivity].
  unfold clean_cell. rewrite E. destruct k; cbn; [reflexivity|].
  unfold outputs_of at 1. cbn. now rewrite filter_filter.
Qed.

(** X13.  [_clean_outputs] keeps the cells, their order, types and
    sources, and leaves every cell that is no code cell untouched; every
    code cell ends with its execution count cleared; unless [keep_text]
    is set, the outputs of a code cell are reduced to those of type
    [display_data] or [execute_result] that carry a PNG or SVG image or
    HTML, in their order, and with [keep_text] the outputs stay as they
    are; cleaning a second time changes nothing. *)
Theorem clean_outputs_postcondition :
  forall (cells : list Cell) (keep_text : bool),
    let cleaned := _clean_outputs cells keep_text in
    map cell_type cleaned = map cell_type cells
    /\ map source cleaned = map source cells
    /\ (forall i cell, nth_error cells i = Some cell ->
          exists cell', nth_error cleaned i = Some cell'
            /\ (is_code_cell cell = false -> cell' = cell)
            /\ (is_code_cell cell = true ->
                execution_count cell' = Some None
                /\ outputs cell'
                   = if keep_text then outputs cell
                     else Some (filter is_rich (outputs_of cell))))
    /\ (keep_text = false ->
        every_output is_rich (filter is_code_cell cleaned))
    /\ _clean_outputs cleaned keep_text = cleaned.
Proof.
  intros cells k. cbv zeta. unfold _clean_outputs.
  split; [rewrite map_map; apply map_ext; intros c; apply clean_cell_type|].
  split; [rewrite map_map; apply map_ext; intros c; apply clean_cell_type|].
  split.
  - intros i cell H. exists (clean_cell k cell).
    split; [now rewrite nth_error_map, H|].
    unfold clean_cell. split; intros ->; [reflexivity|].
    now destruct k.
  - split.
    + intros ->. unfold every_output. apply Forall_forall. intros c Hc.
      apply filter_In in Hc as [Hc Hcode].
      apply in_map_iff in Hc as (c0 & <- & _).
      rewrite is_code_clean_cell in Hcode.
      unfold clean_cell. rewrite Hcode. cbn.
      apply Forall_forall. intros o Ho. now apply filter_In in Ho.
    + rewrite map_map. apply map_ext. intros c.
      apply clean_cell_idempotent.
Qed.

Lemma clean_outputs_postcondition_witness :
  every_output is_rich
    (filter is_code_cell
       (_clean_outputs [code_cell [stream_output; frame_output]] false)).
Proof.
  destruct (clean_outputs_postcondition
              [code_cell [stream_output; frame_output]] false)
    as (_ & _ & _ & H & _).
  now apply H.
Defined.

End NotebookCleaning.

Section NotebookTables.
Import PyStr Notebook.
Local Open Scope string_scope.

Variable fromstring : string -> HtmlTable.element.

Abbreviation extract := (extract_tables fromstring).
Abbreviation to_md := (md_table fromstring).

Lemma filter_none {A} (f : A -> bool) l :
  (forall x, In x l -> f x = false) -> filter f l = [].
Proof.
  induction l as [|x l IH]; intros H; [reflexivity|].
  simpl. rewrite (H x) by now left. apply IH.
  intros y Hy. apply H. now right.
Qed.

Lemma filter_negb_filter {A} (f : A -> bool) l :
  filter f (filter (fun x => negb (f x)) l) = [].
Proof.
  apply filter_none. intros x Hx. apply filter_In in Hx as [_ Hx].
  now apply negb_true_iff.
Qed.

Lemma without_tables_idempotent cell :
  without_tables (without_tables cell) = without_tables cell.
Proof.
  unfold without_tables. destruct (is_code_cell cell) eqn:E.
  - assert (E' : is_code_cell (mkCell (cell_type cell) (source cell)
                   (Some (filter (fun out => negb (is_table_output out))
                                 (outputs_of cell)))
                   (execution_count cell)) = true) by exact E.
    rewrite E'. cbn. unfold outputs_of at 1. cbn.
    now rewrite filter_filter.
  - now rewrite E.
Qed.

Lemma table_htmls_without_tables cell :
  table_htmls (without_tables cell) = [].
Proof.
  unfold table_htmls, without_tables.
  destruct (is_code_cell cell) eqn:E; [|now rewrite E].
  assert (E' : is_code_cell (mkCell (cell_type cell) (source cell)
                 (Some (filter (fun out => negb (is_table_output out))
                               (outputs_of cell)))
                 (execution_count cell)) = true) by exact E.
  rewrite E'. unfold outputs_of at 1. cbn.
  now rewrite filter_negb_filter.
Qed.

Lemma extract_cell_settled cell :
  extract_cell fromstring (without_tables cell) = [without_tables cell].
Proof.
  unfold extract_cell.
  now rewrite table_htmls_without_tables, without_tables_idempotent.
Qed.

Lemma extract_markdown_cell md :
  extract_cell fromstring (new_markdown_cell md) = [new_markdown_cell md].
Proof. reflexivity. Qed.

Lemma extract_cons c cells :
  extract (c :: cells) = (extract_cell fromstring c ++ extract cells)%list.
Proof. reflexivity. Qed.

Lemma extract_markdown_cells mds :
  extract (map new_markdown_cell mds) = map new_markdown_cell mds.
Proof.
  induction mds as [|md mds IH]; [reflexivity|].
  cbn [map]. now rewrite extract_cons, extract_markdown_cell, IH.
Qed.

Lemma extract_app a b : extract (a ++ b) = (extract a ++ extract b)%list.
Proof. unfold extract_tables. apply flat_map_app. Qed.

Lemma extract_tables_idempotent cells :
  extract (extract cells) = extract cells.
Proof.
  induction cells as [|c cells IH]; [reflexivity|].
  rewrite extract_cons, extract_app, IH. f_equal.
  unfold extract_cell.
  now rewrite extract_cons, extract_cell_settled, extract_markdown_cells.
Qed.

Lemma outputs_without_tables cell :
  Forall (fun out => negb (is_table_output out) = true)
         (outputs_of (without_tables cell))
  \/ is_code_cell cell = false.
Proof.
  unfold without_tables. destruct (is_code_cell cell); [left|now right].
  unfold outputs_of. cbn. apply Forall_forall. intros o Ho.
  now apply filter_In in Ho.
Qed.

(** The converted table is empty exactly when the HTML has no table
    element or the table has no row with a cell. *)
Lemma md_table_empty (doc : HtmlTable.element) :
  HtmlTable._html_table_to_markdown doc = EmptyString
  <-> HtmlTable.find_table doc = None
      \/ exists t, HtmlTable.find_table doc = Some t
                   /\ HtmlTable.collect_rows t = [].
Proof.
  unfold HtmlTable._html_table_to_markdown.
  destruct (HtmlTable.find_table doc) as [t|]; [|split; [now left|easy]].
  destruct (HtmlTable.collect_rows t) as [|r rows] eqn:E.
  - split; [right; now exists t|easy].
  - split.
    + intros H. exfalso. unfold HtmlTable.table_rows in H.
      cbn [map] in H.
      remember (HtmlTable.pad _ r) as r0.
      remember (repeat "---" _) as sep.
      remember (map (HtmlTable.pad _) rows) as rest.
      cbn [map] in H. unfold HtmlTable.row_line at 1 in H.
      cbn [join append] in H. discriminate H.
    + intros [H|(t' & [= <-] & H)]; congruence.
Qed.

(** X14.  The table loop of [_process_notebook] takes every output
    whose HTML holds a table out of the code cells, so that no such
    output is left in any cell; a cell that is no code cell is passed on
    unchanged; right after each code cell come Markdown cells with the
    converted tables, one for each table output whose conversion is not
    empty (a table without any row with a cell vanishes); the number of
    cells grows by the number of those; and running the loop again
    changes nothing. *)
Theorem extract_tables_postcondition :
  forall cells : list Cell,
    every_output (fun out => negb (is_table_output out))
                 (filter is_code_cell (extract cells))
    /\ (forall cell, is_code_cell cell = false ->
          extract_cell fromstring cell = [cell])
    /\ (forall cell, is_code_cell cell = true ->
          exists added,
            extract_cell fromstring cell
            = mkCell (cell_type cell) (source cell)
                     (Some (filter (fun out => negb (is_table_output out))
                                   (outputs_of cell)))
                     (execution_count cell)
              :: map new_markdown_cell added
            /\ added
               = filter (fun md => negb (String.eqb md ""))
                   (map (fun out => to_md (table_html out))
                        (filter is_table_output (outputs_of cell)))
            /\ Forall (fun md => md <> "") added)
    /\ (forall html,
          to_md html = ""
          <-> HtmlTable.find_table (fromstring html) = None
              \/ exists t, HtmlTable.find_table (fromstring html) = Some t
                           /\ HtmlTable.collect_rows t = [])
    /\ List.length (extract cells)
       = List.length cells
         + List.length
             (filter (fun md => negb (String.eqb md ""))
                     (flat_map (fun cell => map to_md (table_htmls cell))
                               cells))
    /\ extract (extract cells) = extract cells.
Proof.
  intros cells. split.
  - unfold every_output. apply Forall_forall. intros c Hc.
    apply filter_In in Hc as [Hc Hcode].
    unfold extract_tables in Hc. apply in_flat_map in Hc as (c0 & _ & Hc).
    destruct Hc as [<-|Hc].
    + destruct (outputs_without_tables c0) as [H|H]; [exact H|].
      unfold without_tables in Hcode. rewrite H in Hcode. congruence.
    + apply in_map_iff in Hc as (md & <- & _). discriminate Hcode.
  - split.
    + intros cell H. unfold extract_cell, table_htmls, without_tables.
      now rewrite H.
    + split.
      * intros cell H. eexists. split; [|split; [reflexivity|]].
        -- unfold extract_cell, table_htmls, without_tables.
           rewrite H, map_map. reflexivity.
        -- apply Forall_forall. intros md Hmd.
           apply filter_In in Hmd as [_ Hmd].
           apply negb_true_iff in Hmd. now apply String.eqb_neq.
      * split; [intros html; apply md_table_empty|].
        split; [|apply extract_tables_idempotent].
        induction cells as [|c cells IH]; [reflexivity|].
        rewrite extract_cons. cbn [flat_map]. rewrite filter_app, !length_app, IH.
        unfold extract_cell. cbn [List.length]. rewrite length_map. lia.
Qed.

End NotebookTables.

Section NotebookExamples.
Import PyStr Notebook.
Local Open Scope string_scope.

Lemma extract_tables_postcondition_witness :
  extract_cell sample_fromstring (code_cell [stream_output; frame_output])
  = [code_cell [stream_output];
     new_markdown_cell ("| 1 |" ++ nl ++ "| --- |")].
Proof.
  destruct (extract_tables_postcondition sample_fromstring [])
    as (_ & _ & H & _).
  destruct (H (code_cell [stream_output; frame_output]) eq_refl)
    as (added & E & A & _).
  rewrite E, A. reflexivity.
Defined.

End NotebookExamples.

(* ===================================================================== *)
(** * The files a conversion leaves behind *)
(* ===================================================================== *)

Section ConversionFiles.
Import PyStr Driver.
Local Open Scope string_scope.

Variable Document : Type.
Variables pandoc_on_path _HAS_NB : bool.
Variable pandoc : list string -> Files Document -> Completed Document.
Variable add_header_footer : string -> Document -> option Document.
Variable apply_styling : Document -> option Document.
Variables nb_markdown nb_html : string -> string.
Variable nb_outputs : string -> list (string * string).
Variable opts : Options.

Abbreviation to_docx :=
  (_markdown_to_docx Document pandoc_on_path pandoc add_header_footer
                     apply_styling opts).
Abbreviation process_markdown :=
  (_process_markdown Document pandoc_on_path pandoc add_header_footer
                     apply_styling opts).
Abbreviation process_notebook :=
  (_process_notebook Document pandoc_on_path _HAS_NB pandoc add_header_footer
                     apply_styling nb_markdown nb_html nb_outputs opts).
Abbreviation finish :=
  (Driver.finish Document add_header_footer apply_styling).
Abbreviation warnings :=
  (Driver.warnings Document add_header_footer apply_styling).
Abbreviation title_of := (Driver.title_of opts).

Lemma temp_not_docx dir base :
  str (in_dir dir (base ++ "_temp") ".md") <> str (in_dir dir base ".docx").
Proof.
  unfold str, in_dir. cbn [parent stem suffix].
  replace (dir ++ "/" ++ (base ++ "_temp") ++ ".md")
    with ((dir ++ "/" ++ base ++ "_temp") ++ ".md")
    by (now rewrite !append_assoc).
  replace (dir ++ "/" ++ base ++ ".docx")
    with ((dir ++ "/" ++ base) ++ ".docx")
    by (now rewrite !append_assoc).
  now apply not_md_docx.
Qed.

Lemma input_not_docx inp dir base :
  lower (suffix inp) = ".md" -> str inp <> str (in_dir dir base ".docx").
Proof.
  intros Hs. unfold str, in_dir. cbn [parent stem suffix].
  replace (parent inp ++ "/" ++ stem inp ++ suffix inp)
    with ((parent inp ++ "/" ++ stem inp) ++ suffix inp)
    by (now rewrite !append_assoc).
  replace (dir ++ "/" ++ base ++ ".docx")
    with ((dir ++ "/" ++ base) ++ ".docx")
    by (now rewrite !append_assoc).
  now apply not_md_docx.
Qed.

(** The world in which the second compilation of [_process_markdown]
    starts, and the worlds in which the conversion ends. *)
Lemma process_markdown_worlds inp base dir raw w :
  pandoc_on_path = true ->
  lower (suffix inp) = ".md" ->
  files w (str inp) = Some (Text raw) ->
  let out := in_dir dir base ".docx" in
  let temp := in_dir dir (base ++ "_temp") ".md" in
  let src := Some (parent inp) in
  let title := title_of base in
  let cmd1 := pandoc_cmd opts inp out src in
  let r1 := pandoc cmd1 (files w) in
  let w1 := snd (to_docx inp out title src w) in
  let fs2 := write (str temp) (Text (Markdown.normalize raw)) (files w1) in
  let cmd2 := pandoc_cmd opts temp out src in
  let r2 := pandoc cmd2 fs2 in
  let res := process_markdown inp base dir w in
  returncode r1 = 0%Z ->
  (forall q, files w1 q
             = if String.eqb q (str out)
               then Some (Docx (finish title (output r1)))
               else files w q)
  /\ (returncode r2 <> 0%Z ->
      fst res = Raised (pandoc_failed r2)
      /\ (forall q, files (snd res) q = fs2 q)
      /\ printed (snd res)
         = (printed w ++ warnings title (output r1))%list)
  /\ (returncode r2 = 0%Z ->
      fst res = Returned (mkResult (Some out) None None)
      /\ (forall q, files (snd res) q
                    = if String.eqb q (str temp) then None
                      else if String.eqb q (str out)
                           then Some (Docx (finish title (output r2)))
                           else fs2 q)
      /\ printed (snd res)
         = (printed w ++ warnings title (output r1)
            ++ warnings title (output r2))%list).
Proof.
  intros Hp Hs Hraw out temp src title cmd1 r1 w1 fs2 cmd2 r2 res Hr.
  pose proof (input_not_docx inp dir base Hs) as Hio. fold out in Hio.
  destruct (to_docx_success Document pandoc_on_path pandoc add_header_footer
              apply_styling opts inp out title src w Hp Hr)
    as (w1' & E1 & I1 & P1 & F1).
  assert (Ew1 : w1 = w1') by (unfold w1; now rewrite E1).
  clearbody w1. subst w1'.
  split; [exact F1|].
  assert (Eres : res
    = bind (to_docx temp out title src)
        (fun _ => bind (modify_files (unlink (str temp)))
           (fun _ => ret (mkResult (Some out) None None)))
        (mkWorld fs2 (invocations w1) (printed w1))).
  { unfold res, _process_markdown. fold (title_of base).
    fold out. fold src. fold title. fold temp.
    unfold bind at 1. rewrite E1.
    unfold bind at 1. unfold read_text, bind at 1, get_files, ret.
    cbn [files]. rewrite F1.
    destruct (String.eqb_spec (str inp) (str out)); [contradiction|].
    rewrite Hraw. unfold bind at 1, modify_files.
    reflexivity. }
  set (w2 := mkWorld fs2 (invocations w1) (printed w1)) in *.
  split.
  - intros Hr2.
    assert (E2 : res
      = (Raised (pandoc_failed r2),
         mkWorld (files w2) (invocations w2 ++ [cmd2])%list (printed w2))).
    { rewrite Eres. unfold bind at 1.
      now rewrite (to_docx_failure Document pandoc_on_path pandoc
                     add_header_footer apply_styling opts
                     temp out title src w2 Hp Hr2). }
    rewrite E2. cbn [fst snd files printed]. split; [reflexivity|].
    split; [reflexivity|]. unfold w2. cbn [printed]. exact P1.
  - intros Hr2.
    destruct (to_docx_success Document pandoc_on_path pandoc
                add_header_footer apply_styling opts
                temp out title src w2 Hp Hr2)
      as (w3 & E3 & I3 & P3 & F3).
    assert (E2 : res
      = (Returned (mkResult (Some out) None None),
         mkWorld (unlink (str temp) (files w3)) (invocations w3)
                 (printed w3))).
    { rewrite Eres. unfold bind at 1. rewrite E3. reflexivity. }
    rewrite E2. cbn [fst snd files printed].
    split; [reflexivity|]. split.
    + intros q. unfold unlink.
      destruct (String.eqb q (str temp)); [reflexivity|].
      rewrite F3. reflexivity.
    + rewrite P3. unfold w2. cbn [printed]. rewrite P1.
      now rewrite <- app_assoc.
Qed.

(** X15.  After a Markdown conversion whose two pandoc runs succeed, the
    output path holds the compiled normalised text, the temporary file
    is gone, and every other file is as it was; so the source file is
    untouched whenever its path is not the path of the temporary file.
    When it is (an input [<base>_temp.md] in the output directory), the
    conversion has overwritten its own source and then deleted it. *)
Theorem markdown_conversion_leaves_only_the_docx :
  forall (inp : Path) (base dir raw : string) (w : World Document),
    pandoc_on_path = true ->
    lower (suffix inp) = ".md" ->
    files w (str inp) = Some (Text raw) ->
    let out := in_dir dir base ".docx" in
    let temp := in_dir dir (base ++ "_temp") ".md" in
    let src := Some (parent inp) in
    let title := title_of base in
    let cmd1 := pandoc_cmd opts inp out src in
    let r1 := pandoc cmd1 (files w) in
    let w1 := snd (to_docx inp out title src w) in
    let fs2 := write (str temp) (Text (Markdown.normalize raw)) (files w1) in
    let cmd2 := pandoc_cmd opts temp out src in
    let r2 := pandoc cmd2 fs2 in
    let res := process_markdown inp base dir w in
    returncode r1 = 0%Z -> returncode r2 = 0%Z ->
    (forall q, files (snd res) q
               = if String.eqb q (str out)
                 then Some (Docx (finish title (output r2)))
                 else if String.eqb q (str temp) then None
                      else files w q)
    /\ (str temp <> str inp -> files (snd res) (str inp) = Some (Text raw))
    /\ (str temp = str inp -> files (snd res) (str inp) = None)
    /\ printed (snd res)
       = (printed w ++ warnings title (output r1)
          ++ warnings title (output r2))%list.
Proof.
  intros inp base dir raw w Hp Hs Hraw.
  intros out temp src title cmd1 r1 w1 fs2 cmd2 r2 res Hr1 Hr2.
  destruct (process_markdown_worlds inp base dir raw w Hp Hs Hraw Hr1)
    as (F1 & _ & H).
  destruct (H Hr2) as (_ & F & P). fold out temp src title in F, F1, P.
  fold cmd1 r1 w1 in F, F1, P. fold fs2 cmd2 r2 res in F, P.
  pose proof (temp_not_docx dir base) as Hto. fold out temp in Hto.
  pose proof (input_not_docx inp dir base Hs) as Hio. fold out in Hio.
  assert (G : forall q, files (snd res) q
               = if String.eqb q (str out)
                 then Some (Docx (finish title (output r2)))
                 else if String.eqb q (str temp) then None
                      else files w q).
  { intros q. rewrite F. unfold fs2, write. rewrite F1.
    destruct (String.eqb_spec q (str temp)) as [->|Ht].
    - destruct (String.eqb_spec (str temp) (str out)); [contradiction|].
      reflexivity.
    - destruct (String.eqb q (str out)); reflexivity. }
  split; [exact G|]. split; [|split; [|exact P]].
  - intros Hti. rewrite G.
    destruct (String.eqb_spec (str inp) (str out)); [contradiction|].
    destruct (String.eqb_spec (str inp) (str temp)); [congruence|].
    exact Hraw.
  - intros Hti. rewrite G.
    destruct (String.eqb_spec (str inp) (str out)); [contradiction|].
    destruct (String.eqb_spec (str inp) (str temp)); [reflexivity|congruence].
Qed.

(** X16.  When the first pandoc run of a Markdown conversion succeeds
    and the second fails, the conversion raises the error of the second
    run and cleans nothing up: the output path still holds the document
    compiled from the raw source, and the temporary file with the
    normalised text is left behind. *)
Theorem failed_second_run_leaves_first_docx_and_temp :
  forall (inp : Path) (base dir raw : string) (w : World Document),
    pandoc_on_path = true ->
    lower (suffix inp) = ".md" ->
    files w (str inp) = Some (Text raw) ->
    let out := in_dir dir base ".docx" in
    let temp := in_dir dir (base ++ "_temp") ".md" in
    let src := Some (parent inp) in
    let title := title_of base in
    let cmd1 := pandoc_cmd opts inp out src in
    let r1 := pandoc cmd1 (files w) in
    let w1 := snd (to_docx inp out title src w) in
    let fs2 := write (str temp) (Text (Markdown.normalize raw)) (files w1) in
    let cmd2 := pandoc_cmd opts temp out src in
    let r2 := pandoc cmd2 fs2 in
    let res := process_markdown inp base dir w in
    returncode r1 = 0%Z -> returncode r2 <> 0%Z ->
    fst res = Raised (pandoc_failed r2)
    /\ files (snd res) (str out) = Some (Docx (finish title (output r1)))
    /\ files (snd res) (str temp) = Some (Text (Markdown.normalize raw))
    /\ (forall q, q <> str out -> q <> str temp ->
                  files (snd res) q = files w q).
Proof.
  intros inp base dir raw w Hp Hs Hraw.
  intros out temp src title cmd1 r1 w1 fs2 cmd2 r2 res Hr1 Hr2.
  destruct (process_markdown_worlds inp base dir raw w Hp Hs Hraw Hr1)
    as (F1 & H & _).
  destruct (H Hr2) as (R & F & _). fold out temp src title in F, F1, R.
  fold cmd1 r1 w1 in F, F1, R. fold fs2 cmd2 r2 res in F, R.
  pose proof (temp_not_docx dir base) as Hto. fold out temp in Hto.
  split; [exact R|]. split; [|split].
  - rewrite F. unfold fs2, write. rewrite F1.
    destruct (String.eqb_spec (str out) (str temp)); [congruence|].
    now rewrite String.eqb_refl.
  - rewrite F. unfold fs2, write. now rewrite String.eqb_refl.
  - intros q Ho Ht. rewrite F. unfold fs2, write. rewrite F1.
    destruct (String.eqb_spec q (str temp)); [contradiction|].
    destruct (String.eqb_spec q (str out)); [contradiction|reflexivity].
Qed.

Lemma unlink_outputs_none dir outs : forall (fs : Files Document) q,
  fs q = None -> unlink_outputs Document dir outs fs q = None.
Proof.
  unfold unlink_outputs.
  induction outs as [|o outs IH]; intros fs q H; [exact H|].
  cbn [fold_left]. apply IH. unfold unlink.
  now destruct (String.eqb q (dir ++ "/" ++ fst o)).
Qed.

(** X17.  A notebook conversion stops with a [ConversionError] before
    it touches anything when nbformat/nbconvert is missing.  Otherwise
    it runs pandoc exactly once, on [<base>_report.md], which holds the
    normalised Markdown of the notebook, onto [<base>_report.docx].  If
    that run fails, the error is raised and the intermediate files stay.
    If it succeeds, the result names the docx, the HTML file exactly
    when [export_html] is set and the Markdown file exactly when
    [export_markdown] is set; with [export_markdown] nothing is removed,
    and without it the intermediate Markdown file is gone. *)
Theorem notebook_conversion_runs_pandoc_once :
  forall (nbp : Path) (base dir : string) (w : World Document),
    let title := title_of base in
    let out_html := in_dir dir (base ++ "_report") ".html" in
    let out_md := in_dir dir (base ++ "_report") ".md" in
    let out_docx := in_dir dir (base ++ "_report") ".docx" in
    let nb := match files w (str nbp) with
              | Some (Text s) => s
              | _ => EmptyString
              end in
    let fs0 := if export_html opts
               then write (str out_html) (Text (nb_html nb)) (files w)
               else files w in
    let fs1 := write_outputs Document dir (nb_outputs nb)
                 (write (str out_md)
                        (Text (Markdown.normalize (nb_markdown nb))) fs0) in
    let cmd := pandoc_cmd opts out_md out_docx (Some (parent nbp)) in
    let r := pandoc cmd fs1 in
    let res := process_notebook nbp base dir w in
    (_HAS_NB = false ->
     res = (Raised (ConversionError "nbformat/nbconvert not available."), w))
    /\ (_HAS_NB = true -> pandoc_on_path = true ->
        nth_error cmd 1 = Some (str out_md)
        /\ nth_error cmd 3 = Some (str out_docx)
        /\ invocations (snd res) = (invocations w ++ [cmd])%list
        /\ (returncode r <> 0%Z ->
            fst res = Raised (pandoc_failed r)
            /\ forall q, files (snd res) q = fs1 q)
        /\ (returncode r = 0%Z ->
            fst res
            = Returned (mkResult (Some out_docx)
                          (if export_html opts then Some out_html else None)
                          (if export_markdown opts then Some out_md
                           else None))
            /\ (export_markdown opts = true ->
                forall q, files (snd res) q
                          = if String.eqb q (str out_docx)
                            then Some (Docx (finish title (output r)))
                            else fs1 q)
            /\ (export_markdown opts = false ->
                files (snd res) (str out_md) = None))).
Proof.
  intros nbp base dir w title out_html out_md out_docx nb fs0 fs1 cmd r res.
  split.
  - intros H. unfold res, _process_notebook, bind, _require_nb.
    now rewrite H.
  - intros Hnb Hp. split; [reflexivity|]. split; [reflexivity|].
    set (w1 := mkWorld fs1 (invocations w) (printed w)).
    assert (Eres : res
      = bind (to_docx out_md out_docx title (Some (parent nbp)))
          (fun _ =>
             bind (if negb (export_markdown opts)
                   then modify_files
                          (fun fs => unlink_outputs Document dir
                                       (nb_outputs nb)
                                       (unlink (str out_md) fs))
                   else ret tt)
               (fun _ =>
                  ret (mkResult (Some out_docx)
                         (if export_html opts then Some out_html else None)
                         (if export_markdown opts then Some out_md
                          else None))))
          w1).
    { unfold res, _process_notebook, _require_nb. rewrite Hnb.
      cbn [negb]. unfold bind at 1. unfold ret at 1.
      unfold bind at 1. unfold read_text, bind at 1, get_files, ret at 1.
      fold nb. fold (title_of base). fold title out_html out_md out_docx.
      unfold w1, fs1, fs0.
      destruct (export_html opts); reflexivity. }
    destruct (Z.eq_dec (returncode r) 0) as [Hz|Hn].
    + destruct (to_docx_success Document pandoc_on_path pandoc
                  add_header_footer apply_styling opts
                  out_md out_docx title (Some (parent nbp)) w1 Hp Hz)
        as (w2 & E2 & I2 & _ & F2).
      assert (E : res
        = (Returned (mkResult (Some out_docx)
                       (if export_html opts then Some out_html else None)
                       (if export_markdown opts then Some out_md else None)),
           if negb (export_markdown opts)
           then mkWorld (unlink_outputs Document dir (nb_outputs nb)
                           (unlink (str out_md) (files w2)))
                        (invocations w2) (printed w2)
           else w2)).
      { rewrite Eres. unfold bind at 1. rewrite E2.
        destruct (export_markdown opts); reflexivity. }
      rewrite E. cbn [fst snd].
      split; [destruct (export_markdown opts); exact I2|].
      split; [intros; contradiction|]. intros _.
      split; [reflexivity|]. split.
      * intros ->. cbn [negb]. exact F2.
      * intros ->. cbn [negb files]. apply unlink_outputs_none.
        unfold unlink. now rewrite String.eqb_refl.
    + assert (E : res
        = (Raised (pandoc_failed r),
           mkWorld (files w1) (invocations w1 ++ [cmd])%list (printed w1))).
      { rewrite Eres. unfold bind at 1.
        now rewrite (to_docx_failure Document pandoc_on_path pandoc
                       add_header_footer apply_styling opts
                       out_md out_docx title (Some (parent nbp)) w1 Hp Hn). }
      rewrite E. cbn [fst snd files invocations].
      split; [reflexivity|]. split; [|intros; contradiction].
      intros _. split; reflexivity.
Qed.

End ConversionFiles.

Section ConversionFilesExamples.
Import PyStr Driver DriverMore.
Local Open Scope string_scope.

Lemma markdown_conversion_leaves_only_the_docx_witness :
  files (snd (_process_markdown string true sample_pandoc
                (fun _ _ => None) (fun _ => None) sample_options
                sample_input "report" "/work" sample_world))
        "/work/report.md"
  = Some (Text "# Report")
  /\ files (snd (_process_markdown string true sample_pandoc
                   (fun _ _ => None) (fun _ => None) sample_options
                   sample_temp_input "report" "/work" sample_temp_world))
           "/work/report_temp.md"
     = None.
Proof.
  split.
  - destruct (markdown_conversion_leaves_only_the_docx string true
                sample_pandoc (fun _ _ => None) (fun _ => None)
                sample_options sample_input "report" "/work" "# Report"
                sample_world eq_refl eq_refl eq_refl eq_refl eq_refl)
      as (_ & H & _).
    apply H. discriminate.
  - destruct (markdown_conversion_leaves_only_the_docx string true
                sample_pandoc (fun _ _ => None) (fun _ => None)
                sample_options sample_temp_input "report" "/work" "# Report"
                sample_temp_world eq_refl eq_refl eq_refl eq_refl eq_refl)
      as (_ & _ & H & _).
    apply H. reflexivity.
Defined.

Lemma failed_second_run_leaves_first_docx_and_temp_witness :
  files (snd (_process_markdown string true fussy_pandoc
                (fun _ _ => None) (fun _ => None) sample_options
                sample_input "report" "/work" sample_world))
        "/work/report_temp.md"
  = Some (Text "# Report").
Proof.
  destruct (failed_second_run_leaves_first_docx_and_temp string true
              fussy_pandoc (fun _ _ => None) (fun _ => None)
              sample_options sample_input "report" "/work" "# Report"
              sample_world eq_refl eq_refl eq_refl eq_refl)
    as (_ & _ & H & _); [discriminate|].
  exact H.
Defined.

Lemma notebook_conversion_runs_pandoc_once_witness :
  invocations
    (snd (_process_notebook string true true sample_pandoc
            (fun _ _ => None) (fun _ => None)
            (fun s => s) (fun s => s) (fun _ => [])
            sample_options sample_notebook "nb" "/work"
            sample_notebook_world))
  = [pandoc_cmd sample_options (mkPath "/work" "nb_report" ".md")
                (mkPath "/work" "nb_report" ".docx") (Some "/work")].
Proof.
  destruct (notebook_conversion_runs_pandoc_once string true true
              sample_pandoc (fun _ _ => None) (fun _ => None)
              (fun s => s) (fun s => s) (fun _ => [])
              sample_options sample_notebook "nb" "/work"
              sample_notebook_world)
    as (_ & H).
  destruct (H eq_refl eq_refl) as (_ & _ & I & _). exact I.
Defined.

End ConversionFilesExamples.

(* ===================================================================== *)
(** * Properties of the upload handler *)
(* ===================================================================== *)

Section UploadLoop.
Import PyStr Upload.
Local Open Scope string_scope.





End UploadLoop.

(* ===================================================================== *)
(** * Properties of the Markdown table of contents *)
(* ===================================================================== *)

Section TocMarkdown.
Import PyStr Toc.
Local Open Scope string_scope.


Lemma after_hashes_head line c r :
  after_hashes line = String c r -> c <> "#"%char.
Proof.
  induction line as [|d line IH]; [discriminate|].
  simpl. destruct (Ascii.eqb_spec d "#"%char); [exact IH|].
  now intros [= <- _].
Qed.




Lemma lower_char_space c :
  lower_char c = " "%char -> c = " "%char.
Proof.
  destruct c as [[] [] [] [] [] [] [] []]; vm_compute; congruence.
Qed.





End TocMarkdown.
